(** * EcoSENS: pest-trap segmentation, risk forecasting and heat-stress scoring

    A shallow embedding of [analysis.js] and [community-analysis.js] and the
    properties their specification states about them.

    Numbers.  JavaScript numbers are IEEE doubles.  The scorers only compare
    their inputs against constants and add small integers, so finite inputs
    are modelled as rationals ([Q]), which contain every finite double, and
    the accumulated scores as integers ([Z]).  The forecaster uses
    [Math.exp]; it is modelled over the real numbers ([R]), i.e. with exact
    instead of rounded arithmetic, and its decimal constants denote the
    real numbers they spell.  The classifier compares its input with the
    literal [0.15], which is no binary fraction: there the constant is the
    double the literal denotes ([Classifier.double_0_15]). *)

From Stdlib Require Import ZArith QArith Qminmax Reals Lra Lia List String Ascii.
From Stdlib Require Lqa.
From Stdlib Require Import DecimalString.
From stdpp Require Import base list relations sorting.

(** ** A fragment of JavaScript values

    The values a request body or a database row hands to the scorers:
    [undefined] (also what a missing argument is), [null] and numbers,
    including [NaN] and the infinities.  Strings, booleans and objects are
    outside the model. *)
Module JS.

Inductive number : Type :=
  | NaN
  | Fin (q : Q)
  | PosInf
  | NegInf.

Inductive value : Type :=
  | Undefined
  | Null
  | Number (n : number).

(** [ToNumber]: [undefined] becomes [NaN], [null] becomes [+0]. *)
Definition ToNumber (v : value) : number :=
  match v with
  | Undefined => NaN
  | Null => Fin 0
  | Number n => n
  end.

Definition Qltb (x y : Q) : bool := negb (Qle_bool y x).

(** IEEE comparison of two numbers: anything involving [NaN] is false. *)
Definition ltn (a b : number) : bool :=
  match a, b with
  | NaN, _ | _, NaN => false
  | Fin x, Fin y => Qltb x y
  | Fin _, PosInf => true
  | Fin _, NegInf => false
  | PosInf, _ => false
  | NegInf, NegInf => false
  | NegInf, _ => true
  end.

Definition len (a b : number) : bool :=
  match a, b with
  | NaN, _ | _, NaN => false
  | _, _ => negb (ltn b a)
  end.

(** The relational operators [<], [>], [<=], [>=] on values. *)
Definition lt (v w : value) : bool := ltn (ToNumber v) (ToNumber w).
Definition gt (v w : value) : bool := ltn (ToNumber w) (ToNumber v).
Definition le (v w : value) : bool := len (ToNumber v) (ToNumber w).
Definition ge (v w : value) : bool := len (ToNumber w) (ToNumber v).

(** [ToBoolean]: [undefined], [null], [NaN] and zero are falsy. *)
Definition truthy (v : value) : bool :=
  match v with
  | Undefined | Null => false
  | Number NaN => false
  | Number (Fin q) => negb (Qeq_bool q 0)
  | Number _ => true
  end.

(** [v || d] *)
Definition or (v d : value) : value := if truthy v then v else d.

(** [isNaN(v)] *)
Definition isNaN (v : value) : bool :=
  match ToNumber v with NaN => true | _ => false end.

(** [Math.max(a, b)] and [Math.min(a, b)] on numbers. *)
Definition max (a b : number) : number :=
  match a, b with
  | NaN, _ | _, NaN => NaN
  | _, _ => if ltn a b then b else a
  end.

Definition min (a b : number) : number :=
  match a, b with
  | NaN, _ | _, NaN => NaN
  | _, _ => if ltn b a then b else a
  end.

(** A numeric literal. *)
Definition lit (q : Q) : value := Number (Fin q).

(** A reading that is absent: [undefined] (a missing argument) or [NaN]. *)
Definition missing (v : value) : Prop := v = Undefined \/ v = Number NaN.

End JS.

(** ** Heat stress scorer ([computeHeatStressLevel]) *)
Module HeatStress.
Import JS.
Local Open Scope Z_scope.
Local Open Scope string_scope.

(** The running [stressScore] after the four additive blocks and the
    [Math.min(stressScore, 100)] clamp. *)
Definition stressScore
    (airTemperature soilTemperature soilMoisture relativeHumidity : value) : Z :=
  let stressScore := 0 in
  (* Air temperature contribution *)
  let stressScore :=
    if gt airTemperature (lit 35) then stressScore + 50
    else if gt airTemperature (lit 32) then stressScore + 35
    else if gt airTemperature (lit 30) then stressScore + 20
    else if gt airTemperature (lit 25) then stressScore + 10
    else stressScore in
  (* Soil temperature contribution *)
  let stressScore :=
    if gt soilTemperature (lit 30) then stressScore + 25
    else if gt soilTemperature (lit 28) then stressScore + 15
    else if gt soilTemperature (lit 26) then stressScore + 10
    else if gt soilTemperature (lit 24) then stressScore + 5
    else stressScore in
  (* Low soil moisture penalty *)
  let stressScore :=
    if lt soilMoisture (lit 20) then stressScore + 15
    else if lt soilMoisture (lit 30) then stressScore + 10
    else if lt soilMoisture (lit 40) then stressScore + 5
    else stressScore in
  (* Low humidity penalty *)
  let stressScore :=
    if lt relativeHumidity (lit 30) then stressScore + 10
    else if lt relativeHumidity (lit 50) then stressScore + 5
    else stressScore in
  Z.min stressScore 100.

Definition computeHeatStressLevel
    (airTemperature soilTemperature soilMoisture relativeHumidity : value)
    : string :=
  let stressScore :=
    stressScore airTemperature soilTemperature soilMoisture relativeHumidity in
  if (70 <=? stressScore)%Z then "critical"
  else if (50 <=? stressScore)%Z then "high"
  else if (30 <=? stressScore)%Z then "moderate"
  else if (15 <=? stressScore)%Z then "low"
  else "minimal".

(** The guard of [POST /api/submit-microclimate] that runs before the
    scorer is called: each value must be truthy and must not be [NaN]. *)
Definition submitMicroclimateAccepts
    (airTemperature soilTemperature soilMoisture relativeHumidity : value)
    : bool :=
  if negb (truthy airTemperature) || negb (truthy soilTemperature)
     || negb (truthy soilMoisture) || negb (truthy relativeHumidity)
  then false
  else if isNaN airTemperature || isNaN soilTemperature
          || isNaN soilMoisture || isNaN relativeHumidity
  then false
  else true.

(** *** The tier table of the specification *)

(** A tier is a threshold with the points it is worth; an input earns the
    points of the most severe tier it reaches, and nothing if it reaches
    none. *)
Definition tierPoints (reached : Q -> bool) (tiers : list (Q * Z)) : Z :=
  fold_right Z.max 0
    (map snd (List.filter (fun t : Q * Z => reached (fst t)) tiers)).

Definition tier (threshold : Q) (points : Z) : Q * Z := (threshold, points).

Definition airTiers : list (Q * Z) :=
  [tier 25 10; tier 30 20; tier 32 35; tier 35 50].
Definition soilTiers : list (Q * Z) :=
  [tier 24 5; tier 26 10; tier 28 15; tier 30 25].
Definition moistureTiers : list (Q * Z) :=
  [tier 40 5; tier 30 10; tier 20 15].
Definition humidityTiers : list (Q * Z) :=
  [tier 50 5; tier 30 10].

Definition above (v : value) (threshold : Q) : bool := gt v (lit threshold).
Definition below (v : value) (threshold : Q) : bool := lt v (lit threshold).

Definition tierSum (a s m r : value) : Z :=
  tierPoints (above a) airTiers + tierPoints (above s) soilTiers
  + tierPoints (below m) moistureTiers + tierPoints (below r) humidityTiers.

Definition clamp0_100 (z : Z) : Z := Z.max 0 (Z.min z 100).

Definition levelOfSum (sum : Z) : string :=
  if (70 <=? sum)%Z then "critical"
  else if (50 <=? sum)%Z then "high"
  else if (30 <=? sum)%Z then "moderate"
  else if (15 <=? sum)%Z then "low"
  else "minimal".

(** The levels the scorer can return. *)
Definition levels : list string :=
  ["critical"; "high"; "moderate"; "low"; "minimal"].

End HeatStress.

(** ** Pest amount classifier ([categorizePestAmount]) *)
Module Classifier.
Import JS.
Local Open Scope string_scope.

(** [order.indexOf(category)]: the first position, or [-1]. *)
Fixpoint indexOf (l : list string) (s : string) : Z :=
  match l with
  | [] => (-1)%Z
  | x :: l' =>
      if String.eqb x s then 0%Z
      else let i := indexOf l' s in if (i <? 0)%Z then (-1)%Z else (i + 1)%Z
  end.

(** [order[idx]]; an index outside the array reads [undefined]. *)
Definition at_index (l : list string) (idx : Z) : string :=
  if (idx <? 0)%Z then "undefined" else nth (Z.to_nat idx) l "undefined".

Definition order : list string :=
  ["very low"; "low"; "moderate"; "high"; "very high"].

(** The literal [0.15]: the double nearest to 3/20, which is
    5404319552844595 / 2^55 and lies a little below 3/20. *)
Definition double_0_15 : Q := 5404319552844595 # 36028797018963968.

Definition categorizePestAmount (estimatedCount darkPixelRatio : value) : string :=
  let count := max (Fin 0) (ToNumber (or estimatedCount (lit 0))) in
  let category :=
    if len count (Fin 2) then "very low"
    else if len count (Fin 5) then "low"
    else if len count (Fin 12) then "moderate"
    else if len count (Fin 25) then "high"
    else "very high" in
  if ge darkPixelRatio (lit double_0_15) then
    let idx := Z.min (indexOf order category + 1) (Z.of_nat (length order) - 1) in
    at_index order idx
  else category.

(** *** The classification rule of the specification *)

(** Negative or missing counts are clamped to 0. *)
Definition clampedCount (estimatedCount : value) : number :=
  match estimatedCount with
  | Undefined | Null | Number NaN => Fin 0
  | Number (Fin q) => if Qle_bool q 0 then Fin 0 else Fin q
  | Number NegInf => Fin 0
  | Number PosInf => PosInf
  end.

(** The bucket of a count: how many of the breakpoints 2, 5, 12, 25 it
    exceeds. *)
Definition breakpoints : list Q := [2; 5; 12; 25]%Q.

Definition bucket (count : number) : nat :=
  length (List.filter (fun b => ltn (Fin b) count) breakpoints).

End Classifier.

(** ** Exceptions

    A call into the store either returns or throws; [try]/[catch] is a case
    distinction on the outcome. *)
Module Exn.

Inductive exn : Type :=
  | StoreError (message : string)
  | TypeError (message : string).

Definition result (A : Type) : Type := exn + A.

Definition ret {A} (a : A) : result A := inr a.
Definition throw {A} (e : exn) : result A := inl e.

Definition bind {A B} (m : result A) (k : A -> result B) : result B :=
  match m with
  | inl e => inl e
  | inr a => k a
  end.

(** [try { body } catch (err) { handler }] *)
Definition try_catch {A} (body : result A) (handler : exn -> A) : A :=
  match body with
  | inl e => handler e
  | inr a => a
  end.

End Exn.

Notation "'let*' x ':=' m 'in' k" := (Exn.bind m (fun x => k))
  (at level 10, x name, m at level 100, k at level 200).

(** ** Individual risk forecaster ([computeForecastForArea]) *)
Module Forecaster.
Import JS Exn.
Local Open Scope string_scope.
Local Open Scope R_scope.

(** A row of [SELECT id, dark_pixel_ratio, estimated_pest_count FROM images]. *)
Record imageRow : Type := {
  id : Z;
  dark_pixel_ratio : value;
  estimated_pest_count : value
}.

(** The one statement the forecaster runs: the images of a user in an area,
    most recent first, at most 20. *)
Record imageStore : Type := {
  recentImages : string -> string -> result (list imageRow)
}.

(** The percentages and the weighted score of the details are the strings
    [toFixed(1)] returns. *)
Inductive details : Type :=
  | NoData (reason : string) (recentImages : nat)
  | Distribution (totalImages : nat) (distributionPercentages : list string)
      (weightedScore : string).

Record forecast : Type := {
  riskScore : R;
  riskLevel : string;
  forecastDetails : details
}.

(** [x.toFixed(1)] for a number below 10^21 in absolute value: with [n]
    the integer for which [n / 10] is nearest to the absolute value of [x],
    the larger one at a tie, the string is the sign, the decimal writing of
    [n / 10] rounded down, a point and the last digit of [n]. *)
Definition tenths (x : R) : Z := Int_part (Rabs x * 10 + / 2).

Definition decimal (n : Z) : string :=
  NilZero.string_of_uint (N.to_uint (Z.to_N n)).

Definition fixed1 (negative : bool) (n : Z) : string :=
  (if negative then "-" else "") ++ decimal (n / 10) ++ "." ++ decimal (n mod 10).

Definition toFixed1 (x : R) : string :=
  fixed1 (if Rlt_dec x 0 then true else false) (tenths x).

Definition computeRiskLevel (score : R) : string :=
  if Rge_dec score 0.8 then "high"
  else if Rge_dec score 0.5 then "medium"
  else "low".

(** [rows.map(row => ...)]: the ordinal level and the clamped count. *)
Definition pestAmount (row : imageRow) : nat * number :=
  let count := max (Fin 0) (ToNumber (or (estimated_pest_count row) (lit 0))) in
  if len count (Fin 2) then (0%nat, count)
  else if len count (Fin 5) then (1%nat, count)
  else if len count (Fin 12) then (2%nat, count)
  else if len count (Fin 25) then (3%nat, count)
  else (4%nat, count).

(** [levelCounts[k] += weight] *)
Definition addAt (k : nat) (weight : R) (levelCounts : list R) : list R :=
  alter (fun c => c + weight) k levelCounts.

(** The body of the [reduce] callback. *)
Definition accumulate (st : list R * R) (pest : nat * number) (index : nat)
    : list R * R :=
  let '(levelCounts, sum) := st in
  let weight := exp (- INR index * 0.2) in
  let level := fst pest in
  let levelCounts :=
    if Nat.eqb level 0 then addAt 0 weight levelCounts
    else if Nat.eqb level 1 then addAt 1 weight levelCounts
    else if Nat.eqb level 2 then addAt 2 weight levelCounts
    else if Nat.eqb level 3 then addAt 3 weight levelCounts
    else if Nat.eqb level 4 then addAt 4 weight levelCounts
    else levelCounts in
  (levelCounts, sum + weight).

(** [pestAmounts.reduce(callback, 0)], the index counting up from [index]. *)
Fixpoint reduceFrom (index : nat) (pestAmounts : list (nat * number))
    (st : list R * R) : list R * R :=
  match pestAmounts with
  | [] => st
  | pest :: rest => reduceFrom (S index) rest (accumulate st pest index)
  end.

(** [for (let i = 0; i < 5; i++) weightedScore += ...] *)
Fixpoint weightedLoop (i : nat) (steps : nat) (levelDistribution : list R)
    (weightedScore : R) : R :=
  match steps with
  | O => weightedScore
  | S steps' =>
      let levelWeight := INR i / 4 in
      weightedLoop (S i) steps' levelDistribution
        (weightedScore + (nth i levelDistribution 0 / 100) * levelWeight)
  end.

Definition forecastRows (rows : list imageRow) : forecast :=
  if Nat.eqb (length rows) 0 then
    let riskScore := 0.1 in
    let riskLevel := computeRiskLevel riskScore in
    {| riskScore := riskScore; riskLevel := riskLevel;
       forecastDetails := NoData "no_data" 0 |}
  else
    let pestAmounts := map pestAmount rows in
    let '(levelCounts, totalWeight) :=
      reduceFrom 0 pestAmounts ([0; 0; 0; 0; 0], 0) in
    let totalImages := length pestAmounts in
    let levelDistribution :=
      map (fun count => (count / totalWeight) * 100) levelCounts in
    let weightedScore := weightedLoop 0 5 levelDistribution 0 in
    let score := weightedScore in
    let lowRiskImages := nth 0 levelDistribution 0 + nth 1 levelDistribution 0 in
    let highRiskImages := nth 3 levelDistribution 0 + nth 4 levelDistribution 0 in
    let score :=
      if Rgt_dec lowRiskImages 60 then score * 0.5
      else if Rgt_dec highRiskImages 40 then score * 1.3
      else score in
    let recentPestLevels :=
      map fst (firstn (Nat.min 5 totalImages) pestAmounts) in
    let recentLowCount :=
      length (List.filter (fun level => Nat.leb level 1) recentPestLevels) in
    let score :=
      if Nat.ltb 0 (length recentPestLevels)
         && (if Rge_dec (INR recentLowCount) (INR (length recentPestLevels) * 0.8)
             then true else false)
      then score * 0.4
      else score in
    let score := Rmax 0 (Rmin 1 score) in
    let riskLevel := computeRiskLevel score in
    {| riskScore := score; riskLevel := riskLevel;
       forecastDetails :=
         Distribution totalImages
           [toFixed1 (nth 0 levelDistribution 0);
            toFixed1 (nth 1 levelDistribution 0);
            toFixed1 (nth 2 levelDistribution 0);
            toFixed1 (nth 3 levelDistribution 0);
            toFixed1 (nth 4 levelDistribution 0)]
           (toFixed1 weightedScore) |}.

Definition computeForecastForArea (username areaId : string) (db : imageStore)
    : result forecast :=
  let* rows := recentImages db username areaId in
  ret (forecastRows rows).

(** *** The quantities the specification names *)

Definition level (row : imageRow) : nat := fst (pestAmount row).

(** The recency weight of the reading at position [i]. *)
Definition weight (i : nat) : R := exp (- 0.2 * INR i).

(** The sum of the weights of the readings, from position [i] on, that
    satisfy [keep]. *)
Fixpoint weightOf (keep : nat -> bool) (i : nat) (levels : list nat) : R :=
  match levels with
  | [] => 0
  | l :: rest => (if keep l then weight i else 0) + weightOf keep (S i) rest
  end.

(** [share l]: the percentage of the total weight held by level [l]. *)
Definition share (rows : list imageRow) (l : nat) : R :=
  100 * weightOf (Nat.eqb l) 0 (map level rows)
  / weightOf (fun _ => true) 0 (map level rows).

(** The pre-correction score: the sum over the levels of share/100 times
    level/4. *)
Definition weightedScoreOf (rows : list imageRow) : R :=
  share rows 0 / 100 * (0 / 4) + share rows 1 / 100 * (1 / 4)
  + share rows 2 / 100 * (2 / 4) + share rows 3 / 100 * (3 / 4)
  + share rows 4 / 100 * (4 / 4).

(** At least 80% of the most recent [min(5, n)] readings are at level 1 or
    below. *)
Definition recentLevels (rows : list imageRow) : list nat :=
  firstn (Nat.min 5 (length rows)) (map level rows).

Definition recentCalm (rows : list imageRow) : Prop :=
  let recent := recentLevels rows in
  (4 * length recent <= 5 * length (List.filter (fun l => Nat.leb l 1) recent))%nat.

(** The condition of the recent-calm override, as the code computes it. *)
Definition calmTest (rows : list imageRow) : bool :=
  let recent := recentLevels rows in
  Nat.ltb 0 (length recent)
  && (if Rge_dec (INR (length (List.filter (fun l => Nat.leb l 1) recent)))
                 (INR (length recent) * 0.8)
      then true else false).

Definition clamp01 (x : R) : R := Rmax 0 (Rmin 1 x).

(** Step 1: majority-low dampening, else majority-high amplification. *)
Definition majorityMultiplier (rows : list imageRow) (m : R) : Prop :=
  let low := share rows 0 + share rows 1 in
  let high := share rows 3 + share rows 4 in
  (low > 60 /\ m = 0.5)
  \/ (low <= 60 /\ high > 40 /\ m = 1.3)
  \/ (low <= 60 /\ high <= 40 /\ m = 1).

(** Step 2: the recent-calm override. *)
Definition calmMultiplier (rows : list imageRow) (m : R) : Prop :=
  (recentCalm rows /\ m = 0.4) \/ (~ recentCalm rows /\ m = 1).

(** The level thresholds on the final score. *)
Definition levelOf (score : R) (riskLevel : string) : Prop :=
  (score >= 0.8 /\ riskLevel = "high")
  \/ (score < 0.8 /\ score >= 0.5 /\ riskLevel = "medium")
  \/ (score < 0.5 /\ riskLevel = "low").

(** A store without images, and one with 20 images of 100 insects each. *)
Definition emptyDb : imageStore := {| recentImages := fun _ _ => ret [] |}.

Definition infestedDb : imageStore :=
  {| recentImages := fun _ _ =>
       ret (map (fun i => {| id := Z.of_nat (20 - i);
                             dark_pixel_ratio := lit 0.3;
                             estimated_pest_count := lit 100 |})
              (seq 0 20)) |}.

End Forecaster.

(** ** Community trend aggregation ([computeCommunityPestTrend],
    [computeCommunityHeatStressTrend])

    The fields that carry display text ([trendDescription],
    [recentActivity], the [toFixed] averages and [totalSubmissions]) are
    computed from the same rows by string formatting that cannot throw;
    they are left out of the records below. *)
Module Community.
Import JS Exn.
Local Open Scope string_scope.

Record pestRow : Type := {
  username : string;
  estimated_pest_count : value;
  created_at : string
}.

Record microclimateRow : Type := {
  m_username : string;
  air_temperature : value;
  relative_humidity : value;
  soil_moisture : value;
  heat_stress_level : option string;
  m_created_at : string
}.

Record userCountRow : Type := { user_count : Z }.

(** The prepared statements the aggregators call; [.all] and [.get] may
    throw, and [.get] yields [undefined] ([None]) when there is no row. *)
Record database : Type := {
  getCommunityPestDataRecent : string -> result (list pestRow);
  getCommunityPestData : string -> result (list pestRow);
  getCommunityUserCount : string -> result (option userCountRow);
  getCommunityMicroclimateDataRecent : string -> result (list microclimateRow);
  getCommunityMicroclimateData : string -> result (list microclimateRow);
  getCommunityUserCountMicroclimate : string -> result (option userCountRow)
}.

Record pestTrend : Type := {
  trend : string;
  riskLevel : string;
  participation : Z;
  confidence : string
}.

Record heatTrend : Type := {
  h_trend : string;
  heatStressLevel : string;
  h_participation : Z;
  h_confidence : string
}.

(** [stmt.get(areaId).user_count]: reading a property of [undefined] throws. *)
Definition get_user_count (r : result (option userCountRow)) : result Z :=
  let* row := r in
  match row with
  | Some row => ret (user_count row)
  | None => throw (TypeError "Cannot read properties of undefined")
  end.

(** [communityData.map(row => ...)] of the pest aggregator. *)
Definition pestOrdinal (row : pestRow) : Z :=
  let count := max (Fin 0) (ToNumber (or (estimated_pest_count row) (lit 0))) in
  if len count (Fin 2) then 0
  else if len count (Fin 5) then 1
  else if len count (Fin 12) then 2
  else if len count (Fin 25) then 3
  else 4.

(** [xs.reduce((sum, x) => sum + x, 0) / xs.length] *)
Definition average (xs : list Z) : Q :=
  inject_Z (fold_left Z.add xs 0%Z) / inject_Z (Z.of_nat (length xs)).

Definition pestTrendBody (areaId : string) (db : database) (filterType : string)
    : result pestTrend :=
  let* communityData :=
    if String.eqb filterType "recent"
    then getCommunityPestDataRecent db areaId
    else getCommunityPestData db areaId in
  if Nat.eqb (length communityData) 0 then
    ret {| trend := "no_data"; riskLevel := "low";
           participation := 0; confidence := "low" |}
  else
    let pestAmounts := map pestOrdinal communityData in
    let avgPestAmount := average pestAmounts in
    let '(trend, riskLevel) :=
      if Qle_bool 3.5 avgPestAmount then ("rising_significantly", "high")
      else if Qle_bool 2.5 avgPestAmount then ("rising_moderately", "moderate")
      else if Qle_bool 1.5 avgPestAmount then ("stable_moderate", "moderate")
      else ("stable_low", "low") in
    let* userCount := get_user_count (getCommunityUserCount db areaId) in
    let confidence := "medium" in
    let confidence :=
      if String.eqb trend "rising_significantly" then "high"
      else if String.eqb trend "rising_moderately" then "medium"
      else if String.eqb trend "stable_moderate" then "medium"
      else if String.eqb trend "stable_low" then "high"
      else confidence in
    ret {| trend := trend; riskLevel := riskLevel;
           participation := userCount; confidence := confidence |}.

Definition computeCommunityPestTrend (areaId : string) (db : database)
    (filterType : string) : pestTrend :=
  try_catch (pestTrendBody areaId db filterType)
    (fun err => {| trend := "error"; riskLevel := "unknown";
                   participation := 0; confidence := "low" |}).

(** [String.prototype.toLowerCase] on ASCII letters. *)
Definition lowerAscii (c : ascii) : ascii :=
  let n := nat_of_ascii c in
  if Nat.leb 65 n && Nat.leb n 90 then ascii_of_nat (n + 32) else c.

Fixpoint toLowerCase (s : string) : string :=
  match s with
  | EmptyString => EmptyString
  | String c s' => String (lowerAscii c) (toLowerCase s')
  end.

(** [stressValues[level] || 0] for the object literal
    [{ minimal: 0, low: 1, moderate: 2, high: 3, critical: 4 }]; keys
    inherited from [Object.prototype] are outside the model. *)
Definition stressValue (level : string) : Z :=
  if String.eqb level "minimal" then 0
  else if String.eqb level "low" then 1
  else if String.eqb level "moderate" then 2
  else if String.eqb level "high" then 3
  else if String.eqb level "critical" then 4
  else 0.

(** [(row.heat_stress_level || 'minimal').toLowerCase()] and the lookup. *)
Definition stressOrdinal (row : microclimateRow) : Z :=
  let level :=
    toLowerCase
      match heat_stress_level row with
      | Some EmptyString | None => "minimal"
      | Some l => l
      end in
  stressValue level.

Definition heatTrendBody (areaId : string) (db : database) (filterType : string)
    : result heatTrend :=
  let* communityData :=
    if String.eqb filterType "recent"
    then getCommunityMicroclimateDataRecent db areaId
    else getCommunityMicroclimateData db areaId in
  if Nat.eqb (length communityData) 0 then
    ret {| h_trend := "no_data"; heatStressLevel := "minimal";
           h_participation := 0; h_confidence := "low" |}
  else
    let stressLevels := map stressOrdinal communityData in
    let avgStressLevel := average stressLevels in
    let '(trend, heatStressLevel) :=
      if Qle_bool 3.5 avgStressLevel then ("critical_conditions", "critical")
      else if Qle_bool 2.5 avgStressLevel then ("elevated_conditions", "high")
      else if Qle_bool 1.5 avgStressLevel then ("moderate_conditions", "moderate")
      else if Qle_bool 0.5 avgStressLevel then ("mild_conditions", "low")
      else ("optimal_conditions", "minimal") in
    let* userCount :=
      get_user_count (getCommunityUserCountMicroclimate db areaId) in
    let confidence := "medium" in
    let confidence :=
      if String.eqb trend "critical_conditions" then "high"
      else if String.eqb trend "elevated_conditions" then "high"
      else if String.eqb trend "moderate_conditions" then "medium"
      else if String.eqb trend "mild_conditions" then "medium"
      else if String.eqb trend "optimal_conditions" then "high"
      else confidence in
    ret {| h_trend := trend; heatStressLevel := heatStressLevel;
           h_participation := userCount; h_confidence := confidence |}.

Definition computeCommunityHeatStressTrend (areaId : string) (db : database)
    (filterType : string) : heatTrend :=
  try_catch (heatTrendBody areaId db filterType)
    (fun err => {| h_trend := "error"; heatStressLevel := "unknown";
                   h_participation := 0; h_confidence := "low" |}).

(** *** The trend table of the specification *)

(** The unweighted mean of the ordinal levels of the readings, the ordinal
    of a reading being the bucket of its clamped count. *)
Definition meanOrdinal (rows : list pestRow) : Q :=
  inject_Z
    (Z.of_nat
       (list_sum
          (map (fun row =>
                  Classifier.bucket
                    (Classifier.clampedCount (estimated_pest_count row)))
               rows)))
  / inject_Z (Z.of_nat (length rows)).

Definition trendOfMean (avgLevel : Q) : string * string :=
  if Qle_bool 3.5 avgLevel then ("rising_significantly", "high")
  else if Qle_bool 2.5 avgLevel then ("rising_moderately", "moderate")
  else if Qle_bool 1.5 avgLevel then ("stable_moderate", "moderate")
  else ("stable_low", "low").

Definition trendLabels : list string :=
  ["rising_significantly"; "rising_moderately"; "stable_moderate"; "stable_low"].

(** A confidence lookup: the entry of [table] at the position of the trend
    label in [trendLabels]. *)
Definition confidenceLookup (table : list string) (trend : string) : string :=
  nth (Z.to_nat (Classifier.indexOf trendLabels trend)) table "medium".

(** The lookup as the specification lists it. *)
Definition statedConfidence : list string := ["high"; "medium"; "high"; "high"].

(** The lookup the [switch] implements. *)
Definition switchConfidence : list string := ["high"; "medium"; "medium"; "high"].

(** The statement that fetches the readings, chosen by [filterType]. *)
Definition pestFetch (db : database) (filterType areaId : string)
    : result (list pestRow) :=
  if String.eqb filterType "recent"
  then getCommunityPestDataRecent db areaId
  else getCommunityPestData db areaId.

Definition heatFetch (db : database) (filterType areaId : string)
    : result (list microclimateRow) :=
  if String.eqb filterType "recent"
  then getCommunityMicroclimateDataRecent db areaId
  else getCommunityMicroclimateData db areaId.

Definition degradedPest : pestTrend :=
  {| trend := "error"; riskLevel := "unknown";
     participation := 0; confidence := "low" |}.

Definition degradedHeat : heatTrend :=
  {| h_trend := "error"; heatStressLevel := "unknown";
     h_participation := 0; h_confidence := "low" |}.

(** A store whose every statement throws. *)
Definition brokenDb : database :=
  let fail {A} (areaId : string) : result A :=
    throw (StoreError "disk I/O error") in
  {| getCommunityPestDataRecent := fail;
     getCommunityPestData := fail;
     getCommunityUserCount := fail;
     getCommunityMicroclimateDataRecent := fail;
     getCommunityMicroclimateData := fail;
     getCommunityUserCountMicroclimate := fail |}.

(** A store with one pest reading of 6 insects and one submitter. *)
Definition sampleDb : database :=
  {| getCommunityPestDataRecent := fun _ =>
       ret [ {| username := "ana"; estimated_pest_count := lit 6;
                created_at := "2025-01-01 10:00:00" |} ];
     getCommunityPestData := fun _ => ret [];
     getCommunityUserCount := fun _ => ret (Some {| user_count := 1 |});
     getCommunityMicroclimateDataRecent := fun _ => ret [];
     getCommunityMicroclimateData := fun _ => ret [];
     getCommunityUserCountMicroclimate := fun _ =>
       ret (Some {| user_count := 0 |}) |}.

End Community.

(** ** Image segmenter ([analyzeStickyTrapImage])

    Decoding, resizing and the grayscale conversion are done by the image
    library; the model starts from the raw buffer [data] of a [w] by [h]
    image.  [Uint8Array]s are lists of numbers read with [!!] and written
    with [<[i:=x]>] (a write outside the array is ignored, as for a typed
    array). *)
Module Segmenter.
Local Open Scope nat_scope.

Definition TARGET_SIZE : nat := 640.
Definition THRESHOLD : nat := 90.
Definition MIN_BLOB_SIZE : nat := 10.

(** [bin[i] === 1] *)
Definition isDark (bin : list nat) (i : nat) : bool :=
  match bin !! i with
  | Some 1 => true
  | _ => false
  end.

(** The truthiness of [visited[i]]. *)
Definition isVisited (visited : list nat) (i : nat) : bool :=
  match visited !! i with
  | Some (S _) => true
  | _ => false
  end.

Definition marked (visited : list nat) (i : nat) : Prop :=
  isVisited visited i = true.

(** The mask loop: [bin[i] = 1; darkCount++] for every dark sample. *)
Fixpoint maskLoop (i : nat) (data : list nat) (st : list nat * nat)
    : list nat * nat :=
  match data with
  | [] => st
  | v :: rest =>
      let '(bin, darkCount) := st in
      maskLoop (S i) rest
        (if v <? THRESHOLD then (<[i:=1]> bin, darkCount + 1) else st)
  end.

Definition buildMask (w h : nat) (data : list nat) : list nat * nat :=
  maskLoop 0 data (replicate (w * h) 0, 0).

(** [if (bin[n] === 1 && !visited[n]) { visited[n] = 1; stack.push(n); }]
    The head of the list is the top of the stack. *)
Definition tryPush (bin : list nat) (st : list nat * list nat) (n : nat)
    : list nat * list nat :=
  let '(visited, stack) := st in
  if isDark bin n && negb (isVisited visited n)
  then (<[n:=1]> visited, n :: stack)
  else st.

(** The [while (stack.length)] loop; [None] when [fuel] iterations were not
    enough to empty the stack. *)
Fixpoint floodFill (fuel : nat) (w h : nat) (bin visited stack : list nat)
    (size : nat) : option (list nat * nat) :=
  match stack with
  | [] => Some (visited, size)
  | cur :: stack =>
      match fuel with
      | O => None
      | S fuel =>
          let size := size + 1 in
          let cx := cur mod w in
          let cy := (cur - cx) / w in
          let st := (visited, stack) in
          (* neighbors: up, down, left, right *)
          let st := if 0 <? cy then tryPush bin st (cur - w) else st in
          let st := if cy <? h - 1 then tryPush bin st (cur + w) else st in
          let st := if 0 <? cx then tryPush bin st (cur - 1) else st in
          let st := if cx <? w - 1 then tryPush bin st (cur + 1) else st in
          floodFill fuel w h bin (fst st) (snd st) size
      end
  end.

(** The pixels the fill looks at from [cur], in the order of the code. *)
Definition nbrs (w h cur : nat) : list nat :=
  let cx := cur mod w in
  let cy := (cur - cx) / w in
  (if 0 <? cy then [cur - w] else [])
  ++ (if cy <? h - 1 then [cur + w] else [])
  ++ (if 0 <? cx then [cur - 1] else [])
  ++ (if cx <? w - 1 then [cur + 1] else []).

(** The body of the two [for] loops at pixel [i]: start a fill at an
    unvisited dark pixel and keep its size if it is large enough. *)
Definition visitPixel (w h : nat) (bin : list nat)
    (st : list nat * list nat) (i : nat) : option (list nat * list nat) :=
  let '(visited, components) := st in
  if isDark bin i && negb (isVisited visited i) then
    match floodFill (w * h) w h bin (<[i:=1]> visited) [i] 0 with
    | Some (visited, size) =>
        Some (visited,
              if MIN_BLOB_SIZE <=? size then components ++ [size]
              else components)
    | None => None
    end
  else Some st.

(** A loop over a list of values with a body that may run out of fuel. *)
Fixpoint forEach {A S : Type} (body : S -> A -> option S) (xs : list A)
    (st : S) : option S :=
  match xs with
  | [] => Some st
  | x :: xs' =>
      match body st x with
      | Some st' => forEach body xs' st'
      | None => None
      end
  end.

Definition idx (w x y : nat) : nat := y * w + x.

(** [for (y = 0; y < h; y++) for (x = 0; x < w; x++) ...]; the result is
    the array [components]. *)
Definition labelComponents (w h : nat) (bin : list nat) : option (list nat) :=
  option_map snd
    (forEach
       (fun st y =>
          forEach (fun st x => visitPixel w h bin st (idx w x y)) (seq 0 w) st)
       (seq 0 h)
       (replicate (w * h) 0, [])).

(** The same labelling with the pixels visited in an arbitrary order. *)
Definition labelInOrder (w h : nat) (bin : list nat) (scanOrder : list nat)
    : option (list nat) :=
  option_map snd
    (forEach (visitPixel w h bin) scanOrder (replicate (w * h) 0, [])).

Record analysis : Type := {
  width : nat;
  height : nat;
  threshold : nat;
  minBlobSize : nat;
  darkPixelRatio : JS.number;
  blobCount : nat;
  blobSizes : list nat
}.

(** [darkCount / (w * h)] *)
Definition ratio (darkCount n : nat) : JS.number :=
  if n =? 0 then (if darkCount =? 0 then JS.NaN else JS.PosInf)
  else JS.Fin (inject_Z (Z.of_nat darkCount) / inject_Z (Z.of_nat n)).

(** The part of [analyzeStickyTrapImage] after the mask has been built.
    The [estimatedPestCount] the function also returns is the [blobCount]
    of the record. *)
Definition segmentMask (w h : nat) (bin : list nat) (darkCount : nat)
    : option analysis :=
  match labelComponents w h bin with
  | Some components =>
      let estimatedPestCount := length components in
      Some {| width := w; height := h;
              threshold := THRESHOLD; minBlobSize := MIN_BLOB_SIZE;
              darkPixelRatio := ratio darkCount (w * h);
              blobCount := estimatedPestCount;
              blobSizes := firstn 50 components |}
  | None => None
  end.

Definition analyzeStickyTrapImage (w h : nat) (data : list nat)
    : option analysis :=
  let '(bin, darkCount) := buildMask w h data in
  segmentMask w h bin darkCount.

(** *** Reference labelling

    Connected components are defined on pixel coordinates, and computed by
    a breadth-first closure that shares nothing with the fill above: no
    visited array, no stack, no scan. *)

Definition col (w i : nat) : nat := i mod w.
Definition row (w i : nat) : nat := i / w.

(** Two pixels of the grid are 4-adjacent when they differ by one step in
    exactly one coordinate. *)
Definition adjacent (w h i j : nat) : bool :=
  (i <? w * h) && (j <? w * h) &&
  (((col w i =? col w j) &&
      ((row w i =? row w j + 1) || (row w j =? row w i + 1)))
   || ((row w i =? row w j) &&
         ((col w i =? col w j + 1) || (col w j =? col w i + 1)))).

Definition dark (bin : list nat) (i : nat) : Prop := isDark bin i = true.

#[export] Instance dark_dec (bin : list nat) (i : nat) : Decision (dark bin i) :=
  decide (isDark bin i = true).

(** One step between two dark pixels. *)
Definition darkStep (w h : nat) (bin : list nat) (i j : nat) : Prop :=
  dark bin i /\ dark bin j /\ adjacent w h i j = true.

(** [j] belongs to the component of the dark pixel [i]. *)
Definition connected (w h : nat) (bin : list nat) (i j : nat) : Prop :=
  dark bin i /\ rtc (darkStep w h bin) i j.

(** *** Invariants

    The state of a fill started at the seed [s] over the marks [V0]: the
    pixels marked since the start are those on the stack and those already
    popped ([done]); all of them belong to the component of [s] and were
    unmarked in [V0]; the neighbours of the pixels in [closed] are marked. *)
Record fillInv (w h : nat) (bin V0 : list nat) (s : nat)
    (closed V stack done : list nat) : Prop := {
  fill_nodup : NoDup (stack ++ done);
  fill_length : length V = w * h;
  fill_marked : forall j, marked V j <-> marked V0 j \/ j ∈ stack ++ done;
  fill_conn : forall j,
    j ∈ stack ++ done -> connected w h bin s j /\ ~ marked V0 j;
  fill_closed : forall p j,
    p ∈ closed -> darkStep w h bin p j -> marked V j
}.

(** The marks are a union of whole components. *)
Definition closedMarks (w h : nat) (bin V : list nat) : Prop :=
  forall i j, marked V i -> darkStep w h bin i j -> marked V j.

(** A set of pixels that no step leaves. *)
Definition closedSet (w h : nat) (bin S : list nat) : Prop :=
  forall m j, m ∈ S -> darkStep w h bin m j -> j ∈ S.

(** One round of the closure: the dark pixels that are in [S] or next to a
    member of [S]. *)
Definition grow (w h : nat) (bin : list nat) (S : list nat) : list nat :=
  filter
    (fun j => dark bin j /\
              (j ∈ S \/ Exists (fun m => adjacent w h m j = true) S))
    (seq 0 (w * h)).

(** The component of pixel [i]: [w * h] rounds from the pixel itself. *)
Definition component (w h : nat) (bin : list nat) (i : nat) : list nat :=
  if isDark bin i then Nat.iter (w * h) (grow w h bin) [i] else [].

(** The number of pixels of the component of [i]. *)
Definition componentSize (w h : nat) (bin : list nat) (i : nat) : nat :=
  length (component w h bin i).

(** [i] is the first pixel, in raster order, of its component. *)
Definition isFirst (w h : nat) (bin : list nat) (i : nat) : Prop :=
  dark bin i /\ Forall (fun j => i <= j) (component w h bin i).

(** The sizes of all components, ordered by their first pixel. *)
Definition referenceSizes (w h : nat) (bin : list nat) : list nat :=
  map (componentSize w h bin) (filter (isFirst w h bin) (seq 0 (w * h))).

(** The sizes of the blobs: the components of at least 10 pixels. *)
Definition referenceBlobs (w h : nat) (bin : list nat) : list nat :=
  filter (fun size => 10 <= size) (referenceSizes w h bin).

(** The state of the scan: the marks are the union of the components of
    the seeds found so far, no two seeds share a component, and
    [components] holds the sizes of the large enough ones, in the order in
    which they were found. *)
Record scanInv (w h : nat) (bin V components seeds : list nat) : Prop := {
  scan_length : length V = w * h;
  scan_closed : closedMarks w h bin V;
  scan_marked : forall j,
    marked V j <-> exists s, s ∈ seeds /\ connected w h bin s j;
  scan_seeds : forall s, s ∈ seeds -> s < w * h /\ dark bin s;
  scan_nodup : NoDup seeds;
  scan_apart : forall s s',
    s ∈ seeds -> s' ∈ seeds -> connected w h bin s s' -> s = s';
  scan_components :
    components
    = List.filter (Nat.leb MIN_BLOB_SIZE) (map (componentSize w h bin) seeds)
}.

(** A mask of four dark rows of 12 pixels, separated by background rows. *)
Definition stripes : list nat :=
  flat_map (fun y => replicate 12 (if Nat.even y then 1 else 0)) (seq 0 7).

End Segmenter.

(** ** Further quantities of the segmenter *)
Module Mask.
Import Segmenter.
Local Open Scope nat_scope.

(** The dark pixels of the grid, in raster order. *)
Definition darkPixels (w h : nat) (bin : list nat) : list nat :=
  filter (dark bin) (seq 0 (w * h)).

(** The samples of the raw buffer that are below the threshold. *)
Definition darkSamples (data : list nat) : list nat :=
  filter (fun v => v < THRESHOLD) data.

End Mask.

(** ** Advice texts ([simpleAdviceForLevel], [heatStressAdviceForLevel])

    The argument of the [switch] is a string, or [undefined] ([None]); any
    value without a [case] takes the [default] branch. *)
Module Advice.
Local Open Scope string_scope.

Definition simpleAdviceForLevel (level : option string) : string :=
  match level with
  | Some level =>
      if String.eqb level "high"
      then "High risk: Inspect traps now and consider treatment."
      else if String.eqb level "medium"
      then "Medium risk: Monitor closely; check traps later today."
      else "Low risk: Routine monitoring is sufficient."
  | None => "Low risk: Routine monitoring is sufficient."
  end.

Definition heatStressAdviceForLevel (level : option string) : string :=
  match level with
  | Some level =>
      if String.eqb level "critical"
      then "Critical heat stress: Immediate action required. Apply emergency cooling and irrigation."
      else if String.eqb level "high"
      then "High heat stress: Increase irrigation frequency and consider shade cover."
      else if String.eqb level "moderate"
      then "Moderate heat stress: Monitor closely and prepare irrigation if conditions worsen."
      else if String.eqb level "low"
      then "Low heat stress: Normal monitoring sufficient, watch for signs of stress."
      else "Minimal heat stress: Optimal conditions for plant growth."
  | None => "Minimal heat stress: Optimal conditions for plant growth."
  end.

(** The stress levels from mildest to most severe, as the forecast
    handlers list them. *)
Definition stressLevels : list string :=
  ["minimal"; "low"; "moderate"; "high"; "critical"].

(** The position of a level in [stressLevels], or [-1]. *)
Definition severity (level : string) : Z := Classifier.indexOf stressLevels level.

End Advice.

(** ** Sample reading histories *)
Module Histories.
Import JS Forecaster.

Definition oneReading : list imageRow :=
  [{| id := 1; dark_pixel_ratio := lit 0.1; estimated_pest_count := lit 7 |}].

(** Four calm readings, most recent first, after five infested ones. *)
Definition calmAfterInfestation : list imageRow :=
  map (fun count => {| id := 0; dark_pixel_ratio := lit 0.1;
                       estimated_pest_count := lit count |})
    [1; 0; 2; 3; 40; 50; 60; 70; 80]%Q.

(** Twenty readings without any insect. *)
Definition cleanTraps : list imageRow :=
  map (fun i => {| id := Z.of_nat i; dark_pixel_ratio := lit 0;
                   estimated_pest_count := lit 0 |})
    (seq 0 20).

End Histories.

(** ** The heat trend table *)
Module HeatTrend.
Import Community.
Local Open Scope string_scope.

(** A level the scorer can have stored. *)
Definition scored (row : microclimateRow) : Prop :=
  exists level, heat_stress_level row = Some level /\ In level HeatStress.levels.

(** The unweighted mean of the severities of the readings. *)
Definition meanSeverity (rows : list microclimateRow) : Q :=
  inject_Z
    (fold_right Z.add 0%Z
       (map (fun row =>
               match heat_stress_level row with
               | Some level => Advice.severity level
               | None => 0%Z
               end)
          rows))
  / inject_Z (Z.of_nat (length rows)).

Definition heatTrendOfMean (avgLevel : Q) : string * string :=
  if Qle_bool 3.5 avgLevel then ("critical_conditions", "critical")
  else if Qle_bool 2.5 avgLevel then ("elevated_conditions", "high")
  else if Qle_bool 1.5 avgLevel then ("moderate_conditions", "moderate")
  else if Qle_bool 0.5 avgLevel then ("mild_conditions", "low")
  else ("optimal_conditions", "minimal").

Definition heatTrendLabels : list string :=
  ["critical_conditions"; "elevated_conditions"; "moderate_conditions";
   "mild_conditions"; "optimal_conditions"].

Definition heatConfidence : list string :=
  ["high"; "high"; "medium"; "medium"; "high"].

Definition heatConfidenceOf (trend : string) : string :=
  nth (Z.to_nat (Classifier.indexOf heatTrendLabels trend)) heatConfidence
    "medium".

(** A store whose recent microclimate window holds [rows]. *)
Definition storeOf (rows : list microclimateRow) (users : Z) : database :=
  {| getCommunityPestDataRecent := fun _ => Exn.ret [];
     getCommunityPestData := fun _ => Exn.ret [];
     getCommunityUserCount := fun _ => Exn.ret (Some {| user_count := 0 |});
     getCommunityMicroclimateDataRecent := fun _ => Exn.ret rows;
     getCommunityMicroclimateData := fun _ => Exn.ret rows;
     getCommunityUserCountMicroclimate := fun _ =>
       Exn.ret (Some {| user_count := users |}) |}.

(** A reading as [POST /api/submit-microclimate] stores it. *)
Definition reading (user : string) (a s m r : Q) : microclimateRow :=
  {| m_username := user;
     air_temperature := JS.lit a;
     relative_humidity := JS.lit r;
     soil_moisture := JS.lit m;
     heat_stress_level :=
       Some (HeatStress.computeHeatStressLevel
               (JS.lit a) (JS.lit s) (JS.lit m) (JS.lit r));
     m_created_at := "2025-06-01 12:00:00" |}.

End HeatTrend.

From Stdlib Require Import Qround.

(** ** Request handlers of the server

    A handler ends by sending a JSON body with a status, or by redirecting.
    The session check that runs before the handlers ([requireAuth]) is
    outside the model: the handlers are the callbacks it calls, and take the
    user name it leaves in the session. *)
Module Routes.
Import JS Exn.
Local Open Scope string_scope.

Inductive response (A : Type) : Type :=
  | Sent (status : nat) (body : A)
  | Failed (status : nat) (error : string) (message : option string)
  | Redirected (location : string).
Arguments Sent {A} status body.
Arguments Failed {A} status error message.
Arguments Redirected {A} location.

(** [err.message] *)
Definition messageOf (err : exn) : string :=
  match err with
  | StoreError message => message
  | TypeError message => message
  end.

(** A query or body parameter that holds text: [undefined] is [None]. *)
Definition truthyText (s : option string) : bool :=
  match s with
  | Some EmptyString | None => false
  | Some _ => true
  end.

(** *** [GET /api/heat-stress-forecast] *)

(** A row of [getRecentMicroclimateForForecast]. *)
Record recentRow : Type := {
  r_air_temperature : value;
  r_relative_humidity : value;
  r_heat_stress_level : string
}.

Record heatDetail : Type := {
  temperature : value;
  humidity : value;
  stressLevel : string
}.

Record heatForecast : Type := {
  hf_areaId : string;
  hf_heatStressLevel : option string;
  hf_advice : string;
  hf_recentSubmissions : nat;
  hf_details : list heatDetail
}.

(** [Math.round]: the nearest integer, a tie going up. *)
Definition Math_round (x : Q) : Z := Qfloor (x + (1 # 2))%Q.

(** [stressLevels[i]], [undefined] outside the array. *)
Definition levelAt (i : Z) : option string :=
  if (i <? 0)%Z then None else nth_error Advice.stressLevels (Z.to_nat i).

(** The overall level of a non-empty window and its advice. *)
Definition overallStress (rows : list recentRow) : option string * string :=
  let stressCounts :=
    map (fun row => Classifier.indexOf Advice.stressLevels (r_heat_stress_level row))
      rows in
  let avgStressIndex := Community.average stressCounts in
  let roundedIndex := Math_round avgStressIndex in
  let overallStressLevel :=
    levelAt (Z.min roundedIndex (Z.of_nat (length Advice.stressLevels) - 1)) in
  (overallStressLevel, Advice.heatStressAdviceForLevel overallStressLevel).

Definition heatStressForecast
    (recentMicroclimate : string -> string -> result (list recentRow))
    (username : string) (queryAreaId : option string)
    : response heatForecast :=
  try_catch
    (if negb (truthyText queryAreaId)
     then ret (Failed 400 "areaId is required" None)
     else
       let areaId := match queryAreaId with Some a => a | None => "" end in
       let* rows := recentMicroclimate username areaId in
       let '(overallStressLevel, advice) :=
         if Nat.ltb 0 (length rows) then overallStress rows
         else (Some "minimal", "No recent data available.") in
       ret (Sent 200
              {| hf_areaId := areaId;
                 hf_heatStressLevel := overallStressLevel;
                 hf_advice := advice;
                 hf_recentSubmissions := length rows;
                 hf_details :=
                   map (fun row =>
                          {| temperature := r_air_temperature row;
                             humidity := r_relative_humidity row;
                             stressLevel := r_heat_stress_level row |})
                     (firstn 5 rows) |}))
    (fun err => Failed 500 "forecast_failed" (Some (messageOf err))).

(** *** [GET /api/pest-forecast] *)

Record pestForecast : Type := {
  pf_areaId : string;
  pf_riskLevel : string;
  pf_riskScore : R;
  pf_advice : string;
  pf_details : Forecaster.details
}.

Definition pestForecastHandler (db : Forecaster.imageStore) (username : string)
    (queryAreaId : option string) : response pestForecast :=
  try_catch
    (let areaId :=
       if truthyText queryAreaId
       then match queryAreaId with Some a => a | None => "" end
       else "greenhouse-1" in
     let* forecast := Forecaster.computeForecastForArea username areaId db in
     let advice :=
       Advice.simpleAdviceForLevel (Some (Forecaster.riskLevel forecast)) in
     ret (Sent 200
            {| pf_areaId := areaId;
               pf_riskLevel := Forecaster.riskLevel forecast;
               pf_riskScore := Forecaster.riskScore forecast;
               pf_advice := advice;
               pf_details := Forecaster.forecastDetails forecast |}))
    (fun err => Failed 500 "forecast_failed" (Some (messageOf err))).

(** *** [GET /api/community-pest-counts], [GET /api/community-heat-counts] *)

(** [s.replace(' ', '_')]: only the first space is replaced. *)
Fixpoint replaceFirstSpace (s : string) : string :=
  match s with
  | EmptyString => EmptyString
  | String c rest =>
      if Ascii.eqb c " "%char then String "_"%char rest
      else String c (replaceFirstSpace rest)
  end.

(** The object [counts]: its keys in insertion order with their numbers. *)
Definition counts : Type := list (string * nat).

(** [levelKeys.forEach(k => counts[k] = 0)] *)
Definition zeroCounts (levelKeys : list string) : counts :=
  map (fun k => (k, 0%nat)) levelKeys.

(** [counts[key]++] for a key the object has. *)
Definition increment (key : string) (c : counts) : counts :=
  map (fun kv => if String.eqb (fst kv) key then (fst kv, S (snd kv)) else kv) c.

(** [levelKeys.includes(x)]; [undefined] is in no list of strings. *)
Definition includes (levelKeys : list string) (x : option string) : bool :=
  match x with
  | Some s => existsb (String.eqb s) levelKeys
  | None => false
  end.

(** [counts[key]] *)
Fixpoint countOf (key : string) (c : counts) : option nat :=
  match c with
  | [] => None
  | (k, n) :: rest => if String.eqb k key then Some n else countOf key rest
  end.

Definition pestLevelKeys : list string :=
  ["very_low"; "low"; "moderate"; "high"; "very_high"].

Definition heatLevelKeys : list string :=
  ["minimal"; "low"; "moderate"; "high"; "critical"].

(** [row.pest_amount?.toLowerCase().replace(' ', '_')] *)
Definition pestKey (pest_amount : option string) : option string :=
  match pest_amount with
  | Some s => Some (replaceFirstSpace (Community.toLowerCase s))
  | None => None
  end.

(** [row.heat_stress_level?.toLowerCase()] *)
Definition heatKey (heat_stress_level : option string) : option string :=
  match heat_stress_level with
  | Some s => Some (Community.toLowerCase s)
  | None => None
  end.

(** The [rows.forEach] loop of the two handlers. *)
Definition countRows (levelKeys : list string)
    (keyOf : option string -> option string) (rows : list (option string))
    : counts :=
  fold_left
    (fun c row =>
       let key := keyOf row in
       if includes levelKeys key
       then match key with Some k => increment k c | None => c end
       else c)
    rows (zeroCounts levelKeys).

Record countsBody : Type := {
  cb_counts : counts;
  cb_type : string;
  cb_totalSubmissions : nat
}.

(** The handler from the point where the rows have been selected: the
    statement depends on the area and the type and may throw. *)
Definition communityCounts (levelKeys : list string)
    (keyOf : option string -> option string)
    (select : result (list (option string))) (type : string)
    : response countsBody :=
  try_catch
    (let* rows := select in
     ret (Sent 200
            {| cb_counts := countRows levelKeys keyOf rows;
               cb_type := type;
               cb_totalSubmissions := length rows |}))
    (fun err => Failed 500 "counts_failed" (Some (messageOf err))).

Definition communityPestCounts := communityCounts pestLevelKeys pestKey.
Definition communityHeatCounts := communityCounts heatLevelKeys heatKey.

(** The sum of the numbers of the object. *)
Definition totalCount (c : counts) : nat := list_sum (map snd c).

(** The rows whose key is [k]. *)
Definition rowsWithKey (keyOf : option string -> option string) (k : string)
    (rows : list (option string)) : list (option string) :=
  List.filter
    (fun row => match keyOf row with
                | Some s => String.eqb s k
                | None => false
                end)
    rows.

(** *** [POST /api/submit-microclimate] *)

(** A row of [getProfile]. *)
Record profileRow : Type := {
  realName : option string;
  farmSize : value;
  country : option string
}.

(** [x || 'Unknown Location'] *)
Definition orUnknownLocation (x : option string) : string :=
  if truthyText x
  then match x with Some c => c | None => "" end
  else "Unknown Location".

(** The area of a user: [profile?.country || 'Unknown Location'], and
    ['Unknown Location'] when the lookup throws. *)
Definition userCountryOf (lookup : result (option profileRow)) : string :=
  try_catch
    (let* profile := lookup in
     ret (orUnknownLocation
            match profile with
            | Some p => country p
            | None => None
            end))
    (fun _ => "Unknown Location").

(** [parseFloat] of a JSON value that is no string: a number is returned
    as it is, [null] and a missing value give [NaN]. *)
Definition parseFloat (v : value) : value :=
  match v with
  | Number n => Number n
  | _ => Number NaN
  end.

(** The arguments of [insertMicroclimate.run]. *)
Record microclimateInsert : Type := {
  i_username : string;
  i_area_id : string;
  i_air_temperature : value;
  i_soil_temperature : value;
  i_soil_moisture : value;
  i_relative_humidity : value;
  i_heat_stress_level : string
}.

Record submitBody : Type := {
  sb_heatStressLevel : string;
  sb_advice : string;
  sb_areaId : string;
  sb_country : string;
  sb_values : list value
}.

(** The handler returns the calls it makes to [insertMicroclimate.run]
    beside its response. *)
Definition submitMicroclimate
    (getProfile : string -> result (option profileRow))
    (insertMicroclimate : microclimateInsert -> result unit)
    (username : string)
    (airTemperature soilTemperature soilMoisture relativeHumidity : value)
    : list microclimateInsert * response submitBody :=
  if negb (truthy airTemperature) || negb (truthy soilTemperature)
     || negb (truthy soilMoisture) || negb (truthy relativeHumidity)
  then ([], Failed 400 "All microclimate values are required" None)
  else if isNaN airTemperature || isNaN soilTemperature
          || isNaN soilMoisture || isNaN relativeHumidity
  then ([], Failed 400 "All values must be numbers" None)
  else
    let userCountry := userCountryOf (getProfile username) in
    let areaId := userCountry in
    let heatStressLevel :=
      HeatStress.computeHeatStressLevel airTemperature soilTemperature
        soilMoisture relativeHumidity in
    let row :=
      {| i_username := username;
         i_area_id := areaId;
         i_air_temperature := parseFloat airTemperature;
         i_soil_temperature := parseFloat soilTemperature;
         i_soil_moisture := parseFloat soilMoisture;
         i_relative_humidity := parseFloat relativeHumidity;
         i_heat_stress_level := heatStressLevel |} in
    ([row],
     try_catch
       (let* _ := insertMicroclimate row in
        let advice := Advice.heatStressAdviceForLevel (Some heatStressLevel) in
        ret (Sent 200
               {| sb_heatStressLevel := heatStressLevel;
                  sb_advice := advice;
                  sb_areaId := areaId;
                  sb_country := userCountry;
                  sb_values :=
                    [parseFloat airTemperature; parseFloat soilTemperature;
                     parseFloat soilMoisture; parseFloat relativeHumidity] |}))
       (fun err => Failed 500 "submission_failed" (Some (messageOf err)))).

(** *** [GET /api/community-pest-trend], [GET /api/community-heat-trend] *)

(** The body of the answer, without its [generatedAt] time stamp. *)
Record trendBody (T : Type) : Type := {
  tb_areaId : string;
  tb_trend : T;
  tb_type : string
}.
Arguments tb_areaId {T} _.
Arguments tb_trend {T} _.
Arguments tb_type {T} _.

(** Both handlers, up to the aggregator they call. *)
Definition communityTrend {T : Type}
    (compute : string -> Community.database -> string -> T)
    (getProfile : string -> result (option profileRow))
    (db : Community.database) (username : string) (queryType : option string)
    : response (trendBody T) :=
  try_catch
    (let* profile := getProfile username in
     match profile with
     | None =>
         ret (Failed 400 "profile_not_found" (Some "User profile not found"))
     | Some profile =>
         let areaId := orUnknownLocation (country profile) in
         let type := match queryType with Some t => t | None => "recent" end in
         let trend := compute areaId db type in
         ret (Sent 200
                {| tb_areaId := areaId; tb_trend := trend; tb_type := type |})
     end)
    (fun err => Failed 500 "trend_failed" (Some (messageOf err))).

Definition communityPestTrend :=
  communityTrend Community.computeCommunityPestTrend.
Definition communityHeatTrend :=
  communityTrend Community.computeCommunityHeatStressTrend.

(** *** [POST /api/upload-pest-trap]: from the pixels to the category *)

(** [categorizePestAmount(estimatedPestCount, darkPixelRatio)] on the
    result of [analyzeStickyTrapImage]. *)
Definition pestAmountCategory (w h : nat) (data : list nat) : option string :=
  match Segmenter.analyzeStickyTrapImage w h data with
  | Some a =>
      Some (Classifier.categorizePestAmount
              (lit (inject_Z (Z.of_nat (Segmenter.blobCount a))))
              (Number (Segmenter.darkPixelRatio a)))
  | None => None
  end.

End Routes.

(** * Properties *)

(** ** Comparisons of JavaScript values *)
Module JSFacts.
Import JS.

Lemma Qltb_lt x y : Qltb x y = true <-> (x < y)%Q.
Proof.
  unfold Qltb. rewrite negb_true_iff, <- not_true_iff_false, Qle_bool_iff.
  split; [apply Qnot_le_lt | apply Qlt_not_le].
Qed.

Lemma Qltb_ge x y : Qltb x y = false <-> (y <= x)%Q.
Proof.
  unfold Qltb. rewrite negb_false_iff. apply Qle_bool_iff.
Qed.

Lemma gt_lit q c : gt (lit q) (lit c) = true <-> (c < q)%Q.
Proof. apply Qltb_lt. Qed.

Lemma lt_lit q c : lt (lit q) (lit c) = true <-> (q < c)%Q.
Proof. apply Qltb_lt. Qed.

Lemma ge_lit q c : ge (lit q) (lit c) = true <-> (c <= q)%Q.
Proof.
  unfold ge, len, lit; simpl. rewrite negb_true_iff. apply Qltb_ge.
Qed.

Lemma ge_lit_false q c : ge (lit q) (lit c) = false <-> (q < c)%Q.
Proof.
  unfold ge, len, lit; simpl. rewrite negb_false_iff. apply Qltb_lt.
Qed.

Lemma missing_gt v w : missing v -> gt v w = false.
Proof. intros [-> | ->]; unfold gt; simpl; destruct (ToNumber w); auto. Qed.

Lemma missing_lt v w : missing v -> lt v w = false.
Proof. intros [-> | ->]; reflexivity. Qed.

Lemma missing_falsy v : missing v -> truthy v = false.
Proof. intros [-> | ->]; reflexivity. Qed.

End JSFacts.

(** ** Heat stress scorer *)
Module HeatStressFacts.
Import JS HeatStress JSFacts.
Local Open Scope Z_scope.

Ltac split_ifs :=
  repeat match goal with
         | |- context [if ?b then _ else _] => destruct b
         end.

Lemma airTiers_chain v :
  tierPoints (above v) airTiers =
  if gt v (lit 35) then 50 else if gt v (lit 32) then 35
  else if gt v (lit 30) then 20 else if gt v (lit 25) then 10 else 0.
Proof.
  unfold tierPoints, airTiers, tier, above; simpl.
  destruct (gt v (lit 25)), (gt v (lit 30)), (gt v (lit 32)), (gt v (lit 35));
    reflexivity.
Qed.

Lemma soilTiers_chain v :
  tierPoints (above v) soilTiers =
  if gt v (lit 30) then 25 else if gt v (lit 28) then 15
  else if gt v (lit 26) then 10 else if gt v (lit 24) then 5 else 0.
Proof.
  unfold tierPoints, soilTiers, tier, above; simpl.
  destruct (gt v (lit 24)), (gt v (lit 26)), (gt v (lit 28)), (gt v (lit 30));
    reflexivity.
Qed.

Lemma moistureTiers_chain v :
  tierPoints (below v) moistureTiers =
  if lt v (lit 20) then 15 else if lt v (lit 30) then 10
  else if lt v (lit 40) then 5 else 0.
Proof.
  unfold tierPoints, moistureTiers, tier, below; simpl.
  destruct (lt v (lit 40)), (lt v (lit 30)), (lt v (lit 20)); reflexivity.
Qed.

Lemma humidityTiers_chain v :
  tierPoints (below v) humidityTiers =
  if lt v (lit 30) then 10 else if lt v (lit 50) then 5 else 0.
Proof.
  unfold tierPoints, humidityTiers, tier, below; simpl.
  destruct (lt v (lit 50)), (lt v (lit 30)); reflexivity.
Qed.

Lemma tierPoints_nonneg reached tiers : 0 <= tierPoints reached tiers.
Proof.
  unfold tierPoints.
  induction (map snd (List.filter _ tiers)) as [|z zs IH]; simpl; lia.
Qed.

(** The code's running sum is the sum of the four table entries. *)
Lemma stressScore_tierSum a s m r :
  stressScore a s m r = Z.min (tierSum a s m r) 100.
Proof.
  unfold tierSum.
  rewrite airTiers_chain, soilTiers_chain, moistureTiers_chain,
    humidityTiers_chain.
  unfold stressScore; cbv zeta.
  destruct (gt a (lit 35)); [|destruct (gt a (lit 32));
    [|destruct (gt a (lit 30)); [|destruct (gt a (lit 25))]]];
  (destruct (gt s (lit 30)); [|destruct (gt s (lit 28));
    [|destruct (gt s (lit 26)); [|destruct (gt s (lit 24))]]]);
  (destruct (lt m (lit 20)); [|destruct (lt m (lit 30));
    [|destruct (lt m (lit 40))]]);
  (destruct (lt r (lit 30)); [|destruct (lt r (lit 50))]);
  reflexivity.
Qed.

Lemma tierSum_nonneg a s m r : 0 <= tierSum a s m r.
Proof.
  unfold tierSum.
  pose proof (tierPoints_nonneg (above a) airTiers).
  pose proof (tierPoints_nonneg (above s) soilTiers).
  pose proof (tierPoints_nonneg (below m) moistureTiers).
  pose proof (tierPoints_nonneg (below r) humidityTiers).
  lia.
Qed.

Lemma stressScore_clamped a s m r :
  stressScore a s m r = clamp0_100 (tierSum a s m r).
Proof.
  rewrite stressScore_tierSum. unfold clamp0_100.
  pose proof (tierSum_nonneg a s m r). lia.
Qed.

Lemma level_of_score a s m r :
  computeHeatStressLevel a s m r = levelOfSum (stressScore a s m r).
Proof. reflexivity. Qed.

Lemma tierPoints_unreached reached tiers :
  (forall c, reached c = false) -> tierPoints reached tiers = 0.
Proof.
  intros H. unfold tierPoints.
  induction tiers as [|t ts IH]; simpl; [reflexivity|].
  rewrite H. exact IH.
Qed.

(** C5: for all four numeric inputs the score is the sum of the entries of
    the tier table (air temperature 10/20/35/50 above 25/30/32/35, soil
    temperature 5/10/15/25 above 24/26/28/30, soil moisture 5/10/15 below
    40/30/20, humidity 5/10 below 50/30) clamped to [0,100], and the level
    is critical from 70, high from 50, moderate from 30, low from 15 and
    minimal below. *)
Theorem scoreHeatStress_tier_table (a s m r : Q) :
  stressScore (lit a) (lit s) (lit m) (lit r)
  = clamp0_100 (tierSum (lit a) (lit s) (lit m) (lit r))
  /\ computeHeatStressLevel (lit a) (lit s) (lit m) (lit r)
     = levelOfSum (clamp0_100 (tierSum (lit a) (lit s) (lit m) (lit r))).
Proof.
  split.
  - apply stressScore_clamped.
  - rewrite level_of_score. f_equal. apply stressScore_clamped.
Qed.

(** C6, as stated: the inputs (36, 31, 15, 20) would score
    50+15+15+10 = 90.  A soil temperature of 31 is above 30 and earns 25
    points, not 15, so the sum is not 90. *)
Lemma scoreHeatStress_example_not_90 :
  ~ (stressScore (lit 36) (lit 31) (lit 15) (lit 20) = 50 + 15 + 15 + 10
     /\ computeHeatStressLevel (lit 36) (lit 31) (lit 15) (lit 20)
        = "critical"%string
     /\ stressScore (lit 20) (lit 20) (lit 50) (lit 60) = 0
     /\ computeHeatStressLevel (lit 20) (lit 20) (lit 50) (lit 60)
        = "minimal"%string).
Proof. intros [H _]. vm_compute in H. discriminate H. Qed.

(** C6, amended: the inputs (36, 31, 15, 20) score 50+25+15+10 = 100 and
    are critical; the inputs (20, 20, 50, 60) score 0 and are minimal. *)
Theorem scoreHeatStress_examples :
  tierPoints (above (lit 36)) airTiers = 50
  /\ tierPoints (above (lit 31)) soilTiers = 25
  /\ tierPoints (below (lit 15)) moistureTiers = 15
  /\ tierPoints (below (lit 20)) humidityTiers = 10
  /\ stressScore (lit 36) (lit 31) (lit 15) (lit 20) = 50 + 25 + 15 + 10
  /\ computeHeatStressLevel (lit 36) (lit 31) (lit 15) (lit 20)
     = "critical"%string
  /\ tierSum (lit 20) (lit 20) (lit 50) (lit 60) = 0
  /\ stressScore (lit 20) (lit 20) (lit 50) (lit 60) = 0
  /\ computeHeatStressLevel (lit 20) (lit 20) (lit 50) (lit 60)
     = "minimal"%string.
Proof. repeat split; vm_compute; reflexivity. Qed.

Lemma level_in_levels a s m r : In (computeHeatStressLevel a s m r) levels.
Proof.
  unfold computeHeatStressLevel, levels; cbv zeta.
  split_ifs; simpl; auto 6.
Qed.

(** C10: the scorer returns a level for every input, numeric or not.  A
    reading that is [undefined] or [NaN] fails every threshold comparison
    and adds no points, so the score is the clamped sum of the other
    readings' points; with all four readings missing the level is minimal.
    Missing readings are turned away by the guard of the HTTP handler only:
    the scorer itself accepts them. *)
Theorem scorer_total_on_missing (a s m r : value) :
  In (computeHeatStressLevel a s m r) levels
  /\ (missing a ->
      (forall c, gt a (lit c) = false)
      /\ tierPoints (above a) airTiers = 0
      /\ stressScore a s m r
         = Z.min (tierPoints (above s) soilTiers
                  + tierPoints (below m) moistureTiers
                  + tierPoints (below r) humidityTiers) 100)
  /\ (missing s ->
      (forall c, gt s (lit c) = false)
      /\ tierPoints (above s) soilTiers = 0
      /\ stressScore a s m r
         = Z.min (tierPoints (above a) airTiers
                  + tierPoints (below m) moistureTiers
                  + tierPoints (below r) humidityTiers) 100)
  /\ (missing m ->
      (forall c, lt m (lit c) = false)
      /\ tierPoints (below m) moistureTiers = 0
      /\ stressScore a s m r
         = Z.min (tierPoints (above a) airTiers
                  + tierPoints (above s) soilTiers
                  + tierPoints (below r) humidityTiers) 100)
  /\ (missing r ->
      (forall c, lt r (lit c) = false)
      /\ tierPoints (below r) humidityTiers = 0
      /\ stressScore a s m r
         = Z.min (tierPoints (above a) airTiers
                  + tierPoints (above s) soilTiers
                  + tierPoints (below m) moistureTiers) 100)
  /\ (missing a -> missing s -> missing m -> missing r ->
      stressScore a s m r = 0
      /\ computeHeatStressLevel a s m r = "minimal"%string)
  /\ (missing a \/ missing s \/ missing m \/ missing r ->
      submitMicroclimateAccepts a s m r = false).
Proof.
  assert (Ha : missing a -> tierPoints (above a) airTiers = 0).
  { intros H. apply tierPoints_unreached. intros c. now apply missing_gt. }
  assert (Hs : missing s -> tierPoints (above s) soilTiers = 0).
  { intros H. apply tierPoints_unreached. intros c. now apply missing_gt. }
  assert (Hm : missing m -> tierPoints (below m) moistureTiers = 0).
  { intros H. apply tierPoints_unreached. intros c. now apply missing_lt. }
  assert (Hr : missing r -> tierPoints (below r) humidityTiers = 0).
  { intros H. apply tierPoints_unreached. intros c. now apply missing_lt. }
  split; [apply level_in_levels|].
  repeat split.
  - intros c. now apply missing_gt.
  - auto.
  - rewrite stressScore_tierSum. unfold tierSum. rewrite Ha by assumption.
    f_equal; lia.
  - intros c. now apply missing_gt.
  - auto.
  - rewrite stressScore_tierSum. unfold tierSum. rewrite Hs by assumption.
    f_equal; lia.
  - intros c. now apply missing_lt.
  - auto.
  - rewrite stressScore_tierSum. unfold tierSum. rewrite Hm by assumption.
    f_equal; lia.
  - intros c. now apply missing_lt.
  - auto.
  - rewrite stressScore_tierSum. unfold tierSum. rewrite Hr by assumption.
    f_equal; lia.
  - rewrite stressScore_tierSum. unfold tierSum.
    rewrite Ha, Hs, Hm, Hr by assumption. reflexivity.
  - rewrite level_of_score, stressScore_tierSum. unfold tierSum.
    rewrite Ha, Hs, Hm, Hr by assumption. reflexivity.
  - intros H. unfold submitMicroclimateAccepts.
    destruct H as [H | [H | [H | H]]]; apply missing_falsy in H; rewrite H;
      simpl; rewrite ?orb_true_r; reflexivity.
Qed.

(** The theorem at four missing readings. *)
Lemma scorer_total_on_missing_witness :
  missing Undefined
  /\ computeHeatStressLevel Undefined (Number NaN) Undefined Undefined
     = "minimal"%string
  /\ submitMicroclimateAccepts Undefined (Number NaN) Undefined Undefined
     = false.
Proof.
  assert (Hu : missing Undefined) by (left; reflexivity).
  assert (Hn : missing (Number NaN)) by (right; reflexivity).
  pose proof (scorer_total_on_missing Undefined (Number NaN) Undefined Undefined)
    as (_ & _ & _ & _ & _ & Hall & Hguard).
  split; [exact Hu|].
  split; [exact (proj2 (Hall Hu Hn Hu Hu)) | exact (Hguard (or_introl Hu))].
Defined.

End HeatStressFacts.

(** ** Pest amount classifier *)
Module ClassifierFacts.
Import JS Classifier JSFacts.

(** [Math.max(0, Number(estimatedCount || 0))] is the clamped count. *)
Lemma count_clamped (estimatedCount : value) :
  max (Fin 0) (ToNumber (or estimatedCount (lit 0))) = clampedCount estimatedCount.
Proof.
  destruct estimatedCount as [| |[|q| |]]; try reflexivity.
  unfold or, truthy, clampedCount.
  destruct (Qeq_bool q 0) eqn:E; simpl.
  - apply Qeq_bool_iff in E.
    assert (Qle_bool q 0 = true) as -> by (apply Qle_bool_iff, Qle_lteq; now right).
    reflexivity.
  - unfold max, ltn.
    destruct (Qltb 0 q) eqn:L.
    + apply Qltb_lt in L.
      destruct (Qle_bool q 0) eqn:L'; [|reflexivity].
      apply Qle_bool_iff in L'. Lqa.lra.
    + apply Qltb_ge in L. apply Qle_bool_iff in L. now rewrite L.
Qed.

(** The [if]/[else if] chain on a count selects the bucket of the count:
    the number of breakpoints the count exceeds. *)
Lemma chain_bucket {A} (count : number) (r0 r1 r2 r3 r4 : A) :
  (if len count (Fin 2) then r0
   else if len count (Fin 5) then r1
   else if len count (Fin 12) then r2
   else if len count (Fin 25) then r3
   else r4)
  = nth (bucket count) [r0; r1; r2; r3] r4
  \/ count = NaN.
Proof.
  destruct count as [|c| |]; [now right | | now left | now left].
  left. unfold bucket, breakpoints, len, ltn; simpl.
  destruct (Qltb 2 c) eqn:H2, (Qltb 5 c) eqn:H5, (Qltb 12 c) eqn:H12,
    (Qltb 25 c) eqn:H25; simpl; try reflexivity;
    rewrite ?Qltb_lt, ?Qltb_ge in *; exfalso; Lqa.lra.
Qed.

Lemma clampedCount_not_NaN v : clampedCount v <> NaN.
Proof.
  destruct v as [| |[|q| |]]; simpl; try discriminate.
  destruct (Qle_bool q 0); discriminate.
Qed.

Lemma bucket_le_4 count : (bucket count <= 4)%nat.
Proof.
  unfold bucket.
  etransitivity; [apply List.filter_length_le|]. reflexivity.
Qed.

Lemma categorize_unescalated estimatedCount darkPixelRatio :
  ge darkPixelRatio (lit double_0_15) = false ->
  categorizePestAmount estimatedCount darkPixelRatio
  = nth (bucket (clampedCount estimatedCount)) order "very high"%string.
Proof.
  intros Hd. unfold categorizePestAmount. cbv zeta. rewrite Hd, count_clamped.
  destruct (chain_bucket (clampedCount estimatedCount)
              "very low" "low" "moderate" "high" "very high")%string
    as [-> | H]; [|now apply clampedCount_not_NaN in H].
  pose proof (bucket_le_4 (clampedCount estimatedCount)) as Hb.
  destruct (bucket (clampedCount estimatedCount)) as [|[|[|[|[|k]]]]];
    try reflexivity; lia.
Qed.

Lemma categorize_escalated estimatedCount darkPixelRatio :
  ge darkPixelRatio (lit double_0_15) = true ->
  categorizePestAmount estimatedCount darkPixelRatio
  = nth (Nat.min (bucket (clampedCount estimatedCount) + 1) 4) order
      "very high"%string.
Proof.
  intros Hd. unfold categorizePestAmount. cbv zeta. rewrite Hd, count_clamped.
  destruct (chain_bucket (clampedCount estimatedCount)
              "very low" "low" "moderate" "high" "very high")%string
    as [-> | H]; [|now apply clampedCount_not_NaN in H].
  pose proof (bucket_le_4 (clampedCount estimatedCount)) as Hb.
  destruct (bucket (clampedCount estimatedCount)) as [|[|[|[|[|k]]]]];
    try reflexivity; lia.
Qed.

(** The double [0.15] lies below 3/20, by a fifth of 2^-55. *)
Lemma double_0_15_below :
  (double_0_15 < 0.15)%Q
  /\ (0.15 - double_0_15 == 1 # (5 * 36028797018963968))%Q.
Proof. split; reflexivity. Qed.

(** For the quotient of two integers, the divisor below 2^53, the test
    against the double [0.15] is the test against 3/20. *)
Lemma double_0_15_quotient (d n : Z) :
  (0 < n < 2 ^ 53)%Z ->
  (double_0_15 <= inject_Z d / inject_Z n)%Q
  <-> (0.15 <= inject_Z d / inject_Z n)%Q.
Proof.
  intros [Hpos Hsmall].
  assert (Hn : (0 < inject_Z n)%Q) by (now rewrite <- (Zlt_Qlt 0)).
  split.
  - intros Hle.
    destruct (Z_le_gt_dec (3 * n) (20 * d)) as [Hge | Hlt].
    + apply Qle_shift_div_l; [assumption|].
      unfold Qle, Qmult, inject_Z. cbn [Qnum Qden]. lia.
    + exfalso. apply (Qle_not_lt _ _ Hle).
      apply Qlt_shift_div_r; [assumption|].
      unfold Qlt, Qmult, inject_Z, double_0_15. cbn [Qnum Qden].
      change (2 ^ 53)%Z with 9007199254740992%Z in Hsmall. lia.
  - intros Hle. eapply Qle_trans; [|exact Hle].
    apply Qlt_le_weak, double_0_15_below.
Qed.

(** C2: the category is the bucket of the clamped count in the order very
    low, low, moderate, high, very high (breakpoints 2, 5, 12, 25), moved up
    by exactly one step, capped at very high, if and only if the dark ratio
    is at least 0.15.  The 0.15 of the comparison is the double the literal
    denotes, 5404319552844595 / 2^55, just below 3/20; for the quotient of
    two pixel counts it selects the same ratios as 3/20.  An infinite ratio
    escalates; a negative infinite, NaN, missing or null ratio does not.
    The four examples of the specification hold. *)
Theorem classify_buckets_and_escalates (estimatedCount : value) (ratio : Q) :
  let step := bucket (clampedCount estimatedCount) in
  let plain := nth step order "very high"%string in
  let escalated := nth (Nat.min (step + 1) 4) order "very high"%string in
  ((double_0_15 <= ratio)%Q ->
   categorizePestAmount estimatedCount (lit ratio) = escalated)
  /\ ((ratio < double_0_15)%Q ->
      categorizePestAmount estimatedCount (lit ratio) = plain)
  /\ categorizePestAmount estimatedCount (Number PosInf) = escalated
  /\ categorizePestAmount estimatedCount (Number NegInf) = plain
  /\ categorizePestAmount estimatedCount (Number NaN) = plain
  /\ categorizePestAmount estimatedCount Undefined = plain
  /\ categorizePestAmount estimatedCount Null = plain
  /\ categorizePestAmount (lit 6) (lit double_0_15) = "high"%string
  /\ (double_0_15 < 0.15)%Q
  /\ (0.15 - double_0_15 == 1 # (5 * 36028797018963968))%Q
  /\ (forall d n : Z,
        (0 < n < 2 ^ 53)%Z ->
        (double_0_15 <= inject_Z d / inject_Z n)%Q
        <-> (0.15 <= inject_Z d / inject_Z n)%Q)
  /\ categorizePestAmount (lit 0) (lit 0.0) = "very low"%string
  /\ categorizePestAmount (lit 3) (lit 0.0) = "low"%string
  /\ categorizePestAmount (lit 6) (lit 0.16) = "high"%string
  /\ categorizePestAmount (lit 100) (lit 0.5) = "very high"%string.
Proof.
  cbv zeta.
  split; [intros H; apply categorize_escalated; now apply ge_lit|].
  split; [intros H; apply categorize_unescalated; now apply ge_lit_false|].
  split; [now apply categorize_escalated|].
  split; [now apply categorize_unescalated|].
  split; [now apply categorize_unescalated|].
  split; [now apply categorize_unescalated|].
  split; [now apply categorize_unescalated|].
  split; [vm_compute; reflexivity|].
  split; [apply double_0_15_below|].
  split; [apply double_0_15_below|].
  split; [exact double_0_15_quotient|].
  repeat split; vm_compute; reflexivity.
Qed.

(** The theorem at a count of 6 and the dark ratio 96/640. *)
Lemma classify_buckets_and_escalates_witness :
  (double_0_15 <= 96 # 640)%Q
  /\ categorizePestAmount (lit 6) (lit (96 # 640))
     = nth (Nat.min (bucket (clampedCount (lit 6)) + 1) 4) order
         "very high"%string.
Proof.
  assert (H : (double_0_15 <= 96 # 640)%Q) by (vm_compute; discriminate).
  split; [exact H|].
  exact (proj1 (classify_buckets_and_escalates (lit 6) (96 # 640)) H).
Defined.

End ClassifierFacts.

(** ** Community trend aggregation *)
Module CommunityFacts.
Import JS Exn Community.
Local Open Scope string_scope.

Lemma pestOrdinal_bucket row :
  pestOrdinal row
  = Z.of_nat (Classifier.bucket
                (Classifier.clampedCount (estimated_pest_count row))).
Proof.
  unfold pestOrdinal. cbv zeta. rewrite ClassifierFacts.count_clamped.
  destruct (ClassifierFacts.chain_bucket
              (Classifier.clampedCount (estimated_pest_count row))
              0%Z 1%Z 2%Z 3%Z 4%Z) as [-> | H];
    [|now apply ClassifierFacts.clampedCount_not_NaN in H].
  pose proof (ClassifierFacts.bucket_le_4
                (Classifier.clampedCount (estimated_pest_count row))) as Hb.
  destruct (Classifier.bucket _) as [|[|[|[|[|k]]]]]; try reflexivity; lia.
Qed.

Lemma fold_left_add_sum {A} (f : A -> nat) (g : A -> Z) xs acc :
  (forall x, g x = Z.of_nat (f x)) ->
  fold_left Z.add (map g xs) acc = (acc + Z.of_nat (list_sum (map f xs)))%Z.
Proof.
  intros Hfg. revert acc.
  induction xs as [|x xs IH]; intros acc; simpl; [lia|].
  rewrite IH, Hfg. lia.
Qed.

Lemma average_meanOrdinal rows :
  average (map pestOrdinal rows) = meanOrdinal rows.
Proof.
  unfold average, meanOrdinal.
  rewrite (fold_left_add_sum
             (fun row => Classifier.bucket
                           (Classifier.clampedCount (estimated_pest_count row)))
             pestOrdinal rows 0 pestOrdinal_bucket).
  now rewrite length_map.
Qed.

Lemma pestTrendBody_nonempty areaId db filterType rows userCount :
  pestFetch db filterType areaId = ret rows ->
  rows <> [] ->
  getCommunityUserCount db areaId = ret (Some {| user_count := userCount |}) ->
  pestTrendBody areaId db filterType
  = ret (let '(trend, riskLevel) := trendOfMean (meanOrdinal rows) in
         {| trend := trend; riskLevel := riskLevel;
            participation := userCount;
            confidence := confidenceLookup switchConfidence trend |}).
Proof.
  intros Hfetch Hne Hcount. unfold pestTrendBody.
  fold (pestFetch db filterType areaId). rewrite Hfetch. simpl.
  destruct rows as [|row rows]; [contradiction|].
  change (length (row :: rows) =? 0)%nat with false. cbv iota.
  rewrite average_meanOrdinal, Hcount. unfold trendOfMean.
  destruct (Qle_bool 3.5 _); [reflexivity|].
  destruct (Qle_bool 2.5 _); [reflexivity|].
  destruct (Qle_bool 1.5 _); reflexivity.
Qed.

(** C7, as stated: the confidence would be the lookup high, medium, high,
    high.  One reading of 6 insects has mean ordinal 2, trend
    [stable_moderate], and confidence medium. *)
Lemma pest_trend_confidence_not_as_stated :
  let t := computeCommunityPestTrend "area" sampleDb "recent" in
  trend t = "stable_moderate"
  /\ confidence t <> confidenceLookup statedConfidence (trend t).
Proof. split; vm_compute; [reflexivity | discriminate]. Qed.

(** C7, amended: for a non-empty dataset (and a participant count that the
    store returns) the trend and the risk level follow the mean ordinal:
    from 3.5 rising_significantly/high, from 2.5 rising_moderately/moderate,
    from 1.5 stable_moderate/moderate, below stable_low/low; the confidence
    is the lookup high, medium, medium, high in that order. *)
Theorem pest_trend_table areaId db filterType rows userCount :
  pestFetch db filterType areaId = ret rows ->
  rows <> [] ->
  getCommunityUserCount db areaId = ret (Some {| user_count := userCount |}) ->
  let t := computeCommunityPestTrend areaId db filterType in
  (trend t, riskLevel t) = trendOfMean (meanOrdinal rows)
  /\ confidence t = confidenceLookup switchConfidence (trend t)
  /\ participation t = userCount.
Proof.
  intros Hfetch Hne Hcount. cbv zeta. unfold computeCommunityPestTrend.
  rewrite (pestTrendBody_nonempty _ _ _ _ _ Hfetch Hne Hcount).
  destruct (trendOfMean (meanOrdinal rows)) as [tr lv]. simpl. auto.
Qed.

(** The theorem at the sample store. *)
Lemma pest_trend_table_witness :
  let t := computeCommunityPestTrend "area" sampleDb "recent" in
  (trend t, riskLevel t) = ("stable_moderate", "moderate")
  /\ confidence t = "medium".
Proof.
  pose proof (pest_trend_table "area" sampleDb "recent" _ 1%Z
                eq_refl ltac:(discriminate) eq_refl) as (H1 & H2 & _).
  split; [exact H1 | exact H2].
Defined.

(** C8: an error raised while a community trend is computed, such as a
    failing fetch or a failing participant count, is not propagated: both
    aggregators return the degraded result with trend error, level unknown
    and confidence low. *)
Theorem community_errors_degrade areaId db filterType :
  (forall e, pestTrendBody areaId db filterType = throw e ->
             computeCommunityPestTrend areaId db filterType = degradedPest)
  /\ (forall e, pestFetch db filterType areaId = throw e ->
                computeCommunityPestTrend areaId db filterType = degradedPest)
  /\ (forall rows e,
        pestFetch db filterType areaId = ret rows -> rows <> [] ->
        getCommunityUserCount db areaId = throw e ->
        computeCommunityPestTrend areaId db filterType = degradedPest)
  /\ (forall e, heatTrendBody areaId db filterType = throw e ->
                computeCommunityHeatStressTrend areaId db filterType
                = degradedHeat)
  /\ (forall e, heatFetch db filterType areaId = throw e ->
                computeCommunityHeatStressTrend areaId db filterType
                = degradedHeat)
  /\ (forall rows e,
        heatFetch db filterType areaId = ret rows -> rows <> [] ->
        getCommunityUserCountMicroclimate db areaId = throw e ->
        computeCommunityHeatStressTrend areaId db filterType = degradedHeat)
  /\ trend degradedPest = "error" /\ riskLevel degradedPest = "unknown"
  /\ confidence degradedPest = "low"
  /\ h_trend degradedHeat = "error" /\ heatStressLevel degradedHeat = "unknown"
  /\ h_confidence degradedHeat = "low".
Proof.
  unfold computeCommunityPestTrend, computeCommunityHeatStressTrend.
  repeat split.
  - intros e ->. reflexivity.
  - intros e H. unfold pestTrendBody. fold (pestFetch db filterType areaId).
    rewrite H. reflexivity.
  - intros rows e H Hne Hc. unfold pestTrendBody.
    fold (pestFetch db filterType areaId). rewrite H. simpl.
    destruct rows as [|row rows]; [contradiction|].
    change (length (row :: rows) =? 0)%nat with false. cbv iota.
    destruct (Qle_bool 3.5 _); [|destruct (Qle_bool 2.5 _);
      [|destruct (Qle_bool 1.5 _)]]; rewrite Hc; reflexivity.
  - intros e ->. reflexivity.
  - intros e H. unfold heatTrendBody. fold (heatFetch db filterType areaId).
    rewrite H. reflexivity.
  - intros rows e H Hne Hc. unfold heatTrendBody.
    fold (heatFetch db filterType areaId). rewrite H. simpl.
    destruct rows as [|row rows]; [contradiction|].
    change (length (row :: rows) =? 0)%nat with false. cbv iota.
    destruct (Qle_bool 3.5 _); [|destruct (Qle_bool 2.5 _);
      [|destruct (Qle_bool 1.5 _); [|destruct (Qle_bool 0.5 _)]]];
      rewrite Hc; reflexivity.
Qed.

(** The theorem at a store whose every statement throws. *)
Lemma community_errors_degrade_witness :
  computeCommunityPestTrend "area" brokenDb "recent" = degradedPest
  /\ computeCommunityHeatStressTrend "area" brokenDb "all" = degradedHeat.
Proof.
  split.
  - exact (proj1 (proj2 (community_errors_degrade "area" brokenDb "recent"))
             (StoreError "disk I/O error") eq_refl).
  - exact (proj1 (proj2 (proj2 (proj2 (proj2
             (community_errors_degrade "area" brokenDb "all")))))
             (StoreError "disk I/O error") eq_refl).
Defined.

(** C9: for an empty dataset both aggregators return the fixed no_data
    result, with level low for pests and minimal for heat, confidence low
    and participation 0. *)
Theorem community_empty_no_data areaId db filterType :
  (pestFetch db filterType areaId = ret [] ->
   computeCommunityPestTrend areaId db filterType
   = {| trend := "no_data"; riskLevel := "low";
        participation := 0; confidence := "low" |})
  /\ (heatFetch db filterType areaId = ret [] ->
      computeCommunityHeatStressTrend areaId db filterType
      = {| h_trend := "no_data"; heatStressLevel := "minimal";
           h_participation := 0; h_confidence := "low" |}).
Proof.
  split; intros H.
  - unfold computeCommunityPestTrend, pestTrendBody.
    fold (pestFetch db filterType areaId). rewrite H. reflexivity.
  - unfold computeCommunityHeatStressTrend, heatTrendBody.
    fold (heatFetch db filterType areaId). rewrite H. reflexivity.
Qed.

(** The theorem at the sample store, which has no reading outside the
    recent window and no microclimate reading. *)
Lemma community_empty_no_data_witness :
  trend (computeCommunityPestTrend "area" sampleDb "all") = "no_data"
  /\ heatStressLevel (computeCommunityHeatStressTrend "area" sampleDb "recent")
     = "minimal".
Proof.
  split.
  - rewrite (proj1 (community_empty_no_data "area" sampleDb "all") eq_refl).
    reflexivity.
  - rewrite (proj2 (community_empty_no_data "area" sampleDb "recent") eq_refl).
    reflexivity.
Defined.

End CommunityFacts.

(** ** Individual risk forecaster *)
Module ForecasterFacts.
Import JS Exn Forecaster.
Local Open Scope R_scope.

Lemma level_lt_5 row : (level row < 5)%nat.
Proof.
  unfold level, pestAmount. cbv zeta.
  repeat match goal with
         | |- context [if ?b then _ else _] => destruct b
         end; simpl; lia.
Qed.

Lemma weight_exp i : exp (- INR i * 0.2) = weight i.
Proof. unfold weight. f_equal. lra. Qed.

Lemma weight_pos i : 0 < weight i.
Proof. apply exp_pos. Qed.

Lemma weightOf_nonneg keep i levels : 0 <= weightOf keep i levels.
Proof.
  revert i. induction levels as [|l levels IH]; intros i; simpl; [lra|].
  pose proof (IH (S i)). pose proof (weight_pos i).
  destruct (keep l); lra.
Qed.

Lemma total_weight_pos i levels :
  levels <> [] -> 0 < weightOf (fun _ => true) i levels.
Proof.
  destruct levels as [|l levels]; [contradiction|]. intros _. simpl.
  pose proof (weightOf_nonneg (fun _ => true) (S i) levels).
  pose proof (weight_pos i). lra.
Qed.

Lemma weightOf_none keep i levels :
  Forall (fun l => keep l = false) levels -> weightOf keep i levels = 0.
Proof.
  intros H. revert i. induction H as [|l levels Hl _ IH]; intros i; simpl;
    [reflexivity|].
  rewrite Hl, IH. lra.
Qed.

Lemma weightOf_all keep i levels :
  Forall (fun l => keep l = true) levels ->
  weightOf keep i levels = weightOf (fun _ => true) i levels.
Proof.
  intros H. revert i. induction H as [|l levels Hl _ IH]; intros i; simpl;
    [reflexivity|].
  rewrite Hl, IH. reflexivity.
Qed.

Ltac list_eq_lra :=
  repeat (apply (f_equal2 cons); [lra|]); try reflexivity.

(** The [reduce] adds to each counter the weight of the readings at its
    level, and returns the total weight. *)
Lemma reduceFrom_weights pestAmounts : forall i c0 c1 c2 c3 c4 sum,
  Forall (fun p : nat * number => (fst p < 5)%nat) pestAmounts ->
  reduceFrom i pestAmounts ([c0; c1; c2; c3; c4], sum)
  = ([c0 + weightOf (Nat.eqb 0) i (map fst pestAmounts);
      c1 + weightOf (Nat.eqb 1) i (map fst pestAmounts);
      c2 + weightOf (Nat.eqb 2) i (map fst pestAmounts);
      c3 + weightOf (Nat.eqb 3) i (map fst pestAmounts);
      c4 + weightOf (Nat.eqb 4) i (map fst pestAmounts)],
     sum + weightOf (fun _ => true) i (map fst pestAmounts)).
Proof.
  induction pestAmounts as [|[l count] rest IH]; intros i c0 c1 c2 c3 c4 sum H.
  - simpl. apply (f_equal2 pair); [list_eq_lra | lra].
  - inversion H as [|? ? Hl Hrest]; subst. simpl in Hl.
    cbn [reduceFrom accumulate fst]. rewrite weight_exp.
    destruct l as [|[|[|[|[|l]]]]]; [| | | | |lia];
      cbn [Nat.eqb addAt alter list_alter]; rewrite (IH _ _ _ _ _ _ _ Hrest);
      cbn [map fst weightOf Nat.eqb];
      (apply (f_equal2 pair); [list_eq_lra | lra]).
Qed.

Lemma levels_lt_5 rows :
  Forall (fun p : nat * number => (fst p < 5)%nat) (map pestAmount rows).
Proof.
  apply List.Forall_forall. intros p Hp. apply List.in_map_iff in Hp.
  destruct Hp as (row & <- & _). apply level_lt_5.
Qed.

Lemma forecastRows_nonempty rows :
  rows <> [] ->
  forecastRows rows =
  let ws := weightedScoreOf rows in
  let score :=
    if Rgt_dec (share rows 0 + share rows 1) 60 then ws * 0.5
    else if Rgt_dec (share rows 3 + share rows 4) 40 then ws * 1.3
    else ws in
  let score := if calmTest rows then score * 0.4 else score in
  {| riskScore := clamp01 score;
     riskLevel := computeRiskLevel (clamp01 score);
     forecastDetails :=
       Distribution (length rows)
         [toFixed1 (share rows 0); toFixed1 (share rows 1);
          toFixed1 (share rows 2); toFixed1 (share rows 3);
          toFixed1 (share rows 4)]
         (toFixed1 ws) |}.
Proof.
  intros Hne. unfold forecastRows.
  destruct rows as [|row0 rows0]; [contradiction|].
  change (Nat.eqb (length (row0 :: rows0)) 0) with false. cbv iota.
  set (rows := row0 :: rows0) in *.
  rewrite (reduceFrom_weights _ 0%nat 0 0 0 0 0 0 (levels_lt_5 rows)).
  cbv zeta iota beta.
  assert (Hlev : map fst (map pestAmount rows) = map level rows).
  { rewrite List.map_map. reflexivity. }
  rewrite Hlev.
  assert (HT : 0 < weightOf (fun _ => true) 0 (map level rows)).
  { apply total_weight_pos. subst rows. discriminate. }
  assert (Hld :
    map (fun count : R =>
           count / (0 + weightOf (fun _ => true) 0 (map level rows)) * 100)
      [0 + weightOf (Nat.eqb 0) 0 (map level rows);
       0 + weightOf (Nat.eqb 1) 0 (map level rows);
       0 + weightOf (Nat.eqb 2) 0 (map level rows);
       0 + weightOf (Nat.eqb 3) 0 (map level rows);
       0 + weightOf (Nat.eqb 4) 0 (map level rows)]
    = [share rows 0; share rows 1; share rows 2; share rows 3; share rows 4]).
  { unfold share. cbn [map].
    repeat (apply (f_equal2 cons); [field; lra|]). reflexivity. }
  rewrite Hld.
  assert (Hws :
    weightedLoop 0 5
      [share rows 0; share rows 1; share rows 2; share rows 3; share rows 4] 0
    = weightedScoreOf rows).
  { unfold weightedScoreOf. cbn [weightedLoop nth INR]. lra. }
  rewrite Hws. cbn [nth].
  rewrite (length_map pestAmount rows).
  assert (Hrec :
    map fst (firstn (Nat.min 5 (length rows)) (map pestAmount rows))
    = recentLevels rows).
  { unfold recentLevels. rewrite <- List.firstn_map, List.map_map. reflexivity. }
  rewrite Hrec. reflexivity.
Qed.

Lemma recentLevels_nonempty rows : rows <> [] -> (0 < length (recentLevels rows))%nat.
Proof.
  intros Hne. unfold recentLevels.
  rewrite List.length_firstn, length_map.
  destruct rows; [contradiction|]. simpl. lia.
Qed.

Lemma calmTest_recentCalm rows :
  rows <> [] -> (calmTest rows = true <-> recentCalm rows).
Proof.
  intros Hne. unfold calmTest, recentCalm. cbv zeta.
  pose proof (recentLevels_nonempty rows Hne) as Hlen.
  set (n := length (recentLevels rows)) in *.
  set (k := length (List.filter _ (recentLevels rows))).
  apply Nat.ltb_lt in Hlen as ->. cbn [andb]. clearbody n k.
  assert (H4 : INR (4 * n) = 4 * INR n) by (rewrite mult_INR; simpl; lra).
  assert (H5 : INR (5 * k) = 5 * INR k) by (rewrite mult_INR; simpl; lra).
  destruct (Rge_dec (INR k) (INR n * 0.8)) as [Hge | Hlt]; split.
  - intros _. apply INR_le. lra.
  - reflexivity.
  - discriminate.
  - intros Hle. apply le_INR in Hle. lra.
Qed.

Lemma clamp01_range x : 0 <= clamp01 x <= 1.
Proof.
  unfold clamp01, Rmax, Rmin.
  destruct (Rle_dec 1 x); destruct (Rle_dec 0 _); lra.
Qed.

Lemma computeRiskLevel_levelOf score : levelOf score (computeRiskLevel score).
Proof.
  unfold levelOf, computeRiskLevel.
  destruct (Rge_dec score 0.8); [left; auto|].
  destruct (Rge_dec score 0.5); [right; left | right; right];
    repeat split; auto; lra.
Qed.

(** The corrections of a non-empty history, in the order of the code. *)
Lemma forecastRows_corrections rows :
  rows <> [] ->
  exists m1 m2,
    majorityMultiplier rows m1
    /\ calmMultiplier rows m2
    /\ riskScore (forecastRows rows)
       = clamp01 (weightedScoreOf rows * m1 * m2)
    /\ levelOf (riskScore (forecastRows rows)) (riskLevel (forecastRows rows))
    /\ forecastDetails (forecastRows rows)
       = Distribution (length rows)
           [toFixed1 (share rows 0); toFixed1 (share rows 1);
            toFixed1 (share rows 2); toFixed1 (share rows 3);
            toFixed1 (share rows 4)]
           (toFixed1 (weightedScoreOf rows)).
Proof.
  intros Hne. rewrite (forecastRows_nonempty rows Hne). cbv zeta.
  cbn [riskScore riskLevel forecastDetails].
  pose proof (calmTest_recentCalm rows Hne) as Hcalm.
  unfold majorityMultiplier, calmMultiplier. cbv zeta.
  destruct (Rgt_dec (share rows 0 + share rows 1) 60) as [Hlow | Hlow];
    [exists 0.5 | destruct (Rgt_dec (share rows 3 + share rows 4) 40)
                    as [Hhigh | Hhigh]; [exists 1.3 | exists 1]];
    (destruct (calmTest rows) eqn:Hc; [exists 0.4 | exists 1]);
    (split; [solve [ left; split; [assumption | reflexivity]
                   | right; left; repeat split; [lra | assumption]
                   | right; right; repeat split; lra ]|]);
    (split; [solve [ left; split; [now apply Hcalm | reflexivity]
                   | right; split; [|reflexivity];
                     intros Hr; apply Hcalm in Hr; discriminate Hr ]|]);
    (split; [f_equal; lra|]);
    (split; [apply computeRiskLevel_levelOf | reflexivity]).
Qed.

Lemma level_of_100 row : estimated_pest_count row = lit 100 -> level row = 4%nat.
Proof. unfold level, pestAmount. intros ->. reflexivity. Qed.

Lemma filter_calm_none levels :
  Forall (fun l => l = 4%nat) levels ->
  List.filter (fun l => Nat.leb l 1) levels = [].
Proof.
  induction 1 as [|l levels -> _ IH]; simpl; [reflexivity | exact IH].
Qed.

(** A history of 20 readings that all count 100 insects. *)
Lemma forecast_all_100 rows :
  length rows = 20%nat ->
  Forall (fun row => estimated_pest_count row = lit 100) rows ->
  share rows 4 = 100
  /\ weightedScoreOf rows = 1
  /\ majorityMultiplier rows 1.3
  /\ calmMultiplier rows 1
  /\ riskScore (forecastRows rows) = 1
  /\ riskLevel (forecastRows rows) = "high"%string.
Proof.
  intros Hlen Hall.
  assert (Hne : rows <> []) by (intros ->; discriminate Hlen).
  assert (H4 : Forall (fun l => l = 4%nat) (map level rows)).
  { apply List.Forall_forall. intros l Hl. apply List.in_map_iff in Hl.
    destruct Hl as (row & <- & Hin). apply level_of_100.
    now apply (proj1 (List.Forall_forall _ _) Hall). }
  assert (HT : 0 < weightOf (fun _ => true) 0 (map level rows)).
  { apply total_weight_pos. destruct rows; [contradiction | discriminate]. }
  assert (Hs4 : share rows 4 = 100).
  { unfold share. rewrite weightOf_all.
    - field. lra.
    - eapply List.Forall_impl; [|exact H4]. intros l ->. reflexivity. }
  assert (Hs : forall l, (l < 4)%nat -> share rows l = 0).
  { intros l Hl. unfold share. rewrite weightOf_none.
    - field. lra.
    - eapply List.Forall_impl; [|exact H4]. intros ? ->.
      apply Nat.eqb_neq. lia. }
  assert (Hws : weightedScoreOf rows = 1).
  { unfold weightedScoreOf. rewrite Hs4, !Hs by lia. lra. }
  assert (Hcalm : ~ recentCalm rows).
  { unfold recentCalm. cbv zeta. rewrite filter_calm_none.
    - pose proof (recentLevels_nonempty rows Hne). simpl. lia.
    - unfold recentLevels. now apply Forall_take. }
  assert (Hm1 : majorityMultiplier rows 1.3).
  { unfold majorityMultiplier. cbv zeta. rewrite Hs4, !Hs by lia.
    right; left. repeat split; lra. }
  assert (Hm2 : calmMultiplier rows 1) by (right; split; auto).
  assert (Hc : calmTest rows = false).
  { destruct (calmTest rows) eqn:E; [|reflexivity].
    now apply (calmTest_recentCalm rows Hne) in E. }
  rewrite (forecastRows_nonempty rows Hne). cbv zeta.
  cbn [riskScore riskLevel]. rewrite Hc, Hws, Hs4, !Hs by lia.
  destruct (Rgt_dec (0 + 0) 60); [lra|].
  destruct (Rgt_dec (0 + 100) 40); [|lra].
  assert (Hclamp : clamp01 (1 * 1.3) = 1).
  { unfold clamp01, Rmin, Rmax.
    destruct (Rle_dec 1 (1 * 1.3)); [|lra]. destruct (Rle_dec 0 1); lra. }
  rewrite Hclamp. repeat split; auto.
  unfold computeRiskLevel. destruct (Rge_dec 1 0.8); [reflexivity | lra].
Qed.

(** C3: for a non-empty history the forecaster multiplies the weighted
    score first by the majority correction (0.5 when share[0]+share[1] > 60,
    else 1.3 when share[3]+share[4] > 40) and then, independently, by the
    recent-calm override (0.4 when at least 80% of the most recent min(5, n)
    readings are at level 1 or below), clamps the product to [0,1] and maps
    it to high from 0.8, medium from 0.5 and low below.  Twenty readings of
    100 insects give a weighted score of 1, the 1.3 amplification, a clamped
    score of 1 and the level high. *)
Theorem forecast_corrections_stack username areaId db rows :
  recentImages db username areaId = ret rows ->
  rows <> [] ->
  exists f,
    computeForecastForArea username areaId db = ret f
    /\ (exists m1 m2,
          majorityMultiplier rows m1
          /\ calmMultiplier rows m2
          /\ riskScore f = clamp01 (weightedScoreOf rows * m1 * m2))
    /\ 0 <= riskScore f <= 1
    /\ levelOf (riskScore f) (riskLevel f)
    /\ (length rows = 20%nat ->
        Forall (fun row => estimated_pest_count row = lit 100) rows ->
        share rows 4 = 100
        /\ weightedScoreOf rows = 1
        /\ majorityMultiplier rows 1.3
        /\ calmMultiplier rows 1
        /\ riskScore f = 1
        /\ riskLevel f = "high"%string).
Proof.
  intros Hfetch Hne. exists (forecastRows rows).
  split; [unfold computeForecastForArea; rewrite Hfetch; reflexivity|].
  destruct (forecastRows_corrections rows Hne)
    as (m1 & m2 & Hm1 & Hm2 & Hscore & Hlevel & _).
  split; [exists m1, m2; auto|].
  split; [rewrite Hscore; apply clamp01_range|].
  split; [exact Hlevel|].
  apply forecast_all_100.
Qed.

(** The theorem at the store with 20 images of 100 insects each. *)
Lemma forecast_corrections_stack_witness :
  exists f,
    computeForecastForArea "farmer" "area" infestedDb = ret f
    /\ riskScore f = 1 /\ riskLevel f = "high"%string.
Proof.
  destruct (forecast_corrections_stack "farmer" "area" infestedDb _
              eq_refl ltac:(discriminate))
    as (f & Hf & _ & _ & _ & Hex).
  exists f. split; [exact Hf|].
  destruct (Hex eq_refl ltac:(repeat constructor)) as (_ & _ & _ & _ & H1 & H2).
  split; assumption.
Defined.

(** C4: for an empty history the forecaster returns the risk score 0.1,
    the level low and the details reason no_data. *)
Theorem forecast_empty_history username areaId db :
  recentImages db username areaId = ret [] ->
  computeForecastForArea username areaId db
  = ret {| riskScore := 0.1; riskLevel := "low";
           forecastDetails := NoData "no_data" 0 |}.
Proof.
  intros Hfetch. unfold computeForecastForArea. rewrite Hfetch.
  unfold bind, forecastRows. cbn [length Nat.eqb]. cbv zeta.
  unfold computeRiskLevel.
  destruct (Rge_dec 0.1 0.8); [lra|].
  destruct (Rge_dec 0.1 0.5); [lra|]. reflexivity.
Qed.

(** The theorem at the store without images. *)
Lemma forecast_empty_history_witness :
  computeForecastForArea "farmer" "area" emptyDb
  = ret {| riskScore := 0.1; riskLevel := "low";
           forecastDetails := NoData "no_data" 0 |}.
Proof. exact (forecast_empty_history "farmer" "area" emptyDb eq_refl). Defined.

End ForecasterFacts.

(** ** Image segmenter *)
Module SegmenterFacts.
Import Segmenter.
Local Open Scope nat_scope.

Section Grid.
Variables (w h : nat) (bin : list nat).


(** *** Coordinates and adjacency *)

Lemma adjacent_spec i j :
  adjacent w h i j = true <->
  i < w * h /\ j < w * h /\
  ((col w i = col w j /\ (row w i = row w j + 1 \/ row w j = row w i + 1))
   \/ (row w i = row w j /\ (col w i = col w j + 1 \/ col w j = col w i + 1))).
Proof.
  unfold adjacent.
  rewrite !andb_true_iff, !orb_true_iff, !andb_true_iff, !orb_true_iff,
    !Nat.eqb_eq, !Nat.ltb_lt.
  tauto.
Qed.

Lemma adjacent_sym i j : adjacent w h i j = true -> adjacent w h j i = true.
Proof. rewrite !adjacent_spec. intuition auto. Qed.

Lemma coords i :
  i < w * h ->
  0 < w /\ i = w * row w i + col w i /\ col w i < w /\ row w i < h.
Proof.
  intros Hi. assert (0 < w) by nia. unfold row, col.
  repeat split; auto.
  - apply Nat.div_mod_eq.
  - apply Nat.mod_upper_bound. lia.
  - apply Nat.Div0.div_lt_upper_bound. lia.
Qed.

Lemma coords_unique x y : x < w -> col w (w * y + x) = x /\ row w (w * y + x) = y.
Proof.
  intros Hx. unfold col, row. split.
  - symmetry. apply (Nat.mod_unique _ _ y); auto.
  - symmetry. apply (Nat.div_unique _ _ _ x); auto.
Qed.

Lemma nbrs_adjacent cur j :
  cur < w * h -> (j ∈ nbrs w h cur <-> adjacent w h cur j = true).
Proof.
  intros Hcur. rewrite adjacent_spec.
  destruct (coords cur Hcur) as (Hw & Hdec & Hx & Hy).
  unfold nbrs. cbv zeta.
  assert (Hcy : (cur - cur mod w) / w = row w cur).
  { unfold row, col in *. symmetry.
    apply (Nat.div_unique _ _ _ 0); lia. }
  rewrite Hcy. fold (col w cur).
  set (x := col w cur) in *. set (y := row w cur) in *.
  rewrite !elem_of_app.
  split.
  - intros Hin.
    assert (Hcase :
      (0 < y /\ j = w * (y - 1) + x) \/ (y < h - 1 /\ j = w * (y + 1) + x)
      \/ (0 < x /\ j = w * y + (x - 1)) \/ (x < w - 1 /\ j = w * y + (x + 1))).
    { destruct Hin as [Hin | [Hin | [Hin | Hin]]];
        [destruct (Nat.ltb_spec 0 y) | destruct (Nat.ltb_spec y (h - 1))
        | destruct (Nat.ltb_spec 0 x) | destruct (Nat.ltb_spec x (w - 1))];
        try (now apply elem_of_nil in Hin);
        apply list_elem_of_singleton in Hin; subst j.
      - left. split; auto. nia.
      - right; left. split; auto. nia.
      - right; right; left. split; auto. nia.
      - right; right; right. split; auto. nia. }
    split; [assumption|].
    destruct Hcase as [[Hg ->] | [[Hg ->] | [[Hg ->] | [Hg ->]]]].
    + destruct (coords_unique x (y - 1) Hx) as [-> ->].
      split; [nia|]. left. split; [reflexivity | left; lia].
    + destruct (coords_unique x (y + 1) Hx) as [-> ->].
      split; [nia|]. left. split; [reflexivity | right; lia].
    + destruct (coords_unique (x - 1) y ltac:(lia)) as [-> ->].
      split; [nia|]. right. split; [reflexivity | left; lia].
    + destruct (coords_unique (x + 1) y ltac:(lia)) as [-> ->].
      split; [nia|]. right. split; [reflexivity | right; lia].
  - intros (_ & Hj & Hadj).
    destruct (coords j Hj) as (_ & Hdecj & Hxj & Hyj).
    set (x' := col w j) in *. set (y' := row w j) in *.
    destruct Hadj as [[Hc [Hr | Hr]] | [Hr [Hc | Hc]]].
    + left. destruct (Nat.ltb_spec 0 y); [|lia].
      apply list_elem_of_singleton. nia.
    + right; left. destruct (Nat.ltb_spec y (h - 1)); [|lia].
      apply list_elem_of_singleton. nia.
    + right; right; left. destruct (Nat.ltb_spec 0 x); [|lia].
      apply list_elem_of_singleton. nia.
    + right; right; right. destruct (Nat.ltb_spec x (w - 1)); [|lia].
      apply list_elem_of_singleton. nia.
Qed.

(** *** Marks *)

Lemma marked_insert (V : list nat) k j :
  k < length V -> (marked (<[k:=1]> V) j <-> j = k \/ marked V j).
Proof.
  intros Hk. unfold marked, isVisited.
  destruct (decide (j = k)) as [-> | Hne].
  - rewrite list_lookup_insert_eq by assumption. tauto.
  - rewrite list_lookup_insert_ne by auto.
    split; [auto | intros [? | ?]; [contradiction | assumption]].
Qed.

Lemma marked_replicate k j : ~ marked (replicate k 0) j.
Proof.
  unfold marked, isVisited. intros H.
  destruct (replicate k 0 !! j) as [[|v]|] eqn:E; try discriminate.
  apply lookup_replicate in E as [E _]. discriminate.
Qed.

(** *** Connectivity *)

Lemma connected_refl s : dark bin s -> connected w h bin s s.
Proof. intros Hs. split; [assumption | apply rtc_refl]. Qed.

Lemma connected_step s i j :
  connected w h bin s i -> darkStep w h bin i j -> connected w h bin s j.
Proof. intros [Hs Hr] Hst. split; [assumption | eapply rtc_r; eauto]. Qed.

Lemma connected_dark s j : connected w h bin s j -> dark bin j.
Proof.
  intros [Hs Hr]. induction Hr as [|i j k Hst _ IH]; [assumption|].
  apply IH. apply Hst.
Qed.

Lemma connected_lt s j : s < w * h -> connected w h bin s j -> j < w * h.
Proof.
  intros Hlt [_ Hr]. induction Hr as [|i j k Hst _ IH]; [assumption|].
  apply IH. destruct Hst as (_ & _ & Hadj). apply adjacent_spec in Hadj. tauto.
Qed.

Lemma darkStep_sym i j : darkStep w h bin i j -> darkStep w h bin j i.
Proof. intros (Hi & Hj & Hadj). repeat split; auto using adjacent_sym. Qed.

Lemma connected_sym i j : connected w h bin i j -> connected w h bin j i.
Proof.
  intros Hc. split; [eapply connected_dark; eauto|].
  destruct Hc as [_ Hr].
  induction Hr as [|i j k Hst _ IH]; [apply rtc_refl|].
  eapply rtc_r; [exact IH | now apply darkStep_sym].
Qed.

Lemma connected_trans i j k :
  connected w h bin i j -> connected w h bin j k -> connected w h bin i k.
Proof. intros [Hi Hij] [_ Hjk]. split; [assumption | eapply rtc_trans; eauto]. Qed.

(** *** One push *)

Lemma tryPush_inv V0 s closed V stack done cur nb :
  fillInv w h bin V0 s closed V stack done ->
  cur ∈ stack ++ done ->
  adjacent w h cur nb = true ->
  exists V' stack',
    tryPush bin (V, stack) nb = (V', stack')
    /\ fillInv w h bin V0 s closed V' stack' done
    /\ (dark bin nb -> marked V' nb)
    /\ (forall j, marked V j -> marked V' j)
    /\ (forall j, j ∈ stack ++ done -> j ∈ stack' ++ done).
Proof.
  intros Hinv Hcur Hadj. pose proof Hinv as [Hnd Hlen Hmk Hconn Hcl].
  unfold tryPush.
  assert (Hnb : nb < length V).
  { rewrite Hlen. apply adjacent_spec in Hadj. tauto. }
  destruct (isDark bin nb) eqn:Hd; cycle 1.
  { exists V, stack. simpl. split; [reflexivity|]. split; [assumption|].
    split; [|auto]. unfold dark. congruence. }
  destruct (isVisited V nb) eqn:Hv.
  { exists V, stack. simpl. split; [reflexivity|]. split; [assumption|].
    split; [|auto]. intros _. exact Hv. }
  exists (<[nb:=1]> V), (nb :: stack). simpl.
  assert (Hfresh : ~ marked V nb) by (unfold marked; congruence).
  split; [reflexivity|]. split; [split|].
  - simpl. constructor; [|assumption].
    intros Hin. apply Hfresh, Hmk. now right.
  - now rewrite length_insert.
  - intros j. rewrite marked_insert by assumption. rewrite Hmk.
    simpl. rewrite elem_of_cons. tauto.
  - intros j. simpl. rewrite elem_of_cons. intros [-> | Hin]; [|auto].
    split.
    + destruct (Hconn cur Hcur) as [Hc _].
      eapply connected_step; [exact Hc|].
      repeat split; auto. eapply connected_dark; eauto.
    + intros H0. apply Hfresh, Hmk. now left.
  - intros p j Hp Hst. apply marked_insert; [assumption|].
    right. eauto.
  - repeat split.
    + intros _. apply marked_insert; auto.
    + intros j Hj. apply marked_insert; auto.
    + intros j Hj. simpl. now apply elem_of_cons; right.
Qed.

Lemma pushes_inv V0 s closed done cur : forall L V stack,
  fillInv w h bin V0 s closed V stack done ->
  cur ∈ stack ++ done ->
  (forall nb, nb ∈ L -> adjacent w h cur nb = true) ->
  exists V' stack',
    fold_left (tryPush bin) L (V, stack) = (V', stack')
    /\ fillInv w h bin V0 s closed V' stack' done
    /\ (forall nb, nb ∈ L -> dark bin nb -> marked V' nb)
    /\ (forall j, marked V j -> marked V' j).
Proof.
  induction L as [|nb L IH]; intros V stack Hinv Hcur HL.
  - exists V, stack. split; [reflexivity|]. split; [assumption|].
    split; [|auto]. intros nb Hnb. now apply elem_of_nil in Hnb.
  - destruct (tryPush_inv _ _ _ _ _ _ _ nb Hinv Hcur)
      as (V1 & st1 & Heq & Hinv1 & Hnb1 & Hmono1 & Hst1).
    { apply HL. now left. }
    destruct (IH V1 st1 Hinv1 (Hst1 _ Hcur)) as (V2 & st2 & Heq2 & Hinv2 & Hnb2 & Hmono2).
    { intros nb' Hnb'. apply HL. now right. }
    exists V2, st2. cbn [fold_left]. rewrite Heq.
    split; [assumption|]. split; [assumption|]. split; [|auto].
    intros nb' Hin Hd. apply elem_of_cons in Hin as [-> | Hin]; auto.
Qed.

(** *** The fill *)

Lemma floodFill_step fuel V cur stack size :
  floodFill (S fuel) w h bin V (cur :: stack) size
  = let st := fold_left (tryPush bin) (nbrs w h cur) (V, stack) in
    floodFill fuel w h bin (fst st) (snd st) (size + 1).
Proof.
  cbn [floodFill]. unfold nbrs. cbv zeta.
  destruct (0 <? (cur - cur mod w) / w), ((cur - cur mod w) / w <? h - 1),
    (0 <? cur mod w), (cur mod w <? w - 1); reflexivity.
Qed.

Lemma nodup_bound (l : list nat) n :
  NoDup l -> (forall x, x ∈ l -> x < n) -> length l <= n.
Proof.
  intros Hnd Hlt. rewrite <- (length_seq n 0).
  apply submseteq_length, NoDup_submseteq; [assumption|].
  intros x Hx. apply elem_of_seq. specialize (Hlt x Hx). lia.
Qed.

Lemma fill_pop V0 s V cur stack done :
  fillInv w h bin V0 s done V (cur :: stack) done ->
  fillInv w h bin V0 s done V stack (cur :: done).
Proof.
  intros [Hnd Hlen Hmk Hconn Hcl].
  assert (Hmem : forall j, j ∈ stack ++ cur :: done <-> j ∈ (cur :: stack) ++ done).
  { intros j. simpl. rewrite !elem_of_app, !elem_of_cons, elem_of_app. tauto. }
  split; auto.
  - rewrite <- Permutation_middle. exact Hnd.
  - intros j. rewrite Hmk, Hmem. tauto.
  - intros j Hj. apply Hconn, Hmem, Hj.
Qed.

Lemma fill_close V0 s V stack cur done :
  cur < w * h ->
  fillInv w h bin V0 s done V stack (cur :: done) ->
  (forall nb, nb ∈ nbrs w h cur -> dark bin nb -> marked V nb) ->
  fillInv w h bin V0 s (cur :: done) V stack (cur :: done).
Proof.
  intros Hcur [Hnd Hlen Hmk Hconn Hcl] Hnb. split; auto.
  intros p j Hp Hst. apply elem_of_cons in Hp as [-> | Hp]; [|eauto].
  destruct Hst as (_ & Hj & Hadj). apply Hnb; [|assumption].
  now apply nbrs_adjacent.
Qed.

Lemma floodFill_spec V0 s :
  s < w * h ->
  forall fuel V stack done,
    fillInv w h bin V0 s done V stack done ->
    w * h <= fuel + length done ->
    exists V' comp,
      floodFill fuel w h bin V stack (length done) = Some (V', length comp)
      /\ fillInv w h bin V0 s comp V' [] comp
      /\ (forall j, marked V j -> marked V' j).
Proof.
  intros Hs. induction fuel as [|fuel IH]; intros V stack done Hinv Hfuel.
  - destruct stack as [|cur stack].
    + exists V, done. simpl. auto.
    + exfalso. destruct Hinv as [Hnd _ _ Hconn _].
      assert (length ((cur :: stack) ++ done) <= w * h).
      { apply nodup_bound; [assumption|]. intros x Hx.
        eapply connected_lt; [exact Hs|]. apply Hconn, Hx. }
      rewrite length_app in *. simpl in *. lia.
  - destruct stack as [|cur stack].
    + exists V, done. simpl. auto.
    + rewrite floodFill_step. cbv zeta.
      assert (Hcur : cur < w * h).
      { eapply connected_lt; [exact Hs|].
        apply (fill_conn _ _ _ _ _ _ _ _ _ Hinv). now left. }
      apply fill_pop in Hinv.
      destruct (pushes_inv V0 s done (cur :: done) cur (nbrs w h cur) V stack Hinv)
        as (V1 & st1 & Heq & Hinv1 & Hnb & Hmono).
      { apply elem_of_app. right. now left. }
      { intros nb Hin. now apply nbrs_adjacent. }
      rewrite Heq. cbn [fst snd].
      apply fill_close in Hinv1; [|assumption|assumption].
      destruct (IH V1 st1 (cur :: done) Hinv1) as (V' & comp & Hrun & Hfin & Hsub).
      { simpl. lia. }
      exists V', comp. replace (length done + 1) with (length (cur :: done))
        by (simpl; lia).
      split; [assumption|]. split; [assumption|]. auto.
Qed.

Lemma floodFill_component V0 s :
  s < w * h -> length V0 = w * h -> dark bin s -> ~ marked V0 s ->
  closedMarks w h bin V0 ->
  exists V' comp,
    floodFill (w * h) w h bin (<[s:=1]> V0) [s] 0 = Some (V', length comp)
    /\ NoDup comp
    /\ (forall j, j ∈ comp <-> connected w h bin s j)
    /\ length V' = w * h
    /\ (forall j, marked V' j <-> marked V0 j \/ connected w h bin s j)
    /\ closedMarks w h bin V'.
Proof.
  intros Hs Hlen Hd Hfresh Hclosed.
  assert (Hinit : fillInv w h bin V0 s [] (<[s:=1]> V0) [s] []).
  { split.
    - simpl. apply NoDup_singleton.
    - now rewrite length_insert.
    - intros j. rewrite marked_insert by lia. simpl.
      rewrite list_elem_of_singleton. tauto.
    - intros j Hj. simpl in Hj. apply list_elem_of_singleton in Hj as ->.
      split; [now apply connected_refl | assumption].
    - intros p j Hp. now apply elem_of_nil in Hp. }
  destruct (floodFill_spec V0 s Hs (w * h) _ _ _ Hinit)
    as (V' & comp & Hrun & Hfin & Hmono); [simpl; lia|].
  exists V', comp. simpl in Hrun.
  destruct Hfin as [Hnd Hlen' Hmk Hconn Hcl]. simpl in *.
  assert (Hseed : s ∈ comp).
  { destruct (proj1 (Hmk s)) as [H0 | Hin]; [|contradiction|assumption].
    apply Hmono, marked_insert; [lia | now left]. }
  assert (Hcomp : forall j, j ∈ comp <-> connected w h bin s j).
  { intros j. split; [apply Hconn|].
    intros [_ Hr]. revert j Hr.
    apply (rtc_ind_r (fun j => j ∈ comp)); [assumption|].
    intros y z _ Hst IH.
    destruct (proj1 (Hmk z) (Hcl _ _ IH Hst)) as [H0 | Hin]; [|assumption].
    exfalso. apply (proj2 (Hconn y IH)).
    apply (Hclosed z y H0). now apply darkStep_sym. }
  split; [assumption|]. split; [assumption|]. split; [assumption|].
  split; [assumption|]. split.
  - intros j. rewrite Hmk, Hcomp. reflexivity.
  - intros i j Hi Hst. apply Hmk in Hi as [H0 | Hin].
    + apply Hmk. left. eapply Hclosed; eauto.
    + eapply Hcl; eauto.
Qed.

(** *** The reference closure *)

Lemma elem_of_grow S j :
  j ∈ grow w h bin S <->
  j < w * h /\ dark bin j /\ (j ∈ S \/ exists m, m ∈ S /\ adjacent w h m j = true).
Proof.
  unfold grow. rewrite list_elem_of_filter, elem_of_seq, Exists_exists.
  split; [intros ((? & ?) & ?) | intros (? & ? & ?)]; repeat split; auto; lia.
Qed.

Lemma NoDup_grow S : NoDup (grow w h bin S).
Proof. apply NoDup_filter, NoDup_seq. Qed.

Lemma closedSet_grow S :
  (forall j, j ∈ S -> dark bin j /\ j < w * h) ->
  closedSet w h bin S -> forall j, j ∈ grow w h bin S <-> j ∈ S.
Proof.
  intros Hin Hcl j. rewrite elem_of_grow. split.
  - intros (Hj & Hd & [HS | (m & Hm & Hadj)]); [assumption|].
    apply (Hcl m); [assumption|]. repeat split; auto. now apply Hin.
  - intros HS. destruct (Hin j HS). auto.
Qed.

(** After [k] rounds the set is closed or has more than [k] members. *)
Lemma rounds_progress s k :
  s < w * h -> dark bin s ->
  let S := Nat.iter k (grow w h bin) [s] in
  s ∈ S
  /\ NoDup S
  /\ (forall j, j ∈ S -> connected w h bin s j)
  /\ (closedSet w h bin S \/ k + 1 <= length S).
Proof.
  intros Hs Hd. induction k as [|k IH]; cbv zeta.
  - simpl. split; [now left|]. split; [apply NoDup_singleton|].
    split; [|right; lia].
    intros j Hj. apply list_elem_of_singleton in Hj as ->.
    now apply connected_refl.
  - rewrite !Nat.iter_succ. cbv zeta in IH.
    set (S := Nat.iter k (grow w h bin) [s]) in *.
    destruct IH as (Hin & Hnd & Hconn & Hprog).
    assert (Hmem : forall j, j ∈ S -> dark bin j /\ j < w * h).
    { intros j Hj. split; [eapply connected_dark | eapply connected_lt]; eauto. }
    assert (Hsub : forall j, j ∈ S -> j ∈ grow w h bin S).
    { intros j Hj. apply elem_of_grow. destruct (Hmem j Hj). auto. }
    split; [auto|]. split; [apply NoDup_grow|]. split.
    { intros j Hj. apply elem_of_grow in Hj as (Hj & Hdj & [HS | (m & Hm & Hadj)]);
        [auto|].
      eapply connected_step; [apply Hconn, Hm|].
      split; [now apply Hmem | split; assumption]. }
    assert (Hfix : closedSet w h bin S -> closedSet w h bin (grow w h bin S)).
    { intros Hcl m j Hm Hst. apply (closedSet_grow S Hmem Hcl).
      apply (closedSet_grow S Hmem Hcl) in Hm. eapply Hcl; eauto. }
    destruct Hprog as [Hcl | Hlen]; [left; auto|].
    assert (Hle : length S <= length (grow w h bin S)).
    { apply submseteq_length, NoDup_submseteq; assumption. }
    destruct (decide (length (grow w h bin S) <= length S)) as [Hsame | Hmore];
      [left | right; lia].
    apply Hfix. intros m j Hm Hst.
    assert (Hperm : S ≡ₚ grow w h bin S).
    { apply submseteq_length_Permutation; [|assumption].
      apply NoDup_submseteq; assumption. }
    rewrite Hperm. apply elem_of_grow.
    destruct Hst as (_ & Hdj & Hadj).
    split; [apply adjacent_spec in Hadj; tauto|]. split; [assumption|].
    right. eauto.
Qed.

Lemma component_spec s :
  s < w * h -> dark bin s ->
  NoDup (component w h bin s)
  /\ forall j, j ∈ component w h bin s <-> connected w h bin s j.
Proof.
  intros Hs Hd. unfold component.
  replace (isDark bin s) with true by (symmetry; exact Hd).
  destruct (rounds_progress s (w * h) Hs Hd) as (Hin & Hnd & Hconn & Hprog).
  set (S := Nat.iter (w * h) (grow w h bin) [s]) in *.
  split; [assumption|].
  assert (Hcl : closedSet w h bin S).
  { destruct Hprog as [Hcl | Hlen]; [assumption|]. exfalso.
    assert (length S <= w * h); [|lia].
    apply nodup_bound; [assumption|].
    intros x Hx. eapply connected_lt; eauto. }
  intros j. split; [apply Hconn|].
  intros [_ Hr]. revert j Hr.
  apply (rtc_ind_r (fun j => j ∈ S)); [assumption|].
  intros y z _ Hst IH. eapply Hcl; eauto.
Qed.

Lemma closedMarks_connected V i j :
  closedMarks w h bin V -> marked V i -> connected w h bin i j -> marked V j.
Proof.
  intros Hcl Hi [_ Hr]. induction Hr as [|i j k Hst _ IH]; [assumption|].
  apply IH. eapply Hcl; eauto.
Qed.

Lemma componentSize_fill s comp :
  s < w * h -> dark bin s -> NoDup comp ->
  (forall j, j ∈ comp <-> connected w h bin s j) ->
  length comp = componentSize w h bin s.
Proof.
  intros Hs Hd Hnd Hcomp. destruct (component_spec s Hs Hd) as [Hnd' Hspec].
  unfold componentSize. apply Permutation_length, NoDup_Permutation; auto.
  intros j. rewrite Hcomp, Hspec. reflexivity.
Qed.

Lemma componentSize_connected s s' :
  s < w * h -> connected w h bin s s' ->
  componentSize w h bin s = componentSize w h bin s'.
Proof.
  intros Hs Hc.
  assert (Hs' : s' < w * h) by (eapply connected_lt; eauto).
  destruct (component_spec s Hs) as [Hnd Hspec]; [apply Hc|].
  destruct (component_spec s' Hs') as [Hnd' Hspec'];
    [eapply connected_dark; eauto|].
  unfold componentSize. apply Permutation_length, NoDup_Permutation; auto.
  intros j. rewrite Hspec, Hspec'. split; intros Hj.
  - eapply connected_trans; [apply connected_sym|]; eauto.
  - eapply connected_trans; eauto.
Qed.

(** *** One pixel of the scan *)

Lemma scanInv_init : scanInv w h bin (replicate (w * h) 0) [] [].
Proof.
  split.
  - apply length_replicate.
  - intros i j Hi. now apply marked_replicate in Hi.
  - intros j. split; [intros Hj; now apply marked_replicate in Hj|].
    intros (s & Hs & _). now apply elem_of_nil in Hs.
  - intros s Hs. now apply elem_of_nil in Hs.
  - apply NoDup_nil_2.
  - intros s s' Hs. now apply elem_of_nil in Hs.
  - reflexivity.
Qed.

Lemma visitPixel_spec V components seeds i :
  scanInv w h bin V components seeds -> i < w * h ->
  exists V' components' seeds',
    visitPixel w h bin (V, components) i = Some (V', components')
    /\ scanInv w h bin V' components' seeds'
    /\ (dark bin i -> marked V' i)
    /\ (forall j, marked V j -> marked V' j)
    /\ ((dark bin i /\ ~ marked V i /\ seeds' = seeds ++ [i])
        \/ (~ (dark bin i /\ ~ marked V i) /\ seeds' = seeds)).
Proof.
  intros Hinv Hi. pose proof Hinv as [Hlen Hcl Hmk Hseeds Hnd Hapart Hcomps].
  unfold visitPixel.
  destruct (isDark bin i) eqn:Hd; cycle 1.
  { exists V, components, seeds. simpl. split; [reflexivity|].
    split; [assumption|]. split; [unfold dark; congruence|]. split; [auto|].
    right. split; [|reflexivity]. unfold dark. intros [? _]. congruence. }
  destruct (isVisited V i) eqn:Hv.
  { exists V, components, seeds. simpl. split; [reflexivity|].
    split; [assumption|]. split; [intros _; exact Hv|]. split; [auto|].
    right. split; [|reflexivity]. unfold marked. intros (_ & ?). congruence. }
  assert (Hfresh : ~ marked V i) by (unfold marked; congruence).
  destruct (floodFill_component V i Hi Hlen Hd Hfresh Hcl)
    as (V' & comp & Hrun & Hndc & Hcomp & Hlen' & Hmk' & Hcl').
  cbn [andb negb]. rewrite Hrun.
  exists V'. eexists. exists (seeds ++ [i]).
  split; [reflexivity|].
  assert (Hnew : forall s, s ∈ seeds -> ~ connected w h bin s i).
  { intros s Hs Hc. apply Hfresh, Hmk. eauto. }
  split; [split|].
  - assumption.
  - assumption.
  - intros j. rewrite Hmk', Hmk. split.
    + intros [(s & Hs & Hc) | Hc].
      * exists s. split; [apply elem_of_app; now left | assumption].
      * exists i. split; [apply elem_of_app; right; now left | assumption].
    + intros (s & Hs & Hc). apply elem_of_app in Hs as [Hs | Hs].
      * left. eauto.
      * apply list_elem_of_singleton in Hs as ->. now right.
  - intros s Hs. apply elem_of_app in Hs as [Hs | Hs]; [auto|].
    apply list_elem_of_singleton in Hs as ->. auto.
  - apply NoDup_app. split; [assumption|]. split; [|apply NoDup_singleton].
    intros s Hs Hs'. apply list_elem_of_singleton in Hs' as ->.
    apply (Hnew i Hs). now apply connected_refl.
  - intros s s' Hs Hs' Hc.
    apply elem_of_app in Hs as [Hs | Hs];
      apply elem_of_app in Hs' as [Hs' | Hs'];
      try (apply list_elem_of_singleton in Hs as ->);
      try (apply list_elem_of_singleton in Hs' as ->); auto.
    + exfalso. now apply (Hnew s Hs).
    + exfalso. apply (Hnew s' Hs'). now apply connected_sym.
  - rewrite map_app, List.filter_app, <- Hcomps. cbn [map List.filter].
    rewrite (componentSize_fill i comp Hi Hd Hndc Hcomp).
    destruct (MIN_BLOB_SIZE <=? componentSize w h bin i); [reflexivity|].
    now rewrite app_nil_r.
  - split; [intros _; apply Hmk'; right; now apply connected_refl|].
    split; [intros j Hj; apply Hmk'; now left|].
    left. auto.
Qed.

(** *** The scan in an arbitrary order *)

Lemma scan_any_order scanOrder : forall V components seeds,
  scanInv w h bin V components seeds ->
  (forall i, i ∈ scanOrder -> i < w * h) ->
  exists V' components' seeds',
    forEach (visitPixel w h bin) scanOrder (V, components)
    = Some (V', components')
    /\ scanInv w h bin V' components' seeds'
    /\ (forall i, i ∈ scanOrder -> dark bin i -> marked V' i)
    /\ (forall j, marked V j -> marked V' j).
Proof.
  induction scanOrder as [|i rest IH]; intros V components seeds Hinv Hlt.
  - exists V, components, seeds. split; [reflexivity|]. split; [assumption|].
    split; [|auto]. intros i Hi. now apply elem_of_nil in Hi.
  - destruct (visitPixel_spec V components seeds i Hinv)
      as (V1 & c1 & s1 & Hrun1 & Hinv1 & Hi1 & Hmono1 & _).
    { apply Hlt. now left. }
    destruct (IH V1 c1 s1 Hinv1) as (V2 & c2 & s2 & Hrun2 & Hinv2 & Hi2 & Hmono2).
    { intros j Hj. apply Hlt. now right. }
    exists V2, c2, s2. cbn [forEach]. rewrite Hrun1.
    split; [assumption|]. split; [assumption|]. split; [|auto].
    intros j Hj Hd. apply elem_of_cons in Hj as [-> | Hj]; auto.
Qed.

(** *** The raster scan *)

Lemma forEach_app {A St} (body : St -> A -> option St) xs ys st :
  forEach body (xs ++ ys) st
  = match forEach body xs st with
    | Some st' => forEach body ys st'
    | None => None
    end.
Proof.
  revert st. induction xs as [|x xs IH]; intros st; simpl; [reflexivity|].
  destruct (body st x); [apply IH | reflexivity].
Qed.

Lemma forEach_map {A B St} (body : St -> B -> option St) (g : A -> B) xs st :
  forEach (fun st x => body st (g x)) xs st = forEach body (map g xs) st.
Proof.
  revert st. induction xs as [|x xs IH]; intros st; simpl; [reflexivity|].
  destruct (body st (g x)); [apply IH | reflexivity].
Qed.

Lemma map_idx_seq y start len :
  map (fun x => idx w x y) (seq start len) = seq (y * w + start) len.
Proof.
  revert start. induction len as [|len IH]; intros start; [reflexivity|].
  cbn [seq map]. rewrite IH. unfold idx. f_equal. f_equal. lia.
Qed.

(** The two nested loops visit the pixels [0], [1], ..., [w * h - 1]. *)
Lemma nested_loops_raster {St} (body : St -> nat -> option St) st rows :
  forEach (fun st y => forEach (fun st x => body st (idx w x y)) (seq 0 w) st)
    (seq 0 rows) st
  = forEach body (seq 0 (w * rows)) st.
Proof.
  induction rows as [|y IH].
  - rewrite Nat.mul_0_r. reflexivity.
  - rewrite seq_S, forEach_app, IH. cbn [forEach Nat.add].
    replace (w * S y) with (w * y + w) by lia.
    rewrite seq_app, forEach_app.
    destruct (forEach body (seq 0 (w * y)) st) as [st'|]; [|reflexivity].
    rewrite forEach_map, map_idx_seq.
    replace (y * w + 0) with (0 + w * y) by lia.
    destruct (forEach body (seq (0 + w * y) w) st'); reflexivity.
Qed.

Lemma isFirst_spec k :
  k < w * h ->
  (isFirst w h bin k <->
   dark bin k /\ forall j, connected w h bin k j -> k <= j).
Proof.
  intros Hk. unfold isFirst. split; intros [Hd Hall]; split; auto.
  - intros j Hj. rewrite Forall_forall in Hall. apply Hall.
    now apply component_spec.
  - apply Forall_forall. intros j Hj. apply Hall.
    now apply component_spec.
Qed.

Lemma scan_raster k :
  k <= w * h ->
  exists V' components',
    forEach (visitPixel w h bin) (seq 0 k) (replicate (w * h) 0, [])
    = Some (V', components')
    /\ scanInv w h bin V' components' (filter (isFirst w h bin) (seq 0 k))
    /\ (forall i, i < k -> dark bin i -> marked V' i).
Proof.
  induction k as [|k IH]; intros Hk.
  - exists (replicate (w * h) 0), []. split; [reflexivity|].
    split; [apply scanInv_init | lia].
  - destruct IH as (V & comps & Hrun & Hinv & Hcov); [lia|].
    destruct (visitPixel_spec V comps _ k Hinv)
      as (V1 & c1 & s1 & Hrun1 & Hinv1 & Hk1 & Hmono1 & Hseeds); [lia|].
    exists V1, c1. rewrite seq_S, forEach_app, Hrun. cbn [forEach Nat.add].
    rewrite Hrun1. split; [reflexivity|].
    split.
    + replace (filter (isFirst w h bin) (seq 0 k ++ [k])) with s1;
        [assumption|].
      rewrite filter_app.
      assert (Hiff : isFirst w h bin k <-> dark bin k /\ ~ marked V k).
      { rewrite isFirst_spec by lia. split; intros [Hd Hmin]; split; auto.
        - intros Hm. apply (scan_marked _ _ _ _ _ _ Hinv) in Hm
            as (s & Hs & Hc).
          apply list_elem_of_filter in Hs as [_ Hs].
          apply elem_of_seq in Hs.
          apply connected_sym, Hmin in Hc. lia.
        - intros j Hj. destruct (Nat.le_gt_cases k j) as [|Hlt]; [assumption|].
          exfalso. apply Hmin.
          apply (closedMarks_connected V j k);
            [apply (scan_closed _ _ _ _ _ _ Hinv) | | now apply connected_sym].
          apply Hcov; [assumption|]. eapply connected_dark; eauto. }
      destruct Hseeds as [(Hd & Hm & ->) | (Hn & ->)].
      * rewrite (filter_cons_True _ k []) by (apply Hiff; auto). reflexivity.
      * rewrite (filter_cons_False _ k []) by (rewrite Hiff; exact Hn).
        rewrite filter_nil. now rewrite app_nil_r.
    + intros i Hi Hd. destruct (decide (i = k)) as [-> | Hne]; [auto|].
      apply Hmono1, Hcov; [lia | assumption].
Qed.

End Grid.

(** *** Counting components through representatives *)

(** Two lists that both hold exactly one representative of every class of
    [R] have the same number of members with a class property [P]. *)
Lemma representatives_count (R : nat -> nat -> Prop) (P : nat -> Prop)
    `{forall x, Decision (P x)} :
  (forall a b, R a b -> R b a) ->
  (forall a b c, R a b -> R b c -> R a c) ->
  (forall a b, R a b -> (P a <-> P b)) ->
  forall A B : list nat,
    NoDup A -> NoDup B ->
    (forall a a', a ∈ A -> a' ∈ A -> R a a' -> a = a') ->
    (forall b b', b ∈ B -> b' ∈ B -> R b b' -> b = b') ->
    (forall a, a ∈ A -> exists b, b ∈ B /\ R a b) ->
    (forall b, b ∈ B -> exists a, a ∈ A /\ R b a) ->
    length (filter P A) = length (filter P B).
Proof.
  intros Hsym Htrans HP. induction A as [|a A IH];
    intros B HndA HndB HapA HapB HAB HBA.
  - destruct B as [|b B]; [reflexivity|].
    destruct (HBA b) as (a & Ha & _); [now left|]. now apply elem_of_nil in Ha.
  - destruct (HAB a) as (b & Hb & Hab); [now left|].
    apply elem_of_Permutation in Hb as [B' HB'].
    rewrite HB'. rewrite HB' in HndB.
    apply NoDup_cons in HndA as [HaA HndA], HndB as [HbB HndB'].
    assert (Hmem : forall x, x ∈ B <-> x = b \/ x ∈ B').
    { intros x. rewrite HB'. apply elem_of_cons. }
    rewrite !filter_cons.
    assert (Hrest : length (filter P A) = length (filter P B')).
    { apply IH; auto.
      - intros x y Hx Hy. apply HapA; now right.
      - intros x y Hx Hy. apply HapB; apply Hmem; now right.
      - intros x Hx. destruct (HAB x) as (y & Hy & Hxy); [now right|].
        apply Hmem in Hy as [-> | Hy]; [|eauto].
        exfalso. apply HaA.
        replace a with x; [assumption|].
        apply HapA; [now right | now left | eauto].
      - intros y Hy. destruct (HBA y) as (x & Hx & Hyx);
          [apply Hmem; now right|].
        apply elem_of_cons in Hx as [-> | Hx]; [|eauto].
        exfalso. apply HbB.
        replace b with y; [assumption|].
        apply HapB; [apply Hmem; now right | apply Hmem; now left | eauto]. }
    destruct (decide (P a)) as [Ha | Ha], (decide (P b)) as [Hb | Hb];
      simpl; try lia; exfalso; [apply Hb | apply Ha]; eapply HP; eauto.
Qed.

Lemma length_filter_sizes (f : nat -> nat) m (l : list nat) :
  length (List.filter (Nat.leb m) (map f l))
  = length (filter (fun s => m <= f s) l).
Proof.
  induction l as [|x l IH]; [reflexivity|].
  cbn [map List.filter]. rewrite filter_cons.
  destruct (Nat.leb_spec m (f x)); destruct (decide (m <= f x)); simpl; lia.
Qed.

Lemma filter_leb_sizes m (l : list nat) :
  List.filter (Nat.leb m) l = filter (fun size => m <= size) l.
Proof.
  induction l as [|x l IH]; [reflexivity|].
  cbn [List.filter]. rewrite filter_cons, IH.
  destruct (Nat.leb_spec m x); destruct (decide (m <= x)); auto; lia.
Qed.

(** *** The labelling *)

Lemma labelComponents_raster w h bin :
  labelComponents w h bin = labelInOrder w h bin (seq 0 (w * h)).
Proof.
  unfold labelComponents, labelInOrder. now rewrite nested_loops_raster.
Qed.

Lemma labelComponents_reference w h bin :
  labelComponents w h bin = Some (referenceBlobs w h bin).
Proof.
  rewrite labelComponents_raster. unfold labelInOrder.
  destruct (scan_raster w h bin (w * h)) as (V & comps & Hrun & Hinv & _);
    [lia|].
  rewrite Hrun. simpl. f_equal.
  rewrite (scan_components _ _ _ _ _ _ Hinv).
  unfold referenceBlobs, referenceSizes. apply filter_leb_sizes.
Qed.

Lemma labelInOrder_count w h bin scanOrder :
  scanOrder ≡ₚ seq 0 (w * h) ->
  exists components,
    labelInOrder w h bin scanOrder = Some components
    /\ length components = length (referenceBlobs w h bin).
Proof.
  intros Hperm. unfold labelInOrder.
  assert (Hrange : forall i, i ∈ scanOrder <-> i < w * h).
  { intros i. rewrite Hperm, elem_of_seq. lia. }
  destruct (scan_any_order w h bin scanOrder _ _ _ (scanInv_init w h bin))
    as (V & comps & seeds & Hrun & Hinv & Hcov & _);
    [intros i; apply Hrange|].
  destruct (scan_raster w h bin (w * h)) as (V0 & comps0 & _ & Hinv0 & Hcov0);
    [lia|].
  rewrite Hrun. exists comps. split; [reflexivity|].
  rewrite (scan_components _ _ _ _ _ _ Hinv).
  unfold referenceBlobs, referenceSizes.
  rewrite <- filter_leb_sizes, !length_filter_sizes.
  set (R := fun a b => a < w * h /\ connected w h bin a b).
  apply (representatives_count R).
  - intros a b [Ha Hab]. split; [eapply connected_lt; eauto|].
    now apply connected_sym.
  - intros a b c [Ha Hab] [_ Hbc]. split; [assumption|].
    eapply connected_trans; eauto.
  - intros a b [Ha Hab]. now rewrite (componentSize_connected w h bin a b).
  - apply (scan_nodup _ _ _ _ _ _ Hinv).
  - apply (scan_nodup _ _ _ _ _ _ Hinv0).
  - intros a a' Ha Ha' [_ Hc]. eapply (scan_apart _ _ _ _ _ _ Hinv); eauto.
  - intros b b' Hb Hb' [_ Hc]. eapply (scan_apart _ _ _ _ _ _ Hinv0); eauto.
  - intros a Ha. destruct (scan_seeds _ _ _ _ _ _ Hinv a Ha) as [Hlt Hd].
    destruct (proj1 (scan_marked _ _ _ _ _ _ Hinv0 a)) as (b & Hb & Hc);
      [now apply Hcov0|].
    exists b. split; [assumption|]. split; [assumption|].
    now apply connected_sym.
  - intros b Hb. destruct (scan_seeds _ _ _ _ _ _ Hinv0 b Hb) as [Hlt Hd].
    destruct (proj1 (scan_marked _ _ _ _ _ _ Hinv b)) as (a & Ha & Hc);
      [apply Hcov; [now apply Hrange | assumption]|].
    exists a. split; [assumption|]. split; [assumption|].
    now apply connected_sym.
Qed.

Lemma segmentMask_returns w h bin darkCount :
  exists a,
    segmentMask w h bin darkCount = Some a
    /\ blobCount a = length (referenceBlobs w h bin).
Proof.
  unfold segmentMask. rewrite labelComponents_reference.
  eexists. split; reflexivity.
Qed.

(** Four stripes of 12 pixels are four blobs; two pixels that touch only
    diagonally are two components, both too small to count. *)
Example stripes_labelled : labelComponents 12 7 stripes = Some [12; 12; 12; 12].
Proof. vm_compute. reflexivity. Qed.

Example diagonal_apart :
  referenceSizes 2 2 [1; 0; 0; 1] = [1; 1]
  /\ labelComponents 2 2 [1; 0; 0; 1] = Some [].
Proof. split; vm_compute; reflexivity. Qed.

(** The whole analysis returns for every raw buffer. *)
Lemma analyzeStickyTrapImage_returns w h data :
  exists a,
    analyzeStickyTrapImage w h data = Some a
    /\ blobCount a = length (referenceBlobs w h (fst (buildMask w h data))).
Proof.
  unfold analyzeStickyTrapImage.
  destruct (buildMask w h data) as [bin darkCount].
  destruct (segmentMask_returns w h bin darkCount) as (a & Ha & Hc).
  exists a. auto.
Qed.

(** C1: for every mask the segmenter returns, and its blobCount is the
    number of 4-connected components of dark pixels with at least 10
    pixels, as the reference closure computes them; scanning the pixels in
    any other order gives the same count; blobSizes is the first 50 of the
    accepted sizes in raster order of the components, while blobCount
    counts all of them. *)
Theorem segmenter_counts_components (w h : nat) (bin : list nat) (darkCount : nat) :
  exists a,
    segmentMask w h bin darkCount = Some a
    /\ blobCount a = length (referenceBlobs w h bin)
    /\ blobSizes a = firstn 50 (referenceBlobs w h bin)
    /\ length (blobSizes a) = Nat.min 50 (blobCount a)
    /\ (forall scanOrder,
          scanOrder ≡ₚ seq 0 (w * h) ->
          exists components,
            labelInOrder w h bin scanOrder = Some components
            /\ length components = blobCount a)
    /\ (forall i j,
          i < w * h -> dark bin i ->
          (j ∈ component w h bin i <-> connected w h bin i j)).
Proof.
  unfold segmentMask. rewrite labelComponents_reference.
  eexists. split; [reflexivity|]. cbn [blobCount blobSizes].
  split; [reflexivity|]. split; [reflexivity|].
  split; [apply length_take|]. split.
  - intros scanOrder Hperm. now apply labelInOrder_count.
  - intros i j Hi Hd. now apply component_spec.
Qed.

(** The theorem at the striped mask, scanned backwards. *)
Lemma segmenter_counts_components_witness :
  rev (seq 0 (12 * 7)) ≡ₚ seq 0 (12 * 7)
  /\ exists components,
       labelInOrder 12 7 stripes (rev (seq 0 (12 * 7))) = Some components
       /\ length components = 4.
Proof.
  assert (Hperm : rev (seq 0 (12 * 7)) ≡ₚ seq 0 (12 * 7)).
  { symmetry. apply Permutation_rev. }
  split; [exact Hperm|].
  destruct (segmenter_counts_components 12 7 stripes 48)
    as (a & Hseg & _ & _ & _ & Horder & _).
  destruct (Horder _ Hperm) as (components & Hrun & Hlen).
  exists components. split; [exact Hrun|].
  rewrite Hlen. vm_compute in Hseg. injection Hseg as <-. reflexivity.
Defined.

End SegmenterFacts.

(** ** The mask and the sizes of the blobs *)
Module MaskFacts.
Import Segmenter Mask SegmenterFacts.
Local Open Scope nat_scope.

Lemma isDark_insert (bin : list nat) i j :
  isDark (<[i:=1]> bin) j = true <->
  isDark bin j = true \/ (j = i /\ i < length bin).
Proof.
  unfold isDark. destruct (decide (j = i)) as [-> | Hne].
  - destruct (decide (i < length bin)) as [Hlt | Hge].
    + rewrite list_lookup_insert_eq by assumption. tauto.
    + rewrite list_insert_ge by lia. split; [tauto|].
      intros [? | [_ ?]]; [assumption | lia].
  - rewrite list_lookup_insert_ne by auto. split; [tauto|].
    intros [? | [? _]]; [assumption | contradiction].
Qed.

(** The mask loop marks the samples below the threshold that fall inside
    the array and counts all samples below the threshold. *)
Lemma maskLoop_spec data : forall i bin darkCount,
  exists bin',
    maskLoop i data (bin, darkCount)
    = (bin', darkCount + length (darkSamples data))
    /\ length bin' = length bin
    /\ forall j,
         isDark bin' j = true <->
         isDark bin j = true
         \/ (i <= j /\ j < length bin
             /\ exists v, data !! (j - i) = Some v /\ v < THRESHOLD).
Proof.
  induction data as [|v rest IH]; intros i bin darkCount.
  - exists bin. cbn [maskLoop]. unfold darkSamples. rewrite filter_nil. simpl.
    split; [f_equal; lia|]. split; [reflexivity|].
    intros j. split; [tauto|]. intros [? | (_ & _ & v & Hv & _)]; [assumption|].
    discriminate Hv.
  - cbn [maskLoop]. unfold darkSamples. rewrite filter_cons.
    destruct (Nat.ltb_spec v THRESHOLD) as [Hv | Hv].
    + destruct (IH (S i) (<[i:=1]> bin) (darkCount + 1))
        as (bin' & Hrun & Hlen & Hdark).
      exists bin'. rewrite Hrun.
      destruct (decide (v < THRESHOLD)) as [_ | ?]; [|lia].
      split; [f_equal; unfold darkSamples; simpl; lia|].
      split; [now rewrite Hlen, length_insert|].
      intros j. rewrite Hdark, isDark_insert, length_insert. split.
      * intros [[? | [-> Hi]] | (Hij & Hj & u & Hu & Hlt)].
        -- now left.
        -- right. split; [lia|]. split; [assumption|].
           exists v. rewrite Nat.sub_diag. auto.
        -- right. split; [lia|]. split; [assumption|].
           exists u. replace (j - i) with (S (j - S i)) by lia. auto.
      * intros [? | (Hij & Hj & u & Hu & Hlt)]; [now left; left|].
        destruct (decide (j = i)) as [-> | Hne]; [left; right; auto|].
        right. split; [lia|]. split; [assumption|].
        exists u. replace (j - i) with (S (j - S i)) in Hu by lia. auto.
    + destruct (IH (S i) bin darkCount) as (bin' & Hrun & Hlen & Hdark).
      exists bin'. rewrite Hrun.
      destruct (decide (v < THRESHOLD)) as [? | _]; [lia|].
      split; [reflexivity|]. split; [assumption|].
      intros j. rewrite Hdark. split.
      * intros [? | (Hij & Hj & u & Hu & Hlt)]; [now left|].
        right. split; [lia|]. split; [assumption|].
        exists u. replace (j - i) with (S (j - S i)) by lia. auto.
      * intros [? | (Hij & Hj & u & Hu & Hlt)]; [now left|].
        destruct (decide (j = i)) as [-> | Hne].
        { rewrite Nat.sub_diag in Hu. injection Hu as <-. lia. }
        right. split; [lia|]. split; [assumption|].
        exists u. replace (j - i) with (S (j - S i)) in Hu by lia. auto.
Qed.

Lemma isDark_replicate k j : isDark (replicate k 0) j = false.
Proof.
  unfold isDark. destruct (replicate k 0 !! j) as [[|[|v]]|] eqn:E; try reflexivity.
  apply lookup_replicate in E as [E _]. discriminate.
Qed.

Lemma buildMask_spec w h data :
  exists bin,
    buildMask w h data = (bin, length (darkSamples data))
    /\ length bin = w * h
    /\ forall j,
         dark bin j <->
         j < w * h /\ exists v, data !! j = Some v /\ v < THRESHOLD.
Proof.
  unfold buildMask.
  destruct (maskLoop_spec data 0 (replicate (w * h) 0) 0)
    as (bin & Hrun & Hlen & Hdark).
  exists bin. rewrite Hrun. rewrite length_replicate in *.
  split; [reflexivity|]. split; [assumption|].
  intros j. unfold dark. rewrite Hdark, isDark_replicate, Nat.sub_0_r.
  split; [intros [? | (_ & ? & ?)]; [discriminate | auto]|].
  intros [? ?]. right. split; [lia | auto].
Qed.

Lemma filter_ext_elem {A} (P Q : A -> Prop)
    `{forall x, Decision (P x)} `{forall x, Decision (Q x)} (l : list A) :
  (forall x, x ∈ l -> (P x <-> Q x)) -> filter P l = filter Q l.
Proof.
  induction l as [|x l IH]; intros Hext; [reflexivity|].
  rewrite !filter_cons.
  rewrite IH by (intros y Hy; apply Hext; now right).
  destruct (decide (P x)) as [HP | HP], (decide (Q x)) as [HQ | HQ];
    try reflexivity; exfalso; [apply HQ | apply HP]; apply (Hext x); auto;
    now left.
Qed.

(** Filtering the positions of a list by the value they hold keeps as many
    positions as filtering the list keeps values. *)
Lemma length_filter_positions (P : nat -> Prop) `{forall v, Decision (P v)}
    (data : list nat) :
  forall (Q : nat -> Prop) `{forall j, Decision (Q j)},
    (forall j, Q j <-> exists v, data !! j = Some v /\ P v) ->
    length (filter Q (seq 0 (length data))) = length (filter P data).
Proof.
  induction data as [|x l IH] using rev_ind; intros Q HdQ HQ; [reflexivity|].
  rewrite length_app. cbn [length]. rewrite seq_app, !filter_app, !length_app.
  cbn [seq Nat.add].
  set (Q' := fun j => exists v, l !! j = Some v /\ P v) in *.
  assert (HdQ' : forall j, Decision (Q' j)).
  { intros j. unfold Q'. destruct (l !! j) as [v|].
    - destruct (decide (P v)); [left; eauto | right].
      intros (u & [= <-] & ?). contradiction.
    - right. intros (u & [=] & _). }
  rewrite (filter_ext_elem Q Q').
  - rewrite (IH Q' HdQ') by reflexivity. f_equal.
    rewrite !filter_cons, !filter_nil.
    assert (Hx : Q (length l) <-> P x).
    { rewrite HQ. rewrite lookup_app_r, Nat.sub_diag by lia. simpl.
      split; [intros (v & [= <-] & ?); assumption | eauto]. }
    destruct (decide (Q (length l))), (decide (P x)); auto; tauto.
  - intros j Hj. apply elem_of_seq in Hj. rewrite HQ. unfold Q'.
    rewrite lookup_app_l by lia. reflexivity.
Qed.

(** For a buffer of [w * h] samples the dark pixels of the mask are the
    samples below the threshold. *)
Lemma buildMask_darkPixels w h data :
  length data = w * h ->
  length (darkPixels w h (fst (buildMask w h data)))
  = length (darkSamples data).
Proof.
  intros Hlen. destruct (buildMask_spec w h data) as (bin & Hrun & _ & Hdark).
  rewrite Hrun. cbn [fst]. unfold darkPixels, darkSamples. rewrite <- Hlen.
  apply length_filter_positions. intros j. rewrite Hdark.
  split; [tauto|]. intros (v & Hv & Hlt). split; [|eauto].
  rewrite <- Hlen. eapply lookup_lt_Some; eauto.
Qed.

(** *** The components partition the dark pixels *)

Lemma classes_partition (f : nat -> list nat) (reps : list nat) :
  forall univ : list nat,
    NoDup univ ->
    NoDup reps ->
    (forall r, r ∈ reps -> NoDup (f r)) ->
    (forall r r' x, r ∈ reps -> r' ∈ reps -> x ∈ f r -> x ∈ f r' -> r = r') ->
    (forall x, x ∈ univ <-> exists r, r ∈ reps /\ x ∈ f r) ->
    list_sum (map (fun r => length (f r)) reps) = length univ.
Proof.
  induction reps as [|r reps IH]; intros univ Hnd Hreps Hf Hdisj Hcover.
  - destruct univ as [|x univ]; [reflexivity|].
    destruct (proj1 (Hcover x)) as (r & Hr & _); [now left|].
    now apply elem_of_nil in Hr.
  - apply NoDup_cons in Hreps as [Hr Hreps]. cbn [map list_sum fold_right].
    rewrite <- (Permutation_length (filter_app_complement (fun x => x ∈ f r) univ)).
    rewrite length_app. f_equal.
    + apply Permutation_length, NoDup_Permutation.
      * apply Hf. now left.
      * now apply NoDup_filter.
      * intros x. rewrite list_elem_of_filter, Hcover. split; [|tauto].
        intros Hx. split; [assumption|]. exists r. split; [now left | assumption].
    + apply IH.
      * now apply NoDup_filter.
      * assumption.
      * intros r' Hr'. apply Hf. now right.
      * intros r1 r2 x H1 H2. apply Hdisj; now right.
      * intros x. rewrite list_elem_of_filter, Hcover. split.
        -- intros (Hnot & r' & Hr' & Hx).
           apply elem_of_cons in Hr' as [-> | Hr']; [contradiction|]. eauto.
        -- intros (r' & Hr' & Hx). split.
           ++ intros Hxr. apply Hr.
              replace r with r'; [assumption|].
              apply (Hdisj r' r x); auto; [now right | now left].
           ++ exists r'. split; [now right | assumption].
Qed.

(** The sizes of all components add up to the number of dark pixels. *)
Lemma referenceSizes_sum w h bin :
  list_sum (referenceSizes w h bin) = length (darkPixels w h bin).
Proof.
  destruct (scan_raster w h bin (w * h)) as (V & comps & _ & Hinv & Hcov);
    [lia|].
  unfold referenceSizes, componentSize, darkPixels.
  set (firsts := filter (isFirst w h bin) (seq 0 (w * h))) in *.
  assert (Hfirst : forall r, r ∈ firsts -> r < w * h /\ dark bin r).
  { apply (scan_seeds _ _ _ _ _ _ Hinv). }
  apply classes_partition.
  - apply NoDup_filter, NoDup_seq.
  - apply (scan_nodup _ _ _ _ _ _ Hinv).
  - intros r Hr. destruct (Hfirst r Hr). now apply component_spec.
  - intros r r' x Hr Hr' Hx Hx'.
    destruct (Hfirst r Hr), (Hfirst r' Hr').
    apply component_spec in Hx, Hx'; auto.
    apply (scan_apart _ _ _ _ _ _ Hinv); auto.
    eapply connected_trans; [exact Hx | now apply connected_sym].
  - intros x. rewrite list_elem_of_filter, elem_of_seq. split.
    + intros [Hd Hx].
      destruct (proj1 (scan_marked _ _ _ _ _ _ Hinv x)) as (r & Hr & Hc);
        [apply Hcov; [lia | assumption]|].
      exists r. split; [assumption|]. destruct (Hfirst r Hr).
      now apply component_spec.
    + intros (r & Hr & Hx). destruct (Hfirst r Hr).
      apply component_spec in Hx; auto. split.
      * eapply connected_dark; eauto.
      * split; [lia|]. simpl. eapply connected_lt; eauto.
Qed.

Lemma list_sum_filter_le (P : nat -> Prop) `{forall x, Decision (P x)} l :
  list_sum (filter P l) <= list_sum l.
Proof.
  induction l as [|x l IH]; [reflexivity|]. rewrite filter_cons.
  destruct (decide (P x)); simpl; lia.
Qed.

Lemma list_sum_lower m (l : list nat) :
  Forall (fun x => m <= x) l -> m * length l <= list_sum l.
Proof. induction 1 as [|x l Hx _ IH]; simpl; lia. Qed.

Lemma list_sum_elem (l : list nat) x : x ∈ l -> x <= list_sum l.
Proof.
  induction l as [|y l IH]; intros Hx; [now apply elem_of_nil in Hx|].
  apply elem_of_cons in Hx as [-> | Hx]; simpl; [lia|].
  specialize (IH Hx). lia.
Qed.

Lemma referenceBlobs_bounds w h bin :
  Forall (fun size => 10 <= size <= length (darkPixels w h bin))
    (referenceBlobs w h bin)
  /\ 10 * length (referenceBlobs w h bin) <= list_sum (referenceBlobs w h bin)
  /\ list_sum (referenceBlobs w h bin) <= length (darkPixels w h bin)
  /\ length (darkPixels w h bin) <= w * h.
Proof.
  assert (Hsum : list_sum (referenceBlobs w h bin) <= length (darkPixels w h bin)).
  { rewrite <- referenceSizes_sum. apply list_sum_filter_le. }
  assert (Hall : Forall (fun size => 10 <= size) (referenceBlobs w h bin)).
  { apply Forall_forall. intros x Hx. unfold referenceBlobs in Hx.
    apply list_elem_of_filter in Hx. tauto. }
  split; [|split; [|split]].
  - apply Forall_forall. intros x Hx. split.
    + now apply (proj1 (Forall_forall _ _) Hall).
    + apply list_sum_elem in Hx. lia.
  - now apply list_sum_lower.
  - assumption.
  - unfold darkPixels. etransitivity; [apply length_filter|].
    now rewrite length_seq.
Qed.

Lemma ratio_unit_interval darkCount n :
  0 < n -> darkCount <= n ->
  exists q,
    ratio darkCount n = JS.Fin q
    /\ (q == inject_Z (Z.of_nat darkCount) / inject_Z (Z.of_nat n))%Q
    /\ (0 <= q <= 1)%Q.
Proof.
  intros Hn Hle. unfold ratio.
  destruct (Nat.eqb_spec n 0) as [-> | _]; [lia|].
  eexists. split; [reflexivity|]. split; [reflexivity|].
  assert (Hpos : (0 < inject_Z (Z.of_nat n))%Q).
  { rewrite <- (Zlt_Qlt 0). lia. }
  split.
  - apply Qle_shift_div_l; [assumption|]. rewrite Qmult_0_l.
    rewrite <- (Zle_Qle 0). lia.
  - apply Qle_shift_div_r; [assumption|]. rewrite Qmult_1_l.
    rewrite <- Zle_Qle. lia.
Qed.

(** X1: for a buffer of [w * h] samples the mask has [w * h] cells, a
    pixel is dark exactly when its sample is below 90, the dark count is
    the number of dark pixels, and the analysis returns with a dark ratio
    that is this count divided by [w * h], between 0 and 1. *)
Theorem mask_and_dark_ratio w h data :
  length data = w * h -> 0 < w * h ->
  let bin := fst (buildMask w h data) in
  let darkCount := snd (buildMask w h data) in
  length bin = w * h
  /\ (forall j, dark bin j <-> exists v, data !! j = Some v /\ v < 90)
  /\ darkCount = length (darkPixels w h bin)
  /\ exists a q,
       analyzeStickyTrapImage w h data = Some a
       /\ darkPixelRatio a = JS.Fin q
       /\ (q == inject_Z (Z.of_nat darkCount) / inject_Z (Z.of_nat (w * h)))%Q
       /\ (0 <= q <= 1)%Q.
Proof.
  intros Hlen Hpos. cbv zeta.
  pose proof (buildMask_darkPixels w h data Hlen) as Hpix.
  destruct (buildMask_spec w h data) as (bin & Hrun & Hbin & Hdark).
  unfold analyzeStickyTrapImage. rewrite Hrun in *. cbn [fst snd] in *.
  split; [assumption|]. split; [|split; [now symmetry|]].
  - intros j. rewrite Hdark. split; [tauto|]. intros (v & Hv & Hlt).
    split; [|eauto]. rewrite <- Hlen. eapply lookup_lt_Some; eauto.
  - destruct (segmentMask_returns w h bin (length (darkSamples data)))
      as (a & Ha & _).
    assert (Hle : length (darkSamples data) <= w * h).
    { rewrite <- Hlen. apply length_filter. }
    destruct (ratio_unit_interval _ _ Hpos Hle) as (q & Hq & Heq & Hrange).
    exists a, q. split; [assumption|].
    unfold segmentMask in Ha. rewrite labelComponents_reference in Ha.
    injection Ha as <-. cbn [darkPixelRatio]. auto.
Qed.

(** The theorem at a 2 by 2 image with two dark samples. *)
Lemma mask_and_dark_ratio_witness :
  exists a q,
    analyzeStickyTrapImage 2 2 [10; 200; 89; 90] = Some a
    /\ darkPixelRatio a = JS.Fin q
    /\ (q == 1 # 2)%Q.
Proof.
  destruct (mask_and_dark_ratio 2 2 [10; 200; 89; 90] eq_refl ltac:(simpl; lia))
    as (_ & _ & _ & a & q & Ha & Hq & Heq & _).
  exists a, q. split; [exact Ha|]. split; [exact Hq|].
  rewrite Heq. reflexivity.
Defined.

(** X2: every size in blobSizes is at least 10 and at most the number of
    dark pixels, blobSizes has at most 50 entries, and ten times blobCount
    is at most the number of dark pixels, which is at most [w * h]; an
    image without a dark pixel has no blob. *)
Theorem blob_sizes_bounded w h data :
  let dark := length (darkPixels w h (fst (buildMask w h data))) in
  exists a,
    analyzeStickyTrapImage w h data = Some a
    /\ Forall (fun size => 10 <= size <= dark) (blobSizes a)
    /\ length (blobSizes a) <= 50
    /\ 10 * blobCount a <= dark
    /\ dark <= w * h
    /\ (dark = 0 -> blobCount a = 0 /\ blobSizes a = []).
Proof.
  cbv zeta. unfold analyzeStickyTrapImage.
  destruct (buildMask w h data) as [bin darkCount]. cbn [fst].
  unfold segmentMask. rewrite labelComponents_reference.
  eexists. split; [reflexivity|]. cbn [blobSizes blobCount].
  destruct (referenceBlobs_bounds w h bin) as (Hall & Hlow & Hsum & Hgrid).
  split; [now apply Forall_take|].
  split; [rewrite length_take; lia|].
  split; [lia|]. split; [assumption|].
  intros H0. assert (Hnil : referenceBlobs w h bin = []).
  { destruct (referenceBlobs w h bin); [reflexivity | simpl in *; lia]. }
  rewrite Hnil. auto.
Qed.

(** The theorem at an image of 12 bright samples. *)
Lemma blob_sizes_bounded_witness :
  exists a,
    analyzeStickyTrapImage 4 3 (replicate 12 200) = Some a
    /\ blobCount a = 0 /\ blobSizes a = [].
Proof.
  destruct (blob_sizes_bounded 4 3 (replicate 12 200))
    as (a & Ha & _ & _ & _ & _ & Hzero).
  exists a. split; [exact Ha|]. apply Hzero. reflexivity.
Defined.

(** *** A fully dark image *)

Lemma all_dark_connected w h bin :
  (forall i, i < w * h -> dark bin i) ->
  forall i, i < w * h -> connected w h bin 0 i.
Proof.
  intros Hall i. induction i as [i IH] using lt_wf_ind. intros Hi.
  destruct (decide (i = 0)) as [-> | Hne].
  { apply connected_refl. now apply Hall. }
  destruct (coords w h i Hi) as (Hw & Hdec & Hx & Hy).
  set (x := col w i) in *. set (y := row w i) in *.
  assert (Hprev : exists j, j < i /\ adjacent w h j i = true).
  { destruct (decide (x = 0)) as [Hx0 | Hx0].
    - exists (w * (y - 1) + x). split; [nia|].
      apply adjacent_spec. split; [nia|]. split; [assumption|].
      destruct (coords_unique w x (y - 1) Hx) as [-> ->].
      fold x y. left. split; [reflexivity|]. right. nia.
    - exists (w * y + (x - 1)). split; [lia|].
      apply adjacent_spec. split; [lia|]. split; [assumption|].
      destruct (coords_unique w (x - 1) y ltac:(lia)) as [-> ->].
      fold x y. right. split; [reflexivity|]. right. lia. }
  destruct Hprev as (j & Hji & Hadj).
  eapply connected_step; [apply (IH j Hji); lia|].
  split; [apply Hall; lia|]. split; [now apply Hall | assumption].
Qed.

Lemma filter_none {A} (P : A -> Prop) `{forall x, Decision (P x)} (l : list A) :
  (forall x, x ∈ l -> ~ P x) -> filter P l = [].
Proof.
  induction l as [|x l IH]; intros Hall; [reflexivity|].
  rewrite filter_cons_False by (apply Hall; now left).
  apply IH. intros y Hy. apply Hall. now right.
Qed.

Lemma filter_all {A} (P : A -> Prop) `{forall x, Decision (P x)} (l : list A) :
  Forall P l -> filter P l = l.
Proof.
  induction 1 as [|x l Hx _ IH]; [reflexivity|].
  rewrite filter_cons_True by exact Hx. now rewrite IH.
Qed.

Lemma all_dark_one_component w h bin :
  (forall i, i < w * h -> dark bin i) -> 0 < w * h ->
  referenceSizes w h bin = [w * h].
Proof.
  intros Hall Hpos. unfold referenceSizes.
  pose proof (all_dark_connected w h bin Hall) as Hconn.
  assert (Hfirsts : filter (isFirst w h bin) (seq 0 (w * h)) = [0]).
  { destruct (w * h) as [|n] eqn:En; [lia|]. cbn [seq].
    rewrite filter_cons_True.
    - f_equal. apply filter_none. intros k Hk Hfirst.
      apply elem_of_seq in Hk.
      apply isFirst_spec in Hfirst as [_ Hmin]; [|lia].
      assert (k <= 0); [|lia]. apply Hmin, connected_sym, Hconn. lia.
    - apply isFirst_spec; [lia|]. split; [apply Hall; lia | intros; lia]. }
  rewrite Hfirsts. cbn [map]. f_equal. unfold componentSize.
  destruct (component_spec w h bin 0 Hpos (Hall 0 Hpos)) as [Hnd Hspec].
  rewrite <- (length_seq (w * h) 0).
  apply Permutation_length, NoDup_Permutation; [assumption | apply NoDup_seq|].
  intros j. rewrite Hspec, elem_of_seq. split.
  - intros Hj. split; [lia|]. simpl. eapply connected_lt; eauto.
  - intros [_ Hj]. now apply Hconn.
Qed.

(** X3: an image of at least 10 pixels whose every sample is below the
    threshold is one blob that covers the whole image, with a dark ratio
    of 1. *)
Theorem fully_dark_image_one_blob w h data :
  length data = w * h -> 10 <= w * h ->
  Forall (fun v => v < 90) data ->
  exists a q,
    analyzeStickyTrapImage w h data = Some a
    /\ blobCount a = 1
    /\ blobSizes a = [w * h]
    /\ darkPixelRatio a = JS.Fin q /\ (q == 1)%Q.
Proof.
  intros Hlen Hbig Hall.
  destruct (buildMask_spec w h data) as (bin & Hrun & Hbin & Hdark).
  assert (Hpix : forall i, i < w * h -> dark bin i).
  { intros i Hi. apply Hdark. split; [assumption|].
    destruct (lookup_lt_is_Some_2 data i) as [v Hv]; [lia|].
    exists v. split; [assumption|].
    apply (proj1 (Forall_forall _ _) Hall). eapply list_elem_of_lookup_2; eauto. }
  assert (Hsamples : length (darkSamples data) = w * h).
  { unfold darkSamples. rewrite filter_all by exact Hall. exact Hlen. }
  unfold analyzeStickyTrapImage, segmentMask. rewrite Hrun.
  rewrite labelComponents_reference.
  unfold referenceBlobs. rewrite all_dark_one_component by (auto; lia).
  rewrite filter_cons_True by lia. rewrite filter_nil.
  destruct (ratio_unit_interval (w * h) (w * h) ltac:(lia) ltac:(lia))
    as (q & Hq & Heq & _).
  eexists. exists q. split; [reflexivity|]. cbn [blobCount blobSizes darkPixelRatio].
  split; [reflexivity|]. split; [reflexivity|].
  rewrite Hsamples. split; [assumption|].
  rewrite Heq. apply Qmult_inv_r. intros H0.
  apply (Qeq_bool_neq (inject_Z (Z.of_nat (w * h))) 0); [|assumption].
  unfold Qeq_bool, inject_Z. simpl. apply Z.eqb_neq. lia.
Qed.

(** The theorem at a 4 by 3 image of black samples. *)
Lemma fully_dark_image_one_blob_witness :
  exists a,
    analyzeStickyTrapImage 4 3 (replicate 12 0) = Some a
    /\ blobCount a = 1 /\ blobSizes a = [12].
Proof.
  destruct (fully_dark_image_one_blob 4 3 (replicate 12 0) eq_refl
              ltac:(simpl; lia) ltac:(repeat constructor))
    as (a & q & Ha & Hc & Hs & _).
  exists a. split; [exact Ha|]. split; [exact Hc | exact Hs].
Defined.

End MaskFacts.

(** ** Order properties of the classifier *)
Module ClassifierOrder.
Import JS Classifier JSFacts ClassifierFacts.

(** The category as a position in [order]. *)
Lemma categorize_position estimatedCount darkPixelRatio :
  exists k,
    (k <= 4)%nat
    /\ categorizePestAmount estimatedCount darkPixelRatio
       = nth k order "very high"%string
    /\ k = (if ge darkPixelRatio (lit double_0_15)
            then Nat.min (bucket (clampedCount estimatedCount) + 1) 4
            else bucket (clampedCount estimatedCount)).
Proof.
  pose proof (bucket_le_4 (clampedCount estimatedCount)) as Hb.
  destruct (ge darkPixelRatio (lit double_0_15)) eqn:Hd.
  - eexists. split; [|split; [now apply categorize_escalated | reflexivity]].
    lia.
  - eexists. split; [|split; [now apply categorize_unescalated | reflexivity]].
    assumption.
Qed.

Lemma indexOf_order k :
  (k <= 4)%nat -> indexOf order (nth k order "very high"%string) = Z.of_nat k.
Proof.
  intros Hk. destruct k as [|[|[|[|[|k]]]]]; try reflexivity. lia.
Qed.

Lemma ltn_Fin_trans b c1 c2 :
  (c1 <= c2)%Q -> ltn (Fin b) (Fin c1) = true -> ltn (Fin b) (Fin c2) = true.
Proof.
  simpl. rewrite !Qltb_lt. intros H1 H2. Lqa.lra.
Qed.

Lemma clampedCount_lit q :
  exists c, clampedCount (lit q) = Fin c /\ (c == Qmax 0 q)%Q.
Proof.
  unfold clampedCount, lit.
  destruct (Qle_bool q 0) eqn:E.
  - exists 0%Q. split; [reflexivity|]. apply Qle_bool_iff in E.
    symmetry. now apply Q.max_l.
  - exists q. split; [reflexivity|].
    assert (0 < q)%Q.
    { apply Qnot_le_lt. intros H. apply Qle_bool_iff in H. congruence. }
    symmetry. apply Q.max_r. now apply Qlt_le_weak.
Qed.

Lemma bucket_monotone c1 c2 :
  (c1 <= c2)%Q -> (bucket (Fin c1) <= bucket (Fin c2))%nat.
Proof.
  intros Hle. unfold bucket, breakpoints. cbn [List.filter].
  pose proof (ltn_Fin_trans 2 c1 c2 Hle).
  pose proof (ltn_Fin_trans 5 c1 c2 Hle).
  pose proof (ltn_Fin_trans 12 c1 c2 Hle).
  pose proof (ltn_Fin_trans 25 c1 c2 Hle).
  destruct (ltn (Fin 2) (Fin c1)), (ltn (Fin 5) (Fin c1)),
    (ltn (Fin 12) (Fin c1)), (ltn (Fin 25) (Fin c1));
    repeat match goal with
           | H : true = true -> _ |- _ => rewrite (H eq_refl); clear H
           end;
    destruct (ltn (Fin 2) (Fin c2)), (ltn (Fin 5) (Fin c2)),
      (ltn (Fin 12) (Fin c2)), (ltn (Fin 25) (Fin c2)); simpl; lia.
Qed.

Lemma bucket_clamped_monotone c1 c2 :
  (c1 <= c2)%Q ->
  (bucket (clampedCount (lit c1)) <= bucket (clampedCount (lit c2)))%nat.
Proof.
  intros Hle.
  destruct (clampedCount_lit c1) as (d1 & -> & H1).
  destruct (clampedCount_lit c2) as (d2 & -> & H2).
  apply bucket_monotone. rewrite H1, H2.
  apply Q.max_le_compat_l. assumption.
Qed.

(** X4: the classifier always returns one of its five categories (the
    array lookup never reads outside [order]), and the category never goes
    down when the count goes up or when the dark ratio goes up. *)
Theorem classify_monotone :
  (forall estimatedCount darkPixelRatio,
     In (categorizePestAmount estimatedCount darkPixelRatio) order)
  /\ (forall (c1 c2 : Q) darkPixelRatio,
        (c1 <= c2)%Q ->
        (indexOf order (categorizePestAmount (lit c1) darkPixelRatio)
         <= indexOf order (categorizePestAmount (lit c2) darkPixelRatio))%Z)
  /\ (forall estimatedCount (r1 r2 : Q),
        (r1 <= r2)%Q ->
        (indexOf order (categorizePestAmount estimatedCount (lit r1))
         <= indexOf order (categorizePestAmount estimatedCount (lit r2)))%Z).
Proof.
  split; [|split].
  - intros e d. destruct (categorize_position e d) as (k & Hk & -> & _).
    destruct k as [|[|[|[|[|k]]]]]; simpl; auto 6. lia.
  - intros c1 c2 d Hle.
    destruct (categorize_position (lit c1) d) as (k1 & Hk1 & -> & E1).
    destruct (categorize_position (lit c2) d) as (k2 & Hk2 & -> & E2).
    rewrite !indexOf_order by assumption.
    pose proof (bucket_clamped_monotone c1 c2 Hle).
    destruct (ge d (lit double_0_15)); lia.
  - intros e r1 r2 Hle.
    destruct (categorize_position e (lit r1)) as (k1 & Hk1 & -> & E1).
    destruct (categorize_position e (lit r2)) as (k2 & Hk2 & -> & E2).
    rewrite !indexOf_order by assumption.
    pose proof (bucket_le_4 (clampedCount e)).
    destruct (ge (lit r1) (lit double_0_15)) eqn:G1.
    + apply ge_lit in G1.
      assert (G2 : ge (lit r2) (lit double_0_15) = true) by (apply ge_lit; Lqa.lra).
      rewrite G2 in E2. lia.
    + destruct (ge (lit r2) (lit double_0_15)); lia.
Qed.

(** The theorem at counts 3 and 30 with a dark ratio of 0.2. *)
Lemma classify_monotone_witness :
  (3 <= 30)%Q
  /\ (indexOf order (categorizePestAmount (lit 3) (lit 0.2))
      <= indexOf order (categorizePestAmount (lit 30) (lit 0.2)))%Z.
Proof.
  assert (H : (3 <= 30)%Q) by (vm_compute; discriminate).
  split; [exact H|].
  exact (proj1 (proj2 classify_monotone) 3%Q 30%Q (lit 0.2) H).
Defined.

End ClassifierOrder.

(** ** Order properties of the heat stress scorer *)
Module HeatStressOrder.
Import JS HeatStress JSFacts HeatStressFacts Advice.
Local Open Scope Z_scope.

Ltac bools_to_props :=
  repeat match goal with
         | H : gt (lit _) (lit _) = true |- _ => apply gt_lit in H
         | H : gt (lit _) (lit _) = false |- _ =>
             apply not_true_iff_false in H; rewrite gt_lit in H
         | H : lt (lit _) (lit _) = true |- _ => apply lt_lit in H
         | H : lt (lit _) (lit _) = false |- _ =>
             apply not_true_iff_false in H; rewrite lt_lit in H
         end.

Lemma above_monotone tiers (v1 v2 : Q) :
  (v1 <= v2)%Q ->
  tierPoints (above (lit v1)) tiers <= tierPoints (above (lit v2)) tiers.
Proof.
  intros Hle. unfold tierPoints.
  induction tiers as [|[c p] tiers IH]; cbn [List.filter fst]; [reflexivity|].
  destruct (above (lit v1) c) eqn:G1, (above (lit v2) c) eqn:G2;
    cbn [map fold_right snd]; try lia.
  unfold above in *. bools_to_props. exfalso. apply G2. Lqa.lra.
Qed.

Lemma below_antitone tiers (v1 v2 : Q) :
  (v1 <= v2)%Q ->
  tierPoints (below (lit v2)) tiers <= tierPoints (below (lit v1)) tiers.
Proof.
  intros Hle. unfold tierPoints.
  induction tiers as [|[c p] tiers IH]; cbn [List.filter fst]; [reflexivity|].
  destruct (below (lit v1) c) eqn:G1, (below (lit v2) c) eqn:G2;
    cbn [map fold_right snd]; try lia.
  unfold below in *. bools_to_props. exfalso. apply G1. Lqa.lra.
Qed.

Lemma severity_of_score score1 score2 :
  score1 <= score2 ->
  severity (levelOfSum score1) <= severity (levelOfSum score2).
Proof.
  intros Hle. unfold levelOfSum.
  destruct (Z.leb_spec 70 score1), (Z.leb_spec 50 score1),
    (Z.leb_spec 30 score1), (Z.leb_spec 15 score1);
  destruct (Z.leb_spec 70 score2), (Z.leb_spec 50 score2),
    (Z.leb_spec 30 score2), (Z.leb_spec 15 score2);
  try lia; vm_compute; discriminate.
Qed.

(** X5: with the other readings fixed, a higher air or soil temperature
    never lowers the stress score, a higher soil moisture or humidity never
    raises it, and the level follows the score: a higher score never gives
    a milder level. *)
Theorem heat_stress_monotone (a s m r : value) (v1 v2 : Q) :
  (v1 <= v2)%Q ->
  stressScore (lit v1) s m r <= stressScore (lit v2) s m r
  /\ stressScore a (lit v1) m r <= stressScore a (lit v2) m r
  /\ stressScore a s (lit v2) r <= stressScore a s (lit v1) r
  /\ stressScore a s m (lit v2) <= stressScore a s m (lit v1)
  /\ severity (computeHeatStressLevel (lit v1) s m r)
     <= severity (computeHeatStressLevel (lit v2) s m r)
  /\ severity (computeHeatStressLevel a (lit v1) m r)
     <= severity (computeHeatStressLevel a (lit v2) m r)
  /\ severity (computeHeatStressLevel a s (lit v2) r)
     <= severity (computeHeatStressLevel a s (lit v1) r)
  /\ severity (computeHeatStressLevel a s m (lit v2))
     <= severity (computeHeatStressLevel a s m (lit v1)).
Proof.
  intros Hle.
  pose proof (above_monotone airTiers v1 v2 Hle) as Ha.
  pose proof (above_monotone soilTiers v1 v2 Hle) as Hs.
  pose proof (below_antitone moistureTiers v1 v2 Hle) as Hm.
  pose proof (below_antitone humidityTiers v1 v2 Hle) as Hr.
  assert (H1 : stressScore (lit v1) s m r <= stressScore (lit v2) s m r).
  { rewrite !stressScore_tierSum. unfold tierSum. lia. }
  assert (H2 : stressScore a (lit v1) m r <= stressScore a (lit v2) m r).
  { rewrite !stressScore_tierSum. unfold tierSum. lia. }
  assert (H3 : stressScore a s (lit v2) r <= stressScore a s (lit v1) r).
  { rewrite !stressScore_tierSum. unfold tierSum. lia. }
  assert (H4 : stressScore a s m (lit v2) <= stressScore a s m (lit v1)).
  { rewrite !stressScore_tierSum. unfold tierSum. lia. }
  rewrite !level_of_score.
  repeat split; auto using severity_of_score.
Qed.

(** The theorem at air temperatures of 26 and 36 degrees. *)
Lemma heat_stress_monotone_witness :
  (26 <= 36)%Q
  /\ stressScore (lit 26) (lit 20) (lit 50) (lit 60)
     <= stressScore (lit 36) (lit 20) (lit 50) (lit 60).
Proof.
  assert (H : (26 <= 36)%Q) by (vm_compute; discriminate).
  split; [exact H|].
  exact (proj1 (heat_stress_monotone (lit 0) (lit 20) (lit 50) (lit 60)
                  26%Q 36%Q H)).
Defined.

Ltac split_chain :=
  repeat match goal with
         | |- context [if ?b then _ else _] => destruct b eqn:?
         | H : context [if ?b then _ else _] |- _ => destruct b eqn:?
         end.

Lemma stressScore_chains a s m r :
  stressScore a s m r
  = Z.min
      ((if gt a (lit 35) then 50 else if gt a (lit 32) then 35
        else if gt a (lit 30) then 20 else if gt a (lit 25) then 10 else 0)
       + (if gt s (lit 30) then 25 else if gt s (lit 28) then 15
          else if gt s (lit 26) then 10 else if gt s (lit 24) then 5 else 0)
       + (if lt m (lit 20) then 15 else if lt m (lit 30) then 10
          else if lt m (lit 40) then 5 else 0)
       + (if lt r (lit 30) then 10 else if lt r (lit 50) then 5 else 0))
      100.
Proof.
  rewrite stressScore_tierSum. unfold tierSum.
  now rewrite airTiers_chain, soilTiers_chain, moistureTiers_chain,
    humidityTiers_chain.
Qed.

(** X6: the level critical needs an air temperature above 30; a level of
    high or critical needs an air temperature above 25 unless the soil is
    above 30, the moisture below 20 and the humidity below 30 together;
    and an air temperature above 35 with a soil temperature above 30 is
    critical whatever the other two readings are. *)
Theorem critical_needs_hot_air (a s m r : Q) :
  let level := computeHeatStressLevel (lit a) (lit s) (lit m) (lit r) in
  (level = "critical"%string -> (30 < a)%Q)
  /\ (3 <= severity level ->
      (25 < a)%Q \/ ((30 < s)%Q /\ (m < 20)%Q /\ (r < 30)%Q))
  /\ ((35 < a)%Q -> (30 < s)%Q -> level = "critical"%string).
Proof.
  cbv zeta. rewrite level_of_score, stressScore_chains.
  split; [|split].
  - intros H. apply gt_lit. destruct (gt (lit a) (lit 30)) eqn:G30; [reflexivity|].
    exfalso.
    assert (G35 : gt (lit a) (lit 35) = false).
    { apply not_true_iff_false. intros G. bools_to_props. apply G30. Lqa.lra. }
    assert (G32 : gt (lit a) (lit 32) = false).
    { apply not_true_iff_false. intros G. bools_to_props. apply G30. Lqa.lra. }
    rewrite G35, G32 in H.
    split_chain; vm_compute in H; discriminate H.
  - intros H.
    destruct (gt (lit a) (lit 25)) eqn:G25; [left; now apply gt_lit|].
    right.
    assert (G35 : gt (lit a) (lit 35) = false).
    { apply not_true_iff_false. intros G. bools_to_props. apply G25. Lqa.lra. }
    assert (G32 : gt (lit a) (lit 32) = false).
    { apply not_true_iff_false. intros G. bools_to_props. apply G25. Lqa.lra. }
    assert (G30 : gt (lit a) (lit 30) = false).
    { apply not_true_iff_false. intros G. bools_to_props. apply G25. Lqa.lra. }
    rewrite G35, G32, G30 in H.
    destruct (gt (lit s) (lit 30)) eqn:S30, (lt (lit m) (lit 20)) eqn:M20,
      (lt (lit r) (lit 30)) eqn:R30;
      try (split; [now apply gt_lit | split; now apply lt_lit]);
      exfalso; split_chain; vm_compute in H; apply H; reflexivity.
  - intros Ha Hs. apply gt_lit in Ha, Hs. rewrite Ha, Hs.
    split_chain; reflexivity.
Qed.

(** The theorem at the readings (36, 31, 50, 60). *)
Lemma critical_needs_hot_air_witness :
  computeHeatStressLevel (lit 36) (lit 31) (lit 50) (lit 60)
  = "critical"%string.
Proof.
  apply (proj2 (proj2 (critical_needs_hot_air 36 31 50 60)));
    vm_compute; reflexivity.
Defined.

(** X7: the advice for the level the scorer returns is the critical text
    exactly from a score of 70, the high text from 50, the moderate text
    from 30, the low text from 15 and the minimal text below; a level the
    [switch] has no case for, or [undefined], gets the minimal text. *)
Theorem heat_advice_follows_score (a s m r : value) :
  let score := stressScore a s m r in
  let advice := heatStressAdviceForLevel (Some (computeHeatStressLevel a s m r)) in
  (70 <= score <-> advice = heatStressAdviceForLevel (Some "critical"%string))
  /\ (50 <= score < 70 <-> advice = heatStressAdviceForLevel (Some "high"%string))
  /\ (30 <= score < 50 <-> advice = heatStressAdviceForLevel (Some "moderate"%string))
  /\ (15 <= score < 30 <-> advice = heatStressAdviceForLevel (Some "low"%string))
  /\ (score < 15 <-> advice = heatStressAdviceForLevel (Some "minimal"%string))
  /\ heatStressAdviceForLevel None = heatStressAdviceForLevel (Some "minimal"%string)
  /\ (forall level,
        ~ In level ["critical"; "high"; "moderate"; "low"]%string ->
        heatStressAdviceForLevel (Some level)
        = heatStressAdviceForLevel (Some "minimal"%string)).
Proof.
  cbv zeta. rewrite level_of_score. unfold levelOfSum.
  set (score := stressScore a s m r). clearbody score.
  split; [|split; [|split; [|split; [|split; [|split]]]]];
    try (destruct (Z.leb_spec 70 score), (Z.leb_spec 50 score),
           (Z.leb_spec 30 score), (Z.leb_spec 15 score);
         try lia; split; intros Hadv; try lia; try reflexivity;
         vm_compute in Hadv; discriminate Hadv).
  intros level Hnot. unfold heatStressAdviceForLevel.
    destruct (String.eqb_spec level "critical") as [-> | _];
      [exfalso; apply Hnot; simpl; auto|].
    destruct (String.eqb_spec level "high") as [-> | _];
      [exfalso; apply Hnot; simpl; auto|].
    destruct (String.eqb_spec level "moderate") as [-> | _];
      [exfalso; apply Hnot; simpl; auto|].
    destruct (String.eqb_spec level "low") as [-> | _];
      [exfalso; apply Hnot; simpl; auto|].
    reflexivity.
Qed.

(** The theorem at the level unknown of a degraded community result. *)
Lemma heat_advice_follows_score_witness :
  heatStressAdviceForLevel (Some "unknown"%string)
  = "Minimal heat stress: Optimal conditions for plant growth."%string.
Proof.
  rewrite (proj2 (proj2 (proj2 (proj2 (proj2 (proj2
             (heat_advice_follows_score (lit 0) (lit 0) (lit 0) (lit 0)))))))
             "unknown"%string).
  - reflexivity.
  - simpl. intros [H | [H | [H | [H | []]]]]; discriminate H.
Defined.

End HeatStressOrder.

(** ** Bounds of the forecaster *)
Module ForecasterBounds.
Import JS Exn Forecaster ForecasterFacts Histories.
Local Open Scope R_scope.

(** The weights of the five levels add up to the total weight. *)
Lemma weightOf_levels i levels :
  Forall (fun l => (l < 5)%nat) levels ->
  weightOf (Nat.eqb 0) i levels + weightOf (Nat.eqb 1) i levels
  + weightOf (Nat.eqb 2) i levels + weightOf (Nat.eqb 3) i levels
  + weightOf (Nat.eqb 4) i levels
  = weightOf (fun _ => true) i levels.
Proof.
  intros H. revert i. induction H as [|l levels Hl _ IH]; intros i;
    cbn [weightOf]; [lra|].
  rewrite <- IH.
  destruct l as [|[|[|[|[|l]]]]]; [| | | | |lia]; cbn [Nat.eqb]; lra.
Qed.

Lemma levels_lt_5' rows : Forall (fun l => (l < 5)%nat) (map level rows).
Proof.
  apply List.Forall_forall. intros l Hl. apply List.in_map_iff in Hl.
  destruct Hl as (row & <- & _). apply level_lt_5.
Qed.

Lemma weightOf_le_total keep i levels :
  weightOf keep i levels <= weightOf (fun _ => true) i levels.
Proof.
  revert i. induction levels as [|x xs IH]; intros i; cbn [weightOf]; [lra|].
  specialize (IH (S i)). pose proof (weight_pos i).
  destruct (keep x); lra.
Qed.

Lemma share_range rows l : rows <> [] -> 0 <= share rows l <= 100.
Proof.
  intros Hne. unfold share.
  assert (HT : 0 < weightOf (fun _ => true) 0 (map level rows)).
  { apply total_weight_pos. destruct rows; [contradiction | discriminate]. }
  pose proof (weightOf_nonneg (Nat.eqb l) 0 (map level rows)) as Hl.
  pose proof (weightOf_le_total (Nat.eqb l) 0 (map level rows)) as Hle.
  split.
  - apply Rmult_le_pos; [nra | apply Rlt_le, Rinv_0_lt_compat, HT].
  - apply (Rmult_le_reg_r (weightOf (fun _ => true) 0 (map level rows)));
      [assumption|].
    unfold Rdiv. rewrite Rmult_assoc, Rinv_l by lra. lra.
Qed.

Lemma share_sum rows :
  rows <> [] ->
  share rows 0 + share rows 1 + share rows 2 + share rows 3 + share rows 4
  = 100.
Proof.
  intros Hne. unfold share.
  assert (HT : 0 < weightOf (fun _ => true) 0 (map level rows)).
  { apply total_weight_pos. destruct rows; [contradiction | discriminate]. }
  rewrite <- (weightOf_levels 0 (map level rows) (levels_lt_5' rows)) in *.
  field. lra.
Qed.

Lemma weightedScore_range rows : rows <> [] -> 0 <= weightedScoreOf rows <= 1.
Proof.
  intros Hne. unfold weightedScoreOf.
  pose proof (share_sum rows Hne).
  pose proof (share_range rows 0 Hne). pose proof (share_range rows 1 Hne).
  pose proof (share_range rows 2 Hne). pose proof (share_range rows 3 Hne).
  pose proof (share_range rows 4 Hne). lra.
Qed.

(** *** The rounded percentages of the details *)

Lemma tenths_spec x :
  0 <= x -> IZR (tenths x) <= x * 10 + / 2 < IZR (tenths x) + 1.
Proof.
  intros Hx. unfold tenths. rewrite (Rabs_pos_eq x Hx).
  destruct (base_Int_part (x * 10 + / 2)). lra.
Qed.

Lemma toFixed1_nonneg x : 0 <= x -> toFixed1 x = fixed1 false (tenths x).
Proof.
  intros Hx. unfold toFixed1. destruct (Rlt_dec x 0); [lra | reflexivity].
Qed.

Lemma IZR_lt_succ n b : IZR n < IZR b + 1 -> (n <= b)%Z.
Proof.
  intros H. rewrite <- (plus_IZR b 1) in H. apply lt_IZR in H. lia.
Qed.

Lemma IZR_gt_pred n b : IZR b - 1 < IZR n -> (b <= n)%Z.
Proof.
  intros H. rewrite <- (minus_IZR b 1) in H. apply lt_IZR in H. lia.
Qed.

(** A number between two integers rounds to a number of tenths between
    ten times these integers, at most a twentieth away from it. *)
Lemma tenths_range x (lo hi : Z) :
  0 <= x -> IZR lo <= x <= IZR hi ->
  (10 * lo <= tenths x <= 10 * hi)%Z
  /\ Rabs (IZR (tenths x) / 10 - x) <= 0.05.
Proof.
  intros Hx [Hlo Hhi]. destruct (tenths_spec x Hx) as [Hle Hlt].
  split; [split|].
  - apply IZR_gt_pred. rewrite mult_IZR. lra.
  - apply IZR_lt_succ. rewrite mult_IZR. lra.
  - apply Rabs_le. lra.
Qed.



Lemma majorityMultiplier_bounds rows m :
  majorityMultiplier rows m -> 0.5 <= m <= 1.3.
Proof.
  unfold majorityMultiplier. cbv zeta.
  intros [[_ ->] | [(_ & _ & ->) | (_ & _ & ->)]]; lra.
Qed.

Lemma clamp01_le x b : 0 <= b -> x <= b -> clamp01 x <= b.
Proof.
  intros Hb Hx. unfold clamp01, Rmax, Rmin.
  destruct (Rle_dec 1 x); destruct (Rle_dec 0 _); lra.
Qed.

Lemma levelOf_not_high score riskLevel :
  score < 0.8 -> levelOf score riskLevel -> riskLevel <> "high"%string.
Proof.
  intros Hlt [[Hge _] | [(_ & _ & ->) | (_ & ->)]]; [lra | |]; discriminate.
Qed.

Lemma levelOf_low score riskLevel :
  score < 0.5 -> levelOf score riskLevel -> riskLevel = "low"%string.
Proof.
  intros Hlt [[Hge _] | [(_ & Hge & _) | (_ & ->)]]; [lra | lra | reflexivity].
Qed.

(** X9: when at least 80% of the most recent min(5, n) readings are at
    level 1 or below, the risk score is at most 0.52 and the risk level is
    never high, whatever the older readings are. *)
Theorem recent_calm_is_never_high rows :
  rows <> [] -> recentCalm rows ->
  riskScore (forecastRows rows) <= 0.52
  /\ riskLevel (forecastRows rows) <> "high"%string.
Proof.
  intros Hne Hcalm.
  destruct (forecastRows_corrections rows Hne)
    as (m1 & m2 & Hm1 & Hm2 & Hscore & Hlevel & _).
  pose proof (majorityMultiplier_bounds rows m1 Hm1).
  pose proof (weightedScore_range rows Hne).
  assert (m2 = 0.4) as -> by (destruct Hm2 as [[_ ->] | [Hn _]]; tauto).
  assert (Hle : riskScore (forecastRows rows) <= 0.52).
  { rewrite Hscore. apply clamp01_le; [lra | nra]. }
  split; [assumption|].
  eapply levelOf_not_high; [|exact Hlevel]. lra.
Qed.

(** The theorem at four calm readings after five infested ones. *)
Lemma recent_calm_is_never_high_witness :
  recentCalm calmAfterInfestation
  /\ riskLevel (forecastRows calmAfterInfestation) <> "high"%string.
Proof.
  assert (Hcalm : recentCalm calmAfterInfestation).
  { unfold recentCalm. vm_compute. lia. }
  split; [exact Hcalm|].
  exact (proj2 (recent_calm_is_never_high calmAfterInfestation
                  ltac:(discriminate) Hcalm)).
Defined.

Lemma filter_leb_all (levels : list nat) :
  Forall (fun l => (l <= 1)%nat) levels ->
  List.filter (fun l => Nat.leb l 1) levels = levels.
Proof.
  induction 1 as [|l levels Hl _ IH]; [reflexivity|]. cbn [List.filter].
  apply Nat.leb_le in Hl. now rewrite Hl, IH.
Qed.

(** The level of a reading with a count: 0 up to 2 insects, at most 1 up
    to 5 insects. *)
Lemma level_of_count row q :
  estimated_pest_count row = lit q ->
  ((q <= 2)%Q <-> level row = 0%nat)
  /\ ((q <= 5)%Q <-> (level row <= 1)%nat).
Proof.
  intros Hq. unfold level, pestAmount. cbv zeta.
  rewrite ClassifierFacts.count_clamped, Hq.
  unfold Classifier.clampedCount, lit.
  destruct (Qle_bool q 0) eqn:E0.
  - apply Qle_bool_iff in E0.
    change (len (Fin 0) (Fin 2)) with true. cbn [fst].
    split; split; intros _; try reflexivity; try lia; Lqa.lra.
  - assert (H0 : (0 < q)%Q).
    { destruct (Qlt_le_dec 0 q) as [|Hle]; [assumption|].
      apply Qle_bool_iff in Hle. congruence. }
    unfold len, ltn.
    destruct (Qltb 2 q) eqn:E2; cbn [negb].
    + apply JSFacts.Qltb_lt in E2.
      destruct (Qltb 5 q) eqn:E5; cbn [negb].
      * apply JSFacts.Qltb_lt in E5.
        destruct (Qltb 12 q); cbn [negb];
          [destruct (Qltb 25 q); cbn [negb]|]; cbn [fst];
          (split; split; intros H; try lia; try discriminate; exfalso;
           Lqa.lra).
      * apply JSFacts.Qltb_ge in E5. cbn [fst].
        split; split; intros H; try lia; try discriminate; try assumption;
          exfalso; Lqa.lra.
    + apply JSFacts.Qltb_ge in E2. cbn [fst].
      split; split; intros H; try reflexivity; try lia; try assumption;
        Lqa.lra.
Qed.

(** X10: a non-empty history in which every reading counts at most 5
    insects gets both reductions: the risk score is at most 0.05 and the
    level is low; if every reading counts at most 2 insects the score
    is 0. *)
Theorem calm_history_is_low rows :
  rows <> [] ->
  Forall (fun row =>
            exists q, estimated_pest_count row = lit q /\ (q <= 5)%Q) rows ->
  majorityMultiplier rows 0.5
  /\ calmMultiplier rows 0.4
  /\ riskScore (forecastRows rows) <= 0.05
  /\ riskLevel (forecastRows rows) = "low"%string
  /\ (Forall (fun row =>
                exists q, estimated_pest_count row = lit q /\ (q <= 2)%Q)
        rows ->
      riskScore (forecastRows rows) = 0).
Proof.
  intros Hne Hcounts.
  assert (Hall : Forall (fun row => (level row <= 1)%nat) rows).
  { eapply List.Forall_impl; [|exact Hcounts]. intros row (q & Hq & Hle).
    now apply (level_of_count row q Hq). }
  assert (Hlev : Forall (fun l => (l <= 1)%nat) (map level rows)).
  { apply List.Forall_forall. intros l Hl. apply List.in_map_iff in Hl.
    destruct Hl as (row & <- & Hin).
    now apply (proj1 (List.Forall_forall _ _) Hall). }
  assert (HT : 0 < weightOf (fun _ => true) 0 (map level rows)).
  { apply total_weight_pos. destruct rows; [contradiction | discriminate]. }
  assert (Hzero : forall l, (2 <= l)%nat -> share rows l = 0).
  { intros l Hl. unfold share. rewrite weightOf_none.
    - field. lra.
    - eapply List.Forall_impl; [|exact Hlev]. intros x Hx. cbv beta in Hx.
      apply Nat.eqb_neq. lia. }
  pose proof (share_sum rows Hne) as Hsum.
  rewrite (Hzero 2%nat), (Hzero 3%nat), (Hzero 4%nat) in Hsum by lia.
  pose proof (share_range rows 0 Hne) as H0.
  pose proof (share_range rows 1 Hne) as H1.
  assert (Hws : weightedScoreOf rows = share rows 1 / 100 * (1 / 4)).
  { unfold weightedScoreOf.
    rewrite (Hzero 2%nat), (Hzero 3%nat), (Hzero 4%nat) by lia. lra. }
  assert (Hcalm : recentCalm rows).
  { unfold recentCalm. cbv zeta. rewrite filter_leb_all; [lia|].
    unfold recentLevels. now apply Forall_take. }
  assert (Hm1 : majorityMultiplier rows 0.5).
  { left. split; [lra | reflexivity]. }
  assert (Hm2 : calmMultiplier rows 0.4) by (left; auto).
  destruct (forecastRows_corrections rows Hne)
    as (m1 & m2 & Hm1' & Hm2' & Hscore & Hlevel & _).
  assert (m1 = 0.5) as ->.
  { destruct Hm1' as [[_ ->] | [(Hle & _) | (Hle & _)]]; [reflexivity | |];
      cbv zeta in Hle; lra. }
  assert (m2 = 0.4) as -> by (destruct Hm2' as [[_ ->] | [Hn _]]; tauto).
  assert (Hle : riskScore (forecastRows rows) <= 0.05).
  { rewrite Hscore. apply clamp01_le; [lra|]. rewrite Hws. lra. }
  split; [assumption|]. split; [assumption|]. split; [assumption|].
  split; [eapply levelOf_low; [|exact Hlevel]; lra|].
  intros Hcounts0. rewrite Hscore, Hws.
  assert (Hall0 : Forall (fun row => level row = 0%nat) rows).
  { eapply List.Forall_impl; [|exact Hcounts0]. intros row (q & Hq & Hq2).
    now apply (level_of_count row q Hq). }
  assert (Hs1 : share rows 1 = 0).
  { unfold share. rewrite weightOf_none.
    - field. lra.
    - apply List.Forall_forall. intros l Hl. apply List.in_map_iff in Hl.
      destruct Hl as (row & <- & Hin).
      now rewrite (proj1 (List.Forall_forall _ _) Hall0 row Hin). }
  rewrite Hs1. unfold clamp01, Rmax, Rmin.
  destruct (Rle_dec 1 _); destruct (Rle_dec 0 _); lra.
Qed.

(** The theorem at 20 readings without any insect. *)
Lemma calm_history_is_low_witness :
  riskScore (forecastRows cleanTraps) = 0
  /\ riskLevel (forecastRows cleanTraps) = "low"%string.
Proof.
  assert (H2 : Forall (fun row =>
                         exists q, estimated_pest_count row = lit q
                                   /\ (q <= 2)%Q) cleanTraps).
  { repeat (apply List.Forall_cons;
            [exists 0%Q; split; [reflexivity | vm_compute; discriminate]|]).
    apply List.Forall_nil. }
  assert (H5 : Forall (fun row =>
                         exists q, estimated_pest_count row = lit q
                                   /\ (q <= 5)%Q) cleanTraps).
  { eapply List.Forall_impl; [|exact H2]. intros row (q & Hq & Hle).
    exists q. split; [exact Hq | Lqa.lra]. }
  destruct (calm_history_is_low cleanTraps ltac:(discriminate) H5)
    as (_ & _ & _ & Hlow & Hzero).
  split; [exact (Hzero H2) | exact Hlow].
Defined.

End ForecasterBounds.

(** ** The heat trend of a community *)
Module HeatTrendFacts.
Import JS Exn Community HeatTrend CommunityFacts.
Local Open Scope string_scope.

Lemma stressOrdinal_severity row :
  scored row ->
  stressOrdinal row
  = match heat_stress_level row with
    | Some level => Advice.severity level
    | None => 0%Z
    end.
Proof.
  intros (level & Hl & Hin). unfold stressOrdinal. rewrite Hl.
  simpl in Hin.
  destruct Hin as [<- | [<- | [<- | [<- | [<- | []]]]]]; reflexivity.
Qed.

Lemma fold_left_add_right xs acc :
  fold_left Z.add xs acc = (acc + fold_right Z.add 0 xs)%Z.
Proof.
  revert acc. induction xs as [|x xs IH]; intros acc; simpl; [lia|].
  rewrite IH. lia.
Qed.

Lemma average_meanSeverity rows :
  Forall scored rows -> average (map stressOrdinal rows) = meanSeverity rows.
Proof.
  intros Hall. unfold average, meanSeverity.
  rewrite fold_left_add_right, Z.add_0_l, length_map. do 3 f_equal.
  induction Hall as [|row rows Hrow _ IH]; [reflexivity|].
  cbn [map]. now rewrite IH, stressOrdinal_severity.
Qed.

Lemma heatTrendBody_scored areaId db filterType rows userCount :
  heatFetch db filterType areaId = ret rows ->
  rows <> [] ->
  Forall scored rows ->
  getCommunityUserCountMicroclimate db areaId
  = ret (Some {| user_count := userCount |}) ->
  heatTrendBody areaId db filterType
  = ret (let '(trend, level) := heatTrendOfMean (meanSeverity rows) in
         {| h_trend := trend; heatStressLevel := level;
            h_participation := userCount;
            h_confidence := heatConfidenceOf trend |}).
Proof.
  intros Hfetch Hne Hall Hcount. unfold heatTrendBody.
  fold (heatFetch db filterType areaId). rewrite Hfetch. simpl.
  destruct rows as [|row rows]; [contradiction|].
  change (length (row :: rows) =? 0)%nat with false. cbv iota.
  rewrite (average_meanSeverity _ Hall), Hcount. unfold heatTrendOfMean.
  destruct (Qle_bool 3.5 _); [reflexivity|].
  destruct (Qle_bool 2.5 _); [reflexivity|].
  destruct (Qle_bool 1.5 _); [reflexivity|].
  destruct (Qle_bool 0.5 _); reflexivity.
Qed.

(** X11: for a non-empty window of readings whose levels the scorer
    produced (and a participant count that the store returns), the heat
    trend and level follow the mean severity (minimal 0 to critical 4):
    from 3.5 critical_conditions/critical, from 2.5 elevated_conditions/high,
    from 1.5 moderate_conditions/moderate, from 0.5 mild_conditions/low,
    below optimal_conditions/minimal; the confidence is high, high, medium,
    medium, high in that order, and the participation is the store's
    count. *)
Theorem heat_trend_table areaId db filterType rows userCount :
  heatFetch db filterType areaId = ret rows ->
  rows <> [] ->
  Forall scored rows ->
  getCommunityUserCountMicroclimate db areaId
  = ret (Some {| user_count := userCount |}) ->
  let t := computeCommunityHeatStressTrend areaId db filterType in
  (h_trend t, heatStressLevel t) = heatTrendOfMean (meanSeverity rows)
  /\ h_confidence t = heatConfidenceOf (h_trend t)
  /\ h_participation t = userCount.
Proof.
  intros Hfetch Hne Hall Hcount. cbv zeta.
  unfold computeCommunityHeatStressTrend.
  rewrite (heatTrendBody_scored _ _ _ _ _ Hfetch Hne Hall Hcount).
  destruct (heatTrendOfMean (meanSeverity rows)) as [tr lv]. simpl. auto.
Qed.

Lemma reading_scored user a s m r : scored (reading user a s m r).
Proof.
  eexists. split; [reflexivity|]. apply HeatStressFacts.level_in_levels.
Qed.

(** The theorem at a window of one hot and one mild reading. *)
Lemma heat_trend_table_witness :
  let rows := [reading "ana" 36 31 15 20; reading "ben" 20 20 50 60] in
  let t := computeCommunityHeatStressTrend "area" (storeOf rows 2) "recent" in
  (h_trend t, heatStressLevel t) = ("moderate_conditions", "moderate")
  /\ h_confidence t = "medium".
Proof.
  cbv zeta.
  destruct (heat_trend_table "area"
              (storeOf [reading "ana" 36 31 15 20; reading "ben" 20 20 50 60] 2)
              "recent" _ 2%Z eq_refl ltac:(discriminate)
              ltac:(repeat constructor; apply reading_scored) eq_refl)
    as (H1 & H2 & _).
  split; [exact H1 | exact H2].
Defined.

Lemma heatTrendOfMean_Qeq q1 q2 :
  (q1 == q2)%Q -> heatTrendOfMean q1 = heatTrendOfMean q2.
Proof.
  intros H. unfold heatTrendOfMean.
  now rewrite !(Qleb_comp _ _ (Qeq_refl _) q1 q2 H).
Qed.

Lemma meanSeverity_uniform rows level :
  rows <> [] ->
  Forall (fun row => heat_stress_level row = Some level) rows ->
  (meanSeverity rows == inject_Z (Advice.severity level))%Q.
Proof.
  intros Hne Hall. unfold meanSeverity.
  assert (Hsum :
    fold_right Z.add 0%Z
      (map (fun row => match heat_stress_level row with
                       | Some level => Advice.severity level
                       | None => 0%Z
                       end) rows)
    = (Advice.severity level * Z.of_nat (length rows))%Z).
  { induction Hall as [|row rows' Hrow _ IH]; [simpl; lia|].
    cbn [map fold_right length]. rewrite Hrow.
    destruct rows' as [|r' rows'']; [simpl; lia|].
    rewrite IH by discriminate. lia. }
  rewrite Hsum, inject_Z_mult. apply Qdiv_mult_l.
  intros H0. destruct rows; [contradiction|].
  apply (Qeq_bool_neq (inject_Z (Z.of_nat (length (m :: rows)))) 0);
    [|assumption].
  reflexivity.
Qed.

(** X12: when every reading of a non-empty window carries the same level,
    one the scorer can return, the community reports exactly that level. *)
Theorem uniform_community_keeps_level areaId db filterType rows userCount level :
  heatFetch db filterType areaId = ret rows ->
  rows <> [] ->
  getCommunityUserCountMicroclimate db areaId
  = ret (Some {| user_count := userCount |}) ->
  In level HeatStress.levels ->
  Forall (fun row => heat_stress_level row = Some level) rows ->
  heatStressLevel (computeCommunityHeatStressTrend areaId db filterType)
  = level.
Proof.
  intros Hfetch Hne Hcount Hin Hall.
  assert (Hscored : Forall scored rows).
  { eapply List.Forall_impl; [|exact Hall]. intros row Hrow. exists level. auto. }
  unfold computeCommunityHeatStressTrend.
  rewrite (heatTrendBody_scored _ _ _ _ _ Hfetch Hne Hscored Hcount).
  rewrite (heatTrendOfMean_Qeq _ _ (meanSeverity_uniform rows level Hne Hall)).
  simpl in Hin.
  destruct Hin as [<- | [<- | [<- | [<- | [<- | []]]]]]; reflexivity.
Qed.

(** The theorem at a window of two readings scored critical. *)
Lemma uniform_community_keeps_level_witness :
  let rows := [reading "ana" 36 31 15 20; reading "ben" 37 32 10 10] in
  heatStressLevel
    (computeCommunityHeatStressTrend "area" (storeOf rows 2) "all")
  = "critical".
Proof.
  cbv zeta.
  apply (uniform_community_keeps_level "area"
           (storeOf [reading "ana" 36 31 15 20; reading "ben" 37 32 10 10] 2)
           "all" _ 2%Z "critical" eq_refl ltac:(discriminate) eq_refl).
  - simpl. auto.
  - repeat constructor.
Defined.

End HeatTrendFacts.

(** ** The heat stress forecast of a user *)
Module HeatForecastFacts.
Import JS Exn Advice Routes.
Local Open Scope string_scope.

Lemma fold_left_add_bounds lo hi (xs : list Z) acc :
  Forall (fun x => lo <= x <= hi)%Z xs ->
  (acc + lo * Z.of_nat (length xs) <= fold_left Z.add xs acc
   <= acc + hi * Z.of_nat (length xs))%Z.
Proof.
  intros H. revert acc. induction H as [|x xs Hx _ IH]; intros acc.
  - simpl. lia.
  - cbn [fold_left length]. specialize (IH (acc + x)%Z). lia.
Qed.

Lemma average_between lo hi (xs : list Z) :
  xs <> [] ->
  Forall (fun x => lo <= x <= hi)%Z xs ->
  (inject_Z lo <= Community.average xs <= inject_Z hi)%Q.
Proof.
  intros Hne Hall. unfold Community.average.
  pose proof (fold_left_add_bounds lo hi xs 0 Hall) as [Hlo Hhi].
  assert (Hn : (0 < Z.of_nat (length xs))%Z).
  { destruct xs; [contradiction | simpl; lia]. }
  assert (Hpos : (0 < inject_Z (Z.of_nat (length xs)))%Q).
  { now rewrite <- (Zlt_Qlt 0). }
  split.
  - apply Qle_shift_div_l; [assumption|].
    rewrite <- inject_Z_mult, <- Zle_Qle. lia.
  - apply Qle_shift_div_r; [assumption|].
    rewrite <- inject_Z_mult, <- Zle_Qle. lia.
Qed.

Lemma Math_round_between lo hi (q : Q) :
  (inject_Z lo <= q <= inject_Z hi)%Q -> (lo <= Math_round q <= hi)%Z.
Proof.
  intros [Hlo Hhi]. unfold Math_round. split.
  - rewrite <- (Qfloor_Z lo). apply Qfloor_resp_le. Lqa.lra.
  - assert (H : (inject_Z (Qfloor (q + (1 # 2))) < inject_Z (hi + 1))%Q).
    { eapply Qle_lt_trans; [apply Qfloor_le|].
      rewrite inject_Z_plus. change (inject_Z 1) with 1%Q. Lqa.lra. }
    rewrite <- Zlt_Qlt in H. lia.
Qed.

Lemma levelAt_severity k :
  (0 <= k <= 4)%Z -> exists level, levelAt k = Some level /\ severity level = k.
Proof.
  intros Hk.
  assert (Hcases : (k = 0 \/ k = 1 \/ k = 2 \/ k = 3 \/ k = 4)%Z) by lia.
  destruct Hcases as [-> | [-> | [-> | [-> | ->]]]]; eexists;
    split; reflexivity.
Qed.

Lemma overallStress_between rows lo hi :
  rows <> [] -> (0 <= lo)%Z -> (hi <= 4)%Z ->
  Forall (fun row => lo <= severity (r_heat_stress_level row) <= hi)%Z rows ->
  exists level,
    overallStress rows = (Some level, heatStressAdviceForLevel (Some level))
    /\ (lo <= severity level <= hi)%Z.
Proof.
  intros Hne Hlo Hhi Hall. unfold overallStress. cbv zeta.
  set (stressCounts := map _ rows).
  assert (Hcounts : Forall (fun x => lo <= x <= hi)%Z stressCounts).
  { subst stressCounts. apply List.Forall_forall. intros x Hx.
    apply List.in_map_iff in Hx as (row & <- & Hin).
    apply (proj1 (List.Forall_forall _ _) Hall row Hin). }
  assert (Hne' : stressCounts <> []).
  { subst stressCounts. destruct rows; [contradiction | discriminate]. }
  pose proof (Math_round_between lo hi _
                (average_between lo hi stressCounts Hne' Hcounts)) as Hround.
  set (rounded := Math_round (Community.average stressCounts)) in *.
  replace (Z.min rounded (Z.of_nat (length stressLevels) - 1)) with rounded
    by (simpl; lia).
  destruct (levelAt_severity rounded ltac:(lia)) as (level & Hlevel & Hsev).
  exists level. rewrite Hlevel. split; [reflexivity | lia].
Qed.

(** X13: the forecast of a window without rows is minimal with the advice
    that no recent data is available.  For a non-empty window whose levels
    are all known, the overall level is known too and lies between the
    mildest and the most severe level of the window (so a window of one
    level keeps it), the advice is the advice of that level, and at most
    five rows are listed as details. *)
Theorem heat_forecast_within_readings recent username areaId rows :
  truthyText (Some areaId) = true ->
  recent username areaId = ret rows ->
  exists body,
    heatStressForecast recent username (Some areaId) = Sent 200 body
    /\ hf_recentSubmissions body = length rows
    /\ (length (hf_details body) <= 5)%nat
    /\ (rows = [] ->
        hf_heatStressLevel body = Some "minimal"
        /\ hf_advice body = "No recent data available.")
    /\ (forall lo hi,
          rows <> [] -> (0 <= lo)%Z -> (hi <= 4)%Z ->
          Forall (fun row => lo <= severity (r_heat_stress_level row) <= hi)%Z
            rows ->
          exists level,
            hf_heatStressLevel body = Some level
            /\ (lo <= severity level <= hi)%Z
            /\ hf_advice body = heatStressAdviceForLevel (Some level)).
Proof.
  intros Harea Hfetch. unfold heatStressForecast. rewrite Harea, Hfetch.
  cbn [negb bind try_catch ret].
  destruct rows as [|row rows].
  - eexists. split; [reflexivity|]. cbn.
    split; [reflexivity|]. split; [lia|]. split; [auto|].
    intros lo hi Hne. contradiction.
  - change (Nat.ltb 0 (length (row :: rows))) with true. cbv iota.
    destruct (overallStress (row :: rows)) as [level advice] eqn:Hover.
    eexists. split; [reflexivity|].
    cbn [hf_recentSubmissions hf_details hf_heatStressLevel hf_advice].
    split; [reflexivity|].
    split; [rewrite length_map, length_take; lia|].
    split; [discriminate|].
    intros lo hi Hne Hlo Hhi Hall.
    destruct (overallStress_between _ lo hi Hne Hlo Hhi Hall)
      as (l & Heq & Hsev).
    rewrite Hover in Heq. injection Heq as -> ->.
    exists l. auto.
Qed.

Lemma heat_forecast_within_readings_witness :
  exists body,
    heatStressForecast
      (fun _ _ =>
         ret [ {| r_air_temperature := lit 36; r_relative_humidity := lit 20;
                  r_heat_stress_level := "critical" |};
               {| r_air_temperature := lit 33; r_relative_humidity := lit 40;
                  r_heat_stress_level := "high" |};
               {| r_air_temperature := lit 34; r_relative_humidity := lit 35;
                  r_heat_stress_level := "high" |} ])
      "ana" (Some "Portugal")
    = Sent 200 body
    /\ exists level,
         hf_heatStressLevel body = Some level /\ (3 <= severity level <= 4)%Z.
Proof.
  destruct (heat_forecast_within_readings
              (fun _ _ =>
                 ret [ {| r_air_temperature := lit 36;
                          r_relative_humidity := lit 20;
                          r_heat_stress_level := "critical" |};
                       {| r_air_temperature := lit 33;
                          r_relative_humidity := lit 40;
                          r_heat_stress_level := "high" |};
                       {| r_air_temperature := lit 34;
                          r_relative_humidity := lit 35;
                          r_heat_stress_level := "high" |} ])
              "ana" "Portugal" _ eq_refl eq_refl)
    as (body & Hsent & _ & _ & _ & Hbetween).
  exists body. split; [exact Hsent|].
  destruct (Hbetween 3%Z 4%Z ltac:(discriminate) ltac:(lia) ltac:(lia))
    as (level & Hlevel & Hsev & _).
  - repeat constructor; vm_compute; discriminate.
  - exists level. split; [exact Hlevel | exact Hsev].
Defined.

(** X14: the handler answers 400 when the query has no area and 500 with
    error forecast_failed when the store throws.  Levels are looked up as
    stored, so a non-empty window of rows whose level is none of the five
    names gives a response without a level, with the advice of the minimal
    level. *)
Theorem heat_forecast_edges recent username :
  (forall queryAreaId,
     truthyText queryAreaId = false ->
     heatStressForecast recent username queryAreaId
     = Failed 400 "areaId is required" None)
  /\ (forall areaId err,
        truthyText (Some areaId) = true ->
        recent username areaId = throw err ->
        heatStressForecast recent username (Some areaId)
        = Failed 500 "forecast_failed" (Some (messageOf err)))
  /\ (forall areaId rows,
        truthyText (Some areaId) = true ->
        recent username areaId = ret rows ->
        rows <> [] ->
        Forall (fun row => severity (r_heat_stress_level row) = (-1)%Z) rows ->
        exists body,
          heatStressForecast recent username (Some areaId) = Sent 200 body
          /\ hf_heatStressLevel body = None
          /\ hf_advice body
             = "Minimal heat stress: Optimal conditions for plant growth.").
Proof.
  split; [|split].
  - intros q Hq. unfold heatStressForecast. rewrite Hq. reflexivity.
  - intros areaId err Harea Hfetch. unfold heatStressForecast.
    rewrite Harea, Hfetch. reflexivity.
  - intros areaId rows Harea Hfetch Hne Hall. unfold heatStressForecast.
    rewrite Harea, Hfetch. cbn [negb bind try_catch ret].
    destruct rows as [|row rows]; [contradiction|].
    change (Nat.ltb 0 (length (row :: rows))) with true. cbv iota.
    assert (Hover : overallStress (row :: rows)
                    = (None, heatStressAdviceForLevel None)).
    { unfold overallStress. cbv zeta.
      set (stressCounts := map _ (row :: rows)).
      assert (Hcounts : Forall (fun x => -1 <= x <= -1)%Z stressCounts).
      { subst stressCounts. apply List.Forall_forall. intros x Hx.
        apply List.in_map_iff in Hx as (r & <- & Hin).
        pose proof (proj1 (List.Forall_forall _ _) Hall r Hin) as Hr.
        cbv beta in Hr. unfold severity in Hr. lia. }
      assert (Hne' : stressCounts <> []) by (subst stressCounts; discriminate).
      pose proof (Math_round_between (-1) (-1) _
                    (average_between (-1) (-1) stressCounts Hne' Hcounts))
        as Hround.
      replace (Math_round (Community.average stressCounts)) with (-1)%Z by lia.
      reflexivity. }
    rewrite Hover. eexists. split; [reflexivity|]. split; reflexivity.
Qed.

Lemma heat_forecast_edges_witness :
  heatStressForecast (fun _ _ => throw (StoreError "database is locked"))
    "ana" (Some "Portugal")
  = Failed 500 "forecast_failed" (Some "database is locked").
Proof.
  exact (proj1 (proj2 (heat_forecast_edges
                         (fun _ _ => throw (StoreError "database is locked"))
                         "ana"))
           "Portugal" (StoreError "database is locked") eq_refl eq_refl).
Defined.

End HeatForecastFacts.

(** ** The pest forecast of a user *)
Module PestForecastFacts.
Import JS Exn Advice Routes Forecaster ForecasterFacts.
Local Open Scope string_scope.
Local Open Scope R_scope.

Lemma forecastRows_level rows :
  riskLevel (forecastRows rows) = computeRiskLevel (riskScore (forecastRows rows))
  /\ 0 <= riskScore (forecastRows rows) <= 1.
Proof.
  destruct rows as [|row rows].
  - unfold forecastRows. cbn [length Nat.eqb riskLevel riskScore]. split; [reflexivity | lra].
  - rewrite (forecastRows_nonempty (row :: rows)) by discriminate.
    cbv zeta. cbn [riskLevel riskScore]. split; [reflexivity|].
    apply clamp01_range.
Qed.

Lemma advice_of_score score :
  (score >= 0.8 ->
   simpleAdviceForLevel (Some (computeRiskLevel score))
   = "High risk: Inspect traps now and consider treatment."%string)
  /\ (0.5 <= score < 0.8 ->
      simpleAdviceForLevel (Some (computeRiskLevel score))
      = "Medium risk: Monitor closely; check traps later today."%string)
  /\ (score < 0.5 ->
      simpleAdviceForLevel (Some (computeRiskLevel score))
      = "Low risk: Routine monitoring is sufficient."%string).
Proof.
  unfold computeRiskLevel.
  destruct (Rge_dec score 0.8); [|destruct (Rge_dec score 0.5)];
    (split; [|split]); intros H; try reflexivity; lra.
Qed.

(** X15: the pest forecast handler reads the area of the query, or
    greenhouse-1 when the query has none.  When the store throws it answers
    500 with error forecast_failed; otherwise it answers 200 with a score
    in [0, 1] and the advice of that score: the inspect-now advice from
    0.8, the monitor-closely advice from 0.5, the routine advice below. *)
Theorem pest_forecast_advice db username queryAreaId :
  let areaId :=
    match queryAreaId with
    | Some (String c rest) => String c rest
    | _ => "greenhouse-1"%string
    end in
  (forall err,
     recentImages db username areaId = throw err ->
     pestForecastHandler db username queryAreaId
     = Failed 500 "forecast_failed" (Some (messageOf err)))
  /\ (forall rows,
        recentImages db username areaId = ret rows ->
        exists body,
          pestForecastHandler db username queryAreaId = Sent 200 body
          /\ pf_areaId body = areaId
          /\ 0 <= pf_riskScore body <= 1
          /\ levelOf (pf_riskScore body) (pf_riskLevel body)
          /\ (pf_riskScore body >= 0.8 ->
              pf_advice body
              = "High risk: Inspect traps now and consider treatment."%string)
          /\ (0.5 <= pf_riskScore body < 0.8 ->
              pf_advice body
              = "Medium risk: Monitor closely; check traps later today."%string)
          /\ (pf_riskScore body < 0.5 ->
              pf_advice body
              = "Low risk: Routine monitoring is sufficient."%string)).
Proof.
  cbv zeta.
  assert (Harea :
    (if truthyText queryAreaId
     then match queryAreaId with Some a => a | None => ""%string end
     else "greenhouse-1"%string)
    = match queryAreaId with
      | Some (String c rest) => String c rest
      | _ => "greenhouse-1"%string
      end).
  { destruct queryAreaId as [[|c rest]|]; reflexivity. }
  unfold pestForecastHandler. cbv zeta. rewrite Harea.
  set (areaId := match queryAreaId with
                 | Some (String c rest) => String c rest
                 | _ => "greenhouse-1"%string
                 end).
  unfold computeForecastForArea.
  split.
  - intros err Hfetch. rewrite Hfetch. reflexivity.
  - intros rows Hfetch. rewrite Hfetch. cbn [bind ret try_catch].
    eexists. split; [reflexivity|].
    cbn [pf_areaId pf_riskScore pf_riskLevel pf_advice].
    destruct (forecastRows_level rows) as [Hlevel Hrange].
    rewrite Hlevel.
    split; [reflexivity|]. split; [exact Hrange|].
    split; [apply computeRiskLevel_levelOf|].
    apply advice_of_score.
Qed.

Lemma pest_forecast_advice_witness :
  exists body,
    pestForecastHandler emptyDb "ana" None = Sent 200 body
    /\ pf_areaId body = "greenhouse-1"%string
    /\ pf_advice body = "Low risk: Routine monitoring is sufficient."%string.
Proof.
  destruct (proj2 (pest_forecast_advice emptyDb "ana" None) [] eq_refl)
    as (body & Hsent & Harea & Hrange & Hlevel & _ & _ & Hlow).
  exists body. split; [exact Hsent|]. split; [exact Harea|].
  apply Hlow.
  destruct Hlevel as [[Hs Hl] | [(_ & _ & Hl) | [Hs _]]];
    [| | exact Hs];
    (injection Hsent as <-; cbn [pf_riskLevel] in Hl;
     unfold forecastRows in Hl; cbn [length Nat.eqb riskLevel] in Hl;
     unfold computeRiskLevel in Hl;
     destruct (Rge_dec 0.1 0.8); [lra|];
     destruct (Rge_dec 0.1 0.5); [lra|]; discriminate Hl).
Defined.

End PestForecastFacts.

(** ** The community counts *)
Module CountsFacts.
Import JS Exn Routes.
Local Open Scope string_scope.

Lemma keys_increment key (c : counts) : map fst (increment key c) = map fst c.
Proof.
  unfold increment. rewrite List.map_map. apply List.map_ext.
  intros [k n]. cbn [fst snd]. destruct (String.eqb k key); reflexivity.
Qed.

Lemma countOf_increment k key (c : counts) :
  countOf k (increment key c)
  = if String.eqb key k then option_map S (countOf k c) else countOf k c.
Proof.
  induction c as [|[a n] c IH].
  - simpl. destruct (String.eqb key k); reflexivity.
  - unfold increment in *. cbn [map fst snd].
    destruct (String.eqb a key) eqn:Eak; cbn [countOf];
      destruct (String.eqb a k) eqn:Ea; destruct (String.eqb key k) eqn:Ek;
      try reflexivity; try exact IH;
      rewrite ?String.eqb_eq, ?String.eqb_neq in *; congruence.
Qed.

Lemma totalCount_increment_absent key (c : counts) :
  ~ In key (map fst c) -> increment key c = c.
Proof.
  induction c as [|[a n] c IH]; intros Hnot; [reflexivity|].
  cbn [increment map fst snd] in *.
  destruct (String.eqb_spec a key) as [-> | Hne].
  - exfalso. apply Hnot. now left.
  - f_equal. apply IH. intros Hin. apply Hnot. now right.
Qed.

Lemma totalCount_cons a n (c : counts) :
  totalCount ((a, n) :: c) = (n + totalCount c)%nat.
Proof. reflexivity. Qed.

Lemma increment_cons key a n (c : counts) :
  increment key ((a, n) :: c)
  = (if String.eqb a key then (a, S n) else (a, n)) :: increment key c.
Proof. reflexivity. Qed.

Lemma totalCount_increment key (c : counts) :
  List.NoDup (map fst c) -> In key (map fst c) ->
  totalCount (increment key c) = S (totalCount c).
Proof.
  induction c as [|[a n] c IH]; intros Hnd Hin; [destruct Hin|].
  cbn [map fst] in Hnd, Hin. apply List.NoDup_cons_iff in Hnd as [Hnot Hnd].
  rewrite increment_cons.
  destruct (String.eqb_spec a key) as [-> | Hne];
    rewrite !totalCount_cons.
  - rewrite (totalCount_increment_absent key c Hnot). lia.
  - destruct Hin as [-> | Hin]; [contradiction|].
    rewrite (IH Hnd Hin). lia.
Qed.

Lemma includes_In levelKeys key :
  includes levelKeys (Some key) = true <-> In key levelKeys.
Proof.
  unfold includes. rewrite List.existsb_exists. split.
  - intros (x & Hin & Heq). apply String.eqb_eq in Heq. now subst.
  - intros Hin. exists key. split; [assumption | apply String.eqb_refl].
Qed.

(** The loop, from any object with the keys of the list. *)
Lemma countRows_from levelKeys keyOf rows : forall c0 : counts,
  List.NoDup levelKeys ->
  map fst c0 = levelKeys ->
  let c :=
    fold_left
      (fun c row =>
         let key := keyOf row in
         if includes levelKeys key
         then match key with Some k => increment k c | None => c end
         else c)
      rows c0 in
  map fst c = levelKeys
  /\ (forall k,
        In k levelKeys ->
        countOf k c
        = option_map (Nat.add (length (rowsWithKey keyOf k rows)))
            (countOf k c0))
  /\ totalCount c
     = totalCount c0
       + length (List.filter (fun row => includes levelKeys (keyOf row)) rows).
Proof.
  cbv zeta. induction rows as [|row rows IH]; intros c0 Hnd Hkeys.
  - cbn [fold_left rowsWithKey List.filter length]. split; [assumption|].
    split; [|lia]. intros k _. destruct (countOf k c0); reflexivity.
  - cbn [fold_left rowsWithKey List.filter].
    destruct (keyOf row) as [key|] eqn:Hkey.
    + destruct (includes levelKeys (Some key)) eqn:Hinc.
      * apply includes_In in Hinc.
        destruct (IH (increment key c0) Hnd
                    ltac:(now rewrite keys_increment))
          as (Hk & Hcount & Htotal).
        split; [exact Hk|]. split.
        -- intros k Hin. rewrite (Hcount k Hin), countOf_increment.
           fold (rowsWithKey keyOf k rows).
           destruct (String.eqb key k); cbn [length];
             destruct (countOf k c0); cbn [option_map]; f_equal; lia.
        -- rewrite Htotal, totalCount_increment
             by (rewrite ?Hkeys; assumption).
           cbn [length]. lia.
      * destruct (IH c0 Hnd Hkeys) as (Hk & Hcount & Htotal).
        split; [exact Hk|]. split; [|exact Htotal].
        intros k Hin. rewrite (Hcount k Hin). fold (rowsWithKey keyOf k rows).
        destruct (String.eqb_spec key k) as [-> | _]; [|reflexivity].
        apply includes_In in Hin. congruence.
    + cbn [includes].
      destruct (IH c0 Hnd Hkeys) as (Hk & Hcount & Htotal).
      split; [exact Hk|]. split; [|exact Htotal].
      intros k Hin. rewrite (Hcount k Hin). reflexivity.
Qed.

Lemma countOf_zeroCounts levelKeys k :
  In k levelKeys -> countOf k (zeroCounts levelKeys) = Some 0%nat.
Proof.
  induction levelKeys as [|a l IH]; intros Hin; [destruct Hin|].
  cbn [zeroCounts map countOf]. destruct (String.eqb_spec a k) as [_ | Hne];
    [reflexivity|].
  destruct Hin as [-> | Hin]; [contradiction|]. apply IH, Hin.
Qed.

Lemma totalCount_zeroCounts levelKeys : totalCount (zeroCounts levelKeys) = 0%nat.
Proof.
  unfold totalCount, zeroCounts. rewrite List.map_map. cbn [snd].
  induction levelKeys; simpl; auto.
Qed.

(** What both handlers send for the selected rows. *)
Lemma communityCounts_rows levelKeys keyOf select type rows :
  List.NoDup levelKeys ->
  select = ret rows ->
  exists body,
    communityCounts levelKeys keyOf select type = Sent 200 body
    /\ cb_type body = type
    /\ cb_totalSubmissions body = length rows
    /\ map fst (cb_counts body) = levelKeys
    /\ (forall k,
          In k levelKeys ->
          countOf k (cb_counts body)
          = Some (length (rowsWithKey keyOf k rows)))
    /\ totalCount (cb_counts body)
       = length (List.filter (fun row => includes levelKeys (keyOf row)) rows).
Proof.
  intros Hnd ->. unfold communityCounts. cbn [bind ret try_catch].
  eexists. split; [reflexivity|].
  cbn [cb_type cb_totalSubmissions cb_counts].
  split; [reflexivity|]. split; [reflexivity|].
  destruct (countRows_from levelKeys keyOf rows (zeroCounts levelKeys) Hnd)
    as (Hk & Hcount & Htotal).
  { unfold zeroCounts. rewrite List.map_map. cbn [fst]. apply List.map_id. }
  unfold countRows. cbv zeta in *.
  split; [exact Hk|]. split.
  - intros k Hin. rewrite (Hcount k Hin).
    rewrite (countOf_zeroCounts levelKeys k Hin). cbn [option_map].
    f_equal. lia.
  - rewrite Htotal, totalCount_zeroCounts. reflexivity.
Qed.

Lemma filter_length_all {A} (f : A -> bool) (l : list A) :
  Forall (fun x => f x = true) l -> length (List.filter f l) = length l.
Proof.
  induction 1 as [|x l Hx _ IH]; [reflexivity|].
  cbn [List.filter]. rewrite Hx. cbn [length]. now rewrite IH.
Qed.

Lemma pestLevelKeys_NoDup : List.NoDup pestLevelKeys.
Proof.
  unfold pestLevelKeys.
  repeat (apply List.NoDup_cons;
          [cbn [In]; intros H;
           repeat (destruct H as [H | H]; [discriminate H|]); exact H|]).
  apply List.NoDup_nil.
Qed.

Lemma heatLevelKeys_NoDup : List.NoDup heatLevelKeys.
Proof.
  unfold heatLevelKeys.
  repeat (apply List.NoDup_cons;
          [cbn [In]; intros H;
           repeat (destruct H as [H | H]; [discriminate H|]); exact H|]).
  apply List.NoDup_nil.
Qed.

(** The categories of the classifier are keys of the pest counts. *)
Lemma category_is_key estimatedCount darkPixelRatio :
  includes pestLevelKeys
    (pestKey (Some (Classifier.categorizePestAmount estimatedCount
                      darkPixelRatio)))
  = true.
Proof.
  destruct (ClassifierOrder.categorize_position estimatedCount darkPixelRatio)
    as (k & Hk & -> & _).
  destruct k as [|[|[|[|[|k]]]]]; try reflexivity. lia.
Qed.

(** The levels of the scorer are keys of the heat counts. *)
Lemma level_is_key a s m r :
  includes heatLevelKeys (heatKey (Some (HeatStress.computeHeatStressLevel a s m r)))
  = true.
Proof.
  pose proof (HeatStressFacts.level_in_levels a s m r) as Hin.
  unfold HeatStress.levels in Hin. cbn [In] in Hin.
  repeat (destruct Hin as [<- | Hin]; [reflexivity|]). destruct Hin.
Qed.

(** X16: the pest counts handler answers 500 with error counts_failed when
    the store throws.  Otherwise the object it sends has exactly the five
    keys very_low, low, moderate, high, very_high; the number under a key
    is the number of rows whose pest amount, in lower case and with its
    first space replaced by an underscore, is that key; the numbers sum to
    at most totalSubmissions, and to exactly totalSubmissions when every
    row holds a category of the classifier. *)
Theorem community_pest_counts select type :
  (forall err,
     select = throw err ->
     communityPestCounts select type
     = Failed 500 "counts_failed" (Some (messageOf err)))
  /\ (forall rows,
        select = ret rows ->
        exists body,
          communityPestCounts select type = Sent 200 body
          /\ cb_totalSubmissions body = length rows
          /\ map fst (cb_counts body) = pestLevelKeys
          /\ (forall k,
                In k pestLevelKeys ->
                countOf k (cb_counts body)
                = Some (length (rowsWithKey pestKey k rows)))
          /\ (totalCount (cb_counts body) <= length rows)%nat
          /\ (Forall
                (fun row =>
                   exists estimatedCount darkPixelRatio,
                     row = Some (Classifier.categorizePestAmount
                                   estimatedCount darkPixelRatio))
                rows ->
              totalCount (cb_counts body) = length rows)).
Proof.
  split.
  - intros err ->. reflexivity.
  - intros rows Hsel.
    destruct (communityCounts_rows pestLevelKeys pestKey select type rows
                pestLevelKeys_NoDup Hsel)
      as (body & Hsent & _ & Hn & Hkeys & Hcount & Htotal).
    exists body. split; [exact Hsent|]. split; [exact Hn|].
    split; [exact Hkeys|]. split; [exact Hcount|]. rewrite Htotal. split.
    + apply List.filter_length_le.
    + intros Hall. apply filter_length_all.
      eapply List.Forall_impl; [|exact Hall].
      intros row (e & d & ->). apply category_is_key.
Qed.

Lemma community_pest_counts_witness :
  exists body,
    communityPestCounts
      (ret [Some "Very High"; None; Some "low"; Some "very  high";
            Some "very high"]) "recent"
    = Sent 200 body
    /\ countOf "very_high" (cb_counts body) = Some 2%nat
    /\ countOf "low" (cb_counts body) = Some 1%nat
    /\ cb_totalSubmissions body = 5%nat.
Proof.
  destruct (proj2 (community_pest_counts
                     (ret [Some "Very High"; None; Some "low";
                           Some "very  high"; Some "very high"]) "recent")
              _ eq_refl)
    as (body & Hsent & Hn & _ & Hcount & _).
  exists body. split; [exact Hsent|].
  split; [|split; [|exact Hn]]; apply Hcount; cbn; tauto.
Defined.

(** X17: the heat counts handler answers 500 with error counts_failed when
    the store throws.  Otherwise the object it sends has exactly the five
    keys minimal, low, moderate, high, critical; the number under a key is
    the number of rows whose level in lower case is that key; the numbers
    sum to at most totalSubmissions, and to exactly totalSubmissions when
    every row holds a level of the scorer. *)
Theorem community_heat_counts select type :
  (forall err,
     select = throw err ->
     communityHeatCounts select type
     = Failed 500 "counts_failed" (Some (messageOf err)))
  /\ (forall rows,
        select = ret rows ->
        exists body,
          communityHeatCounts select type = Sent 200 body
          /\ cb_totalSubmissions body = length rows
          /\ map fst (cb_counts body) = heatLevelKeys
          /\ (forall k,
                In k heatLevelKeys ->
                countOf k (cb_counts body)
                = Some (length (rowsWithKey heatKey k rows)))
          /\ (totalCount (cb_counts body) <= length rows)%nat
          /\ (Forall
                (fun row =>
                   exists a s m r,
                     row = Some (HeatStress.computeHeatStressLevel a s m r))
                rows ->
              totalCount (cb_counts body) = length rows)).
Proof.
  split.
  - intros err ->. reflexivity.
  - intros rows Hsel.
    destruct (communityCounts_rows heatLevelKeys heatKey select type rows
                heatLevelKeys_NoDup Hsel)
      as (body & Hsent & _ & Hn & Hkeys & Hcount & Htotal).
    exists body. split; [exact Hsent|]. split; [exact Hn|].
    split; [exact Hkeys|]. split; [exact Hcount|]. rewrite Htotal. split.
    + apply List.filter_length_le.
    + intros Hall. apply filter_length_all.
      eapply List.Forall_impl; [|exact Hall].
      intros row (a & s & m & r & ->). apply level_is_key.
Qed.

Lemma community_heat_counts_witness :
  exists body,
    communityHeatCounts
      (ret [Some "critical"; Some "Critical"; Some "severe"; Some "minimal"])
      "all"
    = Sent 200 body
    /\ countOf "critical" (cb_counts body) = Some 2%nat
    /\ countOf "minimal" (cb_counts body) = Some 1%nat
    /\ cb_totalSubmissions body = 4%nat.
Proof.
  destruct (proj2 (community_heat_counts
                     (ret [Some "critical"; Some "Critical"; Some "severe";
                           Some "minimal"]) "all")
              _ eq_refl)
    as (body & Hsent & Hn & _ & Hcount & _).
  exists body. split; [exact Hsent|].
  split; [|split; [|exact Hn]]; apply Hcount; cbn; tauto.
Defined.

End CountsFacts.

(** ** Submitting a microclimate reading *)
Module SubmitFacts.
Import JS Exn Advice Routes HeatStress.
Local Open Scope string_scope.

Lemma orUnknownLocation_nonempty x : orUnknownLocation x <> "".
Proof.
  unfold orUnknownLocation. destruct x as [[|c rest]|]; discriminate.
Qed.

Lemma userCountryOf_nonempty lookup : userCountryOf lookup <> "".
Proof.
  unfold userCountryOf. destruct lookup as [err | profile].
  - discriminate.
  - cbn [bind ret try_catch]. apply orUnknownLocation_nonempty.
Qed.

Lemma accepted_number v :
  truthy v = true -> exists n, v = Number n /\ n <> NaN.
Proof.
  destruct v as [| |[|q| |]]; try discriminate; intros _; eexists;
    (split; [reflexivity | discriminate]).
Qed.

Lemma accepts_truthy a s m r :
  submitMicroclimateAccepts a s m r = true <->
  truthy a = true /\ truthy s = true /\ truthy m = true /\ truthy r = true.
Proof.
  unfold submitMicroclimateAccepts. split.
  - destruct (truthy a), (truthy s), (truthy m), (truthy r);
      cbn [negb orb]; try discriminate. auto.
  - intros (Ha & Hs & Hm & Hr).
    destruct (accepted_number a Ha) as (na & -> & Hna).
    destruct (accepted_number s Hs) as (ns & -> & Hns).
    destruct (accepted_number m Hm) as (nm & -> & Hnm).
    destruct (accepted_number r Hr) as (nr & -> & Hnr).
    rewrite Ha, Hs, Hm, Hr. cbn [negb orb].
    destruct na, ns, nm, nr; try contradiction; reflexivity.
Qed.

Lemma truthy_number v :
  truthy v = true <->
  v = Number PosInf \/ v = Number NegInf
  \/ exists q, v = lit q /\ ~ (q == 0)%Q.
Proof.
  split.
  - destruct v as [| |[|q| |]]; try discriminate; intros H; auto.
    right; right. exists q. split; [reflexivity|].
    cbn [truthy] in H. apply Bool.negb_true_iff in H.
    intros Hq. apply Qeq_bool_iff in Hq. congruence.
  - intros [-> | [-> | (q & -> & Hq)]]; try reflexivity.
    cbn [truthy lit]. apply Bool.negb_true_iff.
    destruct (Qeq_bool q 0) eqn:E; [|reflexivity].
    apply Qeq_bool_iff in E. contradiction.
Qed.

Lemma severity_of_level a s m r :
  (0 <= severity (computeHeatStressLevel a s m r) <= 4)%Z.
Proof.
  pose proof (HeatStressFacts.level_in_levels a s m r) as Hin.
  unfold levels in Hin. cbn [In] in Hin.
  repeat (destruct Hin as [<- | Hin]; [vm_compute; split; discriminate|]).
  destruct Hin.
Qed.

(** X18: the handler turns a submission away with status 400, without a
    call to the store, unless each of the four readings is a number other
    than NaN and 0; a reading of exactly 0 counts as missing.  An accepted
    submission makes one insert: the readings as given, the level of the
    scorer (one of the five levels the forecast knows) and an area that is
    never empty.  The answer is 200 with that level and its advice when the
    insert returns, and 500 with error submission_failed when it throws. *)
Theorem submit_microclimate_checked getProfile insertMicroclimate username
    a s m r :
  let out :=
    submitMicroclimate getProfile insertMicroclimate username a s m r in
  (submitMicroclimateAccepts a s m r = true <->
   Forall (fun v => v = Number PosInf \/ v = Number NegInf
                    \/ exists q, v = lit q /\ ~ (q == 0)%Q)
     [a; s; m; r])
  /\ (submitMicroclimateAccepts a s m r = false ->
      fst out = [] /\ exists msg, snd out = Failed 400 msg None)
  /\ (a = lit 0 \/ s = lit 0 \/ m = lit 0 \/ r = lit 0 ->
      out = ([], Failed 400 "All microclimate values are required" None))
  /\ (submitMicroclimateAccepts a s m r = true ->
      exists row,
        fst out = [row]
        /\ i_username row = username
        /\ [i_air_temperature row; i_soil_temperature row;
            i_soil_moisture row; i_relative_humidity row] = [a; s; m; r]
        /\ i_heat_stress_level row = computeHeatStressLevel a s m r
        /\ (0 <= severity (i_heat_stress_level row) <= 4)%Z
        /\ i_area_id row <> ""
        /\ (insertMicroclimate row = ret tt ->
            exists body,
              snd out = Sent 200 body
              /\ sb_heatStressLevel body = i_heat_stress_level row
              /\ sb_advice body
                 = heatStressAdviceForLevel (Some (i_heat_stress_level row))
              /\ sb_areaId body = i_area_id row)
        /\ (forall err,
              insertMicroclimate row = throw err ->
              snd out
              = Failed 500 "submission_failed" (Some (messageOf err)))).
Proof.
  cbv zeta. split; [|split; [|split]].
  - rewrite accepts_truthy. split.
    + intros (Ha & Hs & Hm & Hr).
      repeat (constructor; [now apply truthy_number|]). constructor.
    + intros Hall.
      inversion_clear Hall as [|? ? Ha Hall1].
      inversion_clear Hall1 as [|? ? Hs Hall2].
      inversion_clear Hall2 as [|? ? Hm Hall3].
      inversion_clear Hall3 as [|? ? Hr _].
      rewrite !truthy_number. auto.
  - intros Hrej. unfold submitMicroclimate.
    unfold submitMicroclimateAccepts in Hrej.
    destruct (negb (truthy a) || negb (truthy s) || negb (truthy m)
              || negb (truthy r))%bool.
    + split; [reflexivity | eexists; reflexivity].
    + destruct (isNaN a || isNaN s || isNaN m || isNaN r)%bool;
        [|discriminate Hrej].
      split; [reflexivity | eexists; reflexivity].
  - intros Hzero. unfold submitMicroclimate.
    assert (Hguard : (negb (truthy a) || negb (truthy s) || negb (truthy m)
                      || negb (truthy r))%bool = true).
    { destruct Hzero as [-> | [-> | [-> | ->]]]; cbn [truthy lit];
        change (Qeq_bool 0 0) with true; cbn [negb];
        rewrite ?Bool.orb_true_r; reflexivity. }
    rewrite Hguard. reflexivity.
  - intros Hacc. apply accepts_truthy in Hacc as (Ha & Hs & Hm & Hr).
    destruct (accepted_number a Ha) as (na & -> & Hna).
    destruct (accepted_number s Hs) as (ns & -> & Hns).
    destruct (accepted_number m Hm) as (nm & -> & Hnm).
    destruct (accepted_number r Hr) as (nr & -> & Hnr).
    unfold submitMicroclimate. rewrite Ha, Hs, Hm, Hr. cbn [negb orb].
    assert (Hnan : (isNaN (Number na) || isNaN (Number ns)
                    || isNaN (Number nm) || isNaN (Number nr))%bool = false).
    { destruct na, ns, nm, nr; try contradiction; reflexivity. }
    rewrite Hnan. cbv zeta. eexists. cbn [fst snd].
    split; [reflexivity|].
    cbn [i_username i_air_temperature i_soil_temperature i_soil_moisture
         i_relative_humidity i_heat_stress_level i_area_id parseFloat].
    split; [reflexivity|]. split; [reflexivity|]. split; [reflexivity|].
    split; [apply severity_of_level|].
    split; [apply userCountryOf_nonempty|].
    split.
    + intros Hins. rewrite Hins. cbn [bind ret try_catch].
      eexists. split; [reflexivity|]. repeat split.
    + intros err Hins. rewrite Hins. reflexivity.
Qed.

Lemma submit_microclimate_checked_witness :
  exists row,
    fst (submitMicroclimate
           (fun _ => throw (StoreError "no such table: profiles"))
           (fun _ => ret tt) "ana" (lit 36) (lit 31) (lit 15) (lit 20))
    = [row]
    /\ i_area_id row = "Unknown Location"
    /\ i_heat_stress_level row = "critical".
Proof.
  destruct (proj2 (proj2 (proj2 (submit_microclimate_checked
                            (fun _ => throw (StoreError "no such table: profiles"))
                            (fun _ => ret tt) "ana"
                            (lit 36) (lit 31) (lit 15) (lit 20))))
              eq_refl)
    as (row & Hrow & _ & _ & Hlevel & _).
  exists row. split; [exact Hrow|].
  injection Hrow as <-. split; reflexivity.
Defined.

End SubmitFacts.

(** ** The community trend handlers *)
Module TrendRouteFacts.
Import JS Exn Routes.
Local Open Scope string_scope.

Lemma communityTrend_cases {T} (compute : string -> Community.database -> string -> T)
    getProfile db username queryType :
  (forall err,
     getProfile username = throw err ->
     communityTrend compute getProfile db username queryType
     = Failed 500 "trend_failed" (Some (messageOf err)))
  /\ (getProfile username = ret None ->
      communityTrend compute getProfile db username queryType
      = Failed 400 "profile_not_found" (Some "User profile not found"))
  /\ (forall profile,
        getProfile username = ret (Some profile) ->
        communityTrend compute getProfile db username queryType
        = Sent 200
            {| tb_areaId := orUnknownLocation (country profile);
               tb_trend :=
                 compute (orUnknownLocation (country profile)) db
                   (match queryType with Some t => t | None => "recent" end);
               tb_type :=
                 match queryType with Some t => t | None => "recent" end |}).
Proof.
  unfold communityTrend. split; [|split].
  - intros err ->. reflexivity.
  - intros ->. reflexivity.
  - intros profile ->. reflexivity.
Qed.



End TrendRouteFacts.

(** ** From the pixels of a trap image to its category *)
Module TrapCategoryFacts.
Import JS Segmenter Mask Classifier Routes SegmenterFacts MaskFacts.
Local Open Scope string_scope.

Lemma analysis_summary w h data :
  length data = w * h -> 0 < w * h ->
  exists a q,
    analyzeStickyTrapImage w h data = Some a
    /\ 10 * blobCount a <= length (darkSamples data)
    /\ length (darkSamples data) <= w * h
    /\ darkPixelRatio a = Fin q
    /\ (q == inject_Z (Z.of_nat (length (darkSamples data)))
             / inject_Z (Z.of_nat (w * h)))%Q.
Proof.
  intros Hlen Hpos.
  pose proof (buildMask_darkPixels w h data Hlen) as Hpix.
  destruct (buildMask_spec w h data) as (bin & Hrun & _ & _).
  rewrite Hrun in Hpix. cbn [fst] in Hpix.
  assert (Hle : length (darkSamples data) <= w * h).
  { rewrite <- Hlen. apply length_filter. }
  destruct (ratio_unit_interval _ _ Hpos Hle) as (q & Hq & Heq & _).
  unfold analyzeStickyTrapImage, segmentMask. rewrite Hrun.
  rewrite labelComponents_reference.
  eexists. exists q. split; [reflexivity|].
  cbn [blobCount darkPixelRatio].
  destruct (referenceBlobs_bounds w h bin) as (_ & Hlow & Hsum & _).
  split; [lia|]. split; [assumption|]. split; assumption.
Qed.

Lemma bucket_of_count (n : nat) :
  bucket (clampedCount (lit (inject_Z (Z.of_nat n))))
  = if Nat.leb n 2 then 0
    else if Nat.leb n 5 then 1
    else if Nat.leb n 12 then 2
    else if Nat.leb n 25 then 3
    else 4.
Proof.
  assert (Hlt : forall b : Z,
            Qltb (inject_Z b) (inject_Z (Z.of_nat n)) = (b <? Z.of_nat n)%Z).
  { intros b. unfold Qltb, Qle_bool, inject_Z. cbn [Qnum Qden].
    rewrite !Z.mul_1_r. rewrite Z.ltb_antisym. reflexivity. }
  unfold clampedCount, lit.
  destruct (Qle_bool (inject_Z (Z.of_nat n)) 0) eqn:E.
  - assert (n = 0).
    { apply Qle_bool_iff in E. rewrite <- (Zle_Qle _ 0) in E. lia. }
    subst n. reflexivity.
  - unfold bucket, breakpoints. cbn [List.filter ltn].
    change 2%Q with (inject_Z 2). change 5%Q with (inject_Z 5).
    change 12%Q with (inject_Z 12). change 25%Q with (inject_Z 25).
    rewrite !Hlt.
    repeat match goal with
           | |- context [(?b <? ?x)%Z] => destruct (Z.ltb_spec b x)
           | |- context [Nat.leb ?a ?b] => destruct (Nat.leb_spec a b)
           end; cbn [length]; try reflexivity; lia.
Qed.

(** The test against the double [0.15] on the quotient of two counts. *)
Lemma ratio_threshold (q : Q) (d n : nat) :
  0 < n ->
  (q == inject_Z (Z.of_nat d) / inject_Z (Z.of_nat n))%Q ->
  ge (Number (Fin q)) (lit double_0_15) = true
  <-> (5404319552844595 * Z.of_nat n <= 36028797018963968 * Z.of_nat d)%Z.
Proof.
  intros Hn Hq. change (Number (Fin q)) with (lit q). rewrite JSFacts.ge_lit.
  assert (Hpos : (0 < inject_Z (Z.of_nat n))%Q).
  { rewrite <- (Zlt_Qlt 0). lia. }
  rewrite Hq. split.
  - intros Hle.
    destruct (Z_le_gt_dec (5404319552844595 * Z.of_nat n)
                (36028797018963968 * Z.of_nat d)) as [|Hlt]; [assumption|].
    exfalso. apply (Qle_not_lt _ _ Hle).
    apply Qlt_shift_div_r; [assumption|].
    unfold Qlt, Qmult, inject_Z, double_0_15. cbn [Qnum Qden]. lia.
  - intros Hle. apply Qle_shift_div_l; [assumption|].
    unfold Qle, Qmult, inject_Z, double_0_15. cbn [Qnum Qden]. lia.
Qed.

Lemma category_position w h data :
  length data = w * h -> 0 < w * h ->
  exists a k,
    analyzeStickyTrapImage w h data = Some a
    /\ pestAmountCategory w h data = Some (nth k order "very high")
    /\ (let step :=
          if Nat.leb (blobCount a) 2 then 0
          else if Nat.leb (blobCount a) 5 then 1
          else if Nat.leb (blobCount a) 12 then 2
          else if Nat.leb (blobCount a) 25 then 3
          else 4 in
        k = if (5404319552844595 * Z.of_nat (w * h)
                <=? 36028797018963968
                    * Z.of_nat (length (darkSamples data)))%Z
            then Nat.min (step + 1) 4
            else step)
    /\ 10 * blobCount a <= length (darkSamples data)
    /\ length (darkSamples data) <= w * h.
Proof.
  intros Hlen Hpos.
  destruct (analysis_summary w h data Hlen Hpos)
    as (a & q & Ha & Hblobs & Hle & Hq & Heq).
  destruct (ClassifierOrder.categorize_position
              (lit (inject_Z (Z.of_nat (blobCount a))))
              (Number (darkPixelRatio a)))
    as (k & _ & Hcat & Hk).
  exists a, k. split; [exact Ha|].
  unfold pestAmountCategory. rewrite Ha, Hcat.
  split; [reflexivity|]. split; [|split; assumption].
  cbv zeta. rewrite Hk, Hq, bucket_of_count.
  pose proof (ratio_threshold q _ _ Hpos Heq) as Hratio.
  destruct (ge (Number (Fin q)) (lit double_0_15));
    destruct (Z.leb_spec (5404319552844595 * Z.of_nat (w * h))
                (36028797018963968 * Z.of_nat (length (darkSamples data))));
    try reflexivity; exfalso.
  - assert (5404319552844595 * Z.of_nat (w * h)
            <= 36028797018963968 * Z.of_nat (length (darkSamples data)))%Z
      by (now apply Hratio). lia.
  - assert (false = true) by (now apply Hratio). discriminate.
Qed.

(** X20: every image of the declared size gets one of the five categories.
    With fewer than 30 dark samples that are less than 15% of the image the
    category is very low; from 15% dark samples on it is never very low;
    very high needs at least 130 dark samples; and an image whose samples
    are all dark is one blob of the whole image and gets the category
    low. *)
Theorem trap_category_bounds w h data :
  length data = w * h -> 0 < w * h ->
  let dark := length (darkSamples data) in
  exists category,
    pestAmountCategory w h data = Some category
    /\ In category order
    /\ (dark < 30 -> 20 * dark < 3 * (w * h) -> category = "very low")
    /\ (3 * (w * h) <= 20 * dark -> category <> "very low")
    /\ (category = "very high" -> 130 <= dark)
    /\ (Forall (fun v => v < 90) data -> 10 <= w * h -> category = "low").
Proof.
  intros Hlen Hpos. cbv zeta.
  destruct (category_position w h data Hlen Hpos)
    as (a & k & Ha & Hcat & Hk & Hblobs & Hle).
  exists (nth k order "very high"). split; [exact Hcat|].
  set (dark := length (darkSamples data)) in *.
  set (step := if Nat.leb (blobCount a) 2 then 0
               else if Nat.leb (blobCount a) 5 then 1
               else if Nat.leb (blobCount a) 12 then 2
               else if Nat.leb (blobCount a) 25 then 3
               else 4) in Hk.
  cbv zeta in Hk.
  assert (Hstep : step <= 4).
  { subst step. repeat (destruct (Nat.leb _ _)); lia. }
  assert (Hfew : blobCount a <= 2 -> step = 0).
  { intros H. subst step. destruct (Nat.leb_spec (blobCount a) 2); [reflexivity | lia]. }
  assert (Hmany : 3 <= step -> 13 <= blobCount a).
  { subst step.
    repeat match goal with
           | |- context [Nat.leb ?x ?y] => destruct (Nat.leb_spec x y)
           end; lia. }
  assert (Hk4 : k <= 4).
  { rewrite Hk. destruct (Z.leb _ _); lia. }
  split; [|split; [|split; [|split]]].
  - destruct k as [|[|[|[|[|k]]]]]; cbn; try tauto. lia.
  - intros Hdark30 Hratio.
    destruct (Z.leb_spec (5404319552844595 * Z.of_nat (w * h))
                (36028797018963968 * Z.of_nat dark)); [lia|].
    rewrite Hk, Hfew by lia. reflexivity.
  - intros Hratio.
    destruct (Z.leb_spec (5404319552844595 * Z.of_nat (w * h))
                (36028797018963968 * Z.of_nat dark)); [|lia].
    assert (Hk1 : 1 <= k) by lia.
    destruct k as [|[|[|[|[|k]]]]]; cbn; try discriminate; lia.
  - intros Hvery.
    assert (k = 4).
    { destruct k as [|[|[|[|[|k]]]]]; cbn in Hvery; try discriminate;
        [reflexivity | lia]. }
    assert (13 <= blobCount a).
    { apply Hmany. destruct (Z.leb _ _); lia. }
    lia.
  - intros Hall Hbig.
    destruct (buildMask_spec w h data) as (bin & Hrun & Hbin & Hdark).
    assert (Hpix : forall i, i < w * h -> Segmenter.dark bin i).
    { intros i Hi. apply Hdark. split; [assumption|].
      destruct (lookup_lt_is_Some_2 data i) as [v Hv]; [lia|].
      exists v. split; [assumption|].
      apply (proj1 (Forall_forall _ _) Hall).
      eapply list_elem_of_lookup_2; eauto. }
    assert (Hsamples : dark = w * h).
    { subst dark. unfold darkSamples. rewrite filter_all by exact Hall.
      exact Hlen. }
    assert (Hone : blobCount a = 1).
    { unfold analyzeStickyTrapImage, segmentMask in Ha. rewrite Hrun in Ha.
      rewrite labelComponents_reference in Ha. injection Ha as <-.
      cbn [blobCount]. unfold referenceBlobs.
      rewrite all_dark_one_component by (auto; lia).
      rewrite filter_cons_True by lia. rewrite filter_nil. reflexivity. }
    destruct (Z.leb_spec (5404319552844595 * Z.of_nat (w * h))
                (36028797018963968 * Z.of_nat dark)); [|lia].
    rewrite Hk, Hfew by lia. reflexivity.
Qed.

Lemma trap_category_bounds_witness :
  pestAmountCategory 4 3 (replicate 12 0) = Some "low".
Proof.
  destruct (trap_category_bounds 4 3 (replicate 12 0) eq_refl
              ltac:(simpl; lia))
    as (category & Hcat & _ & _ & _ & _ & Hlow).
  rewrite Hcat. f_equal. apply Hlow; [repeat constructor | simpl; lia].
Defined.

End TrapCategoryFacts.
